(** * The task store of the Kanban to-do list (main.py)

    A shallow embedding of [TaskManager] and of the callbacks of
    [KanbanApp] that reach it, together with the part of Python's [json]
    module that [save_tasks] and [load_tasks] call: the encoder with
    [indent=4] and [ensure_ascii=True], and the decoder with its defaults.

    Python values are modelled as follows.
    - [int] is [Z].
    - [str] is [string]; a character of a [string] stands for the code
      point of the same number, so the texts of this model are those whose
      code points are below 256.
    - a task, which the program keeps as a [dict] with the keys ["id"],
      ["title"], ["status"] and ["date"], is the record [Task].
    - [self.tasks] is a [list Task]; the file [tasks.json] is its text, or
      [None] while the file does not exist.

    Saving and loading is where the code points from 256 on and the size
    of an [int] matter. The module [Unicode] models the store a second
    time for them, with a [str] as the list of its code points and with the
    digit limit of [int]; the two models agree where the first one applies
    ([models_agree]). *)

From Stdlib Require Import ZArith Ascii String List Lia.
From Stdlib Require Import Decimal DecimalString DecimalZ DecimalN DecimalPos DecimalFacts.
From stdpp Require Import base decidable option list strings.

Local Open Scope Z_scope.

(** ** Characters that cannot be written inside a literal *)

Definition quote : ascii := "034"%char.
Definition backslash : ascii := "092"%char.
Definition chr_bs : ascii := "008"%char.
Definition chr_tab : ascii := "009"%char.
Definition chr_nl : ascii := "010"%char.
Definition chr_ff : ascii := "012"%char.
Definition chr_cr : ascii := "013"%char.

(** [ord c] *)
Definition ord (c : ascii) : N := N_of_ascii c.

(** ** The [json] module, as far as the store calls it *)

Module Json.

#[local] Set Warnings "-register-all".

(** The Python values that [json.load] can build. A [dict] is kept as the
    list of its items in insertion order, which is also the order in which
    [json.dump] writes them. *)
Inductive value : Type :=
| JNull
| JBool (b : bool)
| JInt (z : Z)
| JStr (s : string)
| JArr (l : list value)
| JObj (d : list (string * value)).

(** *** Encoding: [json.dump(obj, f, indent=4)] *)

Definition hexdigit (n : N) : ascii :=
  match n with
  | 0%N => "0" | 1%N => "1" | 2%N => "2" | 3%N => "3"
  | 4%N => "4" | 5%N => "5" | 6%N => "6" | 7%N => "7"
  | 8%N => "8" | 9%N => "9" | 10%N => "a" | 11%N => "b"
  | 12%N => "c" | 13%N => "d" | 14%N => "e" | _ => "f"
  end%char.

(** ['\\u{0:04x}'.format(n)] *)
Definition uescape (n : N) : string :=
  String backslash (String "u"
    (String (hexdigit (n / 4096 mod 16)) (String (hexdigit (n / 256 mod 16))
    (String (hexdigit (n / 16 mod 16)) (String (hexdigit (n mod 16)) ""))))).

(** The replacement that [ensure_ascii=True] makes for one character: the
    short escapes of [ESCAPE_DCT], the character itself from space to [~],
    and a [\uXXXX] escape for everything else. *)
Definition escape_char (c : ascii) : string :=
  if Ascii.eqb c quote then String backslash (String quote "")
  else if Ascii.eqb c backslash then String backslash (String backslash "")
  else if Ascii.eqb c chr_nl then String backslash "n"
  else if Ascii.eqb c chr_cr then String backslash "r"
  else if Ascii.eqb c chr_tab then String backslash "t"
  else if Ascii.eqb c chr_bs then String backslash "b"
  else if Ascii.eqb c chr_ff then String backslash "f"
  else if ((32 <=? ord c) && (ord c <=? 126))%N then String c ""
  else uescape (ord c).

Fixpoint escape (s : string) : string :=
  match s with
  | EmptyString => ""
  | String c r => escape_char c +:+ escape r
  end.

(** [py_encode_basestring_ascii] *)
Definition encode_basestring_ascii (s : string) : string :=
  String quote (escape s +:+ String quote "").

(** [int.__repr__]: the decimal digits, after a minus sign for a negative
    number. The limit that [sys.set_int_max_str_digits] puts on the
    number of digits is left to [Unicode.int_str]. *)
Definition int_repr (z : Z) : string := NilZero.string_of_int (Z.to_int z).

Fixpoint spaces (n : nat) : string :=
  match n with
  | O => ""
  | S n => " " +:+ spaces n
  end.

(** [newline_indent = '\n' + _indent * _current_indent_level], with
    [_indent] four spaces *)
Definition newline_indent (level : nat) : string :=
  String chr_nl (spaces (4 * level)).

(** [_iterencode] with [indent=4]: the item separator is [','] followed
    by [newline_indent], the key separator is [': ']. [level] is
    [_current_indent_level] on entry. *)
Fixpoint iterencode (level : nat) (o : value) {struct o} : string :=
  match o with
  | JNull => "null"
  | JBool true => "true"
  | JBool false => "false"
  | JInt z => int_repr z
  | JStr s => encode_basestring_ascii s
  | JArr [] => "[]"
  | JArr (x :: xs) =>
      "[" +:+ newline_indent (S level) +:+ iterencode (S level) x +:+
      (fix rest (l : list value) : string :=
         match l with
         | [] => ""
         | y :: l' =>
             "," +:+ newline_indent (S level) +:+ iterencode (S level) y +:+ rest l'
         end) xs +:+
      newline_indent level +:+ "]"
  | JObj [] => "{}"
  | JObj ((k, v) :: kvs) =>
      "{" +:+ newline_indent (S level) +:+
      encode_basestring_ascii k +:+ ": " +:+ iterencode (S level) v +:+
      (fix rest (l : list (string * value)) : string :=
         match l with
         | [] => ""
         | (k', v') :: l' =>
             "," +:+ newline_indent (S level) +:+
             encode_basestring_ascii k' +:+ ": " +:+ iterencode (S level) v' +:+ rest l'
         end) kvs +:+
      newline_indent level +:+ "}"
  end.

(** The text that [json.dump(obj, f, indent=4)] writes to [f]. *)
Definition dump (o : value) : string := iterencode 0 o.

(** *** Decoding: [json.load(f)]

    A call either returns a value, or raises [JSONDecodeError], or meets
    what this model cannot hold ([Unsupported]: a number with a fraction or
    an exponent, [NaN], [Infinity], or an escape for a code point above
    255; what Python makes of the rest of the text is then not modelled
    here, and [Unicode.scanstring] has the escapes of every code point),
    or exceeds the nesting that the given fuel allows ([TooDeep]). *)

Inductive result (A : Type) : Type :=
| Ok (a : A)
| JSONDecodeError
| Unsupported
| TooDeep.
Arguments Ok {A} a.
Arguments JSONDecodeError {A}.
Arguments Unsupported {A}.
Arguments TooDeep {A}.

Definition bind {A B : Type} (r : result A) (k : A -> result B) : result B :=
  match r with
  | Ok a => k a
  | JSONDecodeError => JSONDecodeError
  | Unsupported => Unsupported
  | TooDeep => TooDeep
  end.

Notation "'let*' p ':=' r 'in' k" := (bind r (fun p => k))
  (at level 10, p pattern, r at level 100, k at level 200).

(** [WHITESPACE = re.compile(r'[ \t\n\r]*')] *)
Definition is_ws (c : ascii) : bool :=
  Ascii.eqb c " " || Ascii.eqb c chr_tab || Ascii.eqb c chr_nl || Ascii.eqb c chr_cr.

Fixpoint skip_ws (s : string) : string :=
  match s with
  | String c r => if is_ws c then skip_ws r else s
  | EmptyString => s
  end.

Definition hexval (c : ascii) : option N :=
  let n := ord c in
  if ((48 <=? n) && (n <=? 57))%N then Some (n - 48)%N
  else if ((97 <=? n) && (n <=? 102))%N then Some (n - 87)%N
  else if ((65 <=? n) && (n <=? 70))%N then Some (n - 55)%N
  else None.

(** The table [BACKSLASH] of the one-character escapes. *)
Definition unescape (c : ascii) : option ascii :=
  if Ascii.eqb c quote then Some quote
  else if Ascii.eqb c backslash then Some backslash
  else if Ascii.eqb c "/" then Some "/"%char
  else if Ascii.eqb c "b" then Some chr_bs
  else if Ascii.eqb c "f" then Some chr_ff
  else if Ascii.eqb c "n" then Some chr_nl
  else if Ascii.eqb c "r" then Some chr_cr
  else if Ascii.eqb c "t" then Some chr_tab
  else None.

Definition cons_char (c : ascii) (r : result (string * string)) : result (string * string) :=
  let* (s, rest) := r in Ok (String c s, rest).

(** [scanstring(s, end, strict=True)], called on the text that follows
    the opening quote; returns the decoded string and the text that follows
    the closing quote. *)
Fixpoint scanstring (s : string) : result (string * string) :=
  match s with
  | EmptyString => JSONDecodeError
  | String c r =>
      if Ascii.eqb c quote then Ok (EmptyString, r)
      else if Ascii.eqb c backslash then
        match r with
        | EmptyString => JSONDecodeError
        | String e r1 =>
            if Ascii.eqb e "u" then
              match r1 with
              | String h1 (String h2 (String h3 (String h4 r2))) =>
                  match hexval h1, hexval h2, hexval h3, hexval h4 with
                  | Some a, Some b, Some c', Some d =>
                      let n := (a * 4096 + b * 256 + c' * 16 + d)%N in
                      if (n <? 256)%N then cons_char (ascii_of_N n) (scanstring r2)
                      else Unsupported
                  | _, _, _, _ => JSONDecodeError
                  end
              | _ => JSONDecodeError
              end
            else
              match unescape e with
              | Some c' => cons_char c' (scanstring r1)
              | None => JSONDecodeError
              end
        end
      else if (ord c <? 32)%N then JSONDecodeError
      else cons_char c (scanstring r)
  end.

Definition digit_of (c : ascii) : option (uint -> uint) :=
  match ord c with
  | 48%N => Some D0 | 49%N => Some D1 | 50%N => Some D2 | 51%N => Some D3
  | 52%N => Some D4 | 53%N => Some D5 | 54%N => Some D6 | 55%N => Some D7
  | 56%N => Some D8 | 57%N => Some D9 | _ => None
  end.

Definition is_digit (c : ascii) : bool :=
  match digit_of c with Some _ => true | None => false end.

(** The longest run of digits. *)
Fixpoint digits (s : string) : uint * string :=
  match s with
  | String c r =>
      match digit_of c with
      | Some d => let (u, rest) := digits r in (d u, rest)
      | None => (Nil, s)
      end
  | EmptyString => (Nil, s)
  end.

(** The integer part of [NUMBER_RE]: a single [0], or a digit from 1 to 9
    followed by as many digits as there are. *)
Definition intpart (s : string) : option (uint * string) :=
  match s with
  | String c r =>
      if Ascii.eqb c "0" then Some (D0 Nil, r)
      else match digit_of c with
           | Some d => let (u, rest) := digits r in Some (d u, rest)
           | None => None
           end
  | EmptyString => None
  end.

(** The first group of [NUMBER_RE]: an optional minus sign and the integer
    part. *)
Definition integer (s : string) : option (Decimal.int * string) :=
  match s with
  | String c r =>
      if Ascii.eqb c "-" then
        match intpart r with
        | Some (u, rest) => Some (Neg u, rest)
        | None => None
        end
      else
        match intpart s with
        | Some (u, rest) => Some (Pos u, rest)
        | None => None
        end
  | EmptyString => None
  end.

Definition starts_with_digit (s : string) : bool :=
  match s with
  | String c _ => is_digit c
  | EmptyString => false
  end.

(** Does the second group of [NUMBER_RE], a dot and at least one digit,
    match here? *)
Definition has_frac (s : string) : bool :=
  match s with
  | String c r => Ascii.eqb c "." && starts_with_digit r
  | EmptyString => false
  end.

(** Does the third group of [NUMBER_RE], [e] or [E], an optional sign and
    at least one digit, match here? *)
Definition has_exp (s : string) : bool :=
  match s with
  | String c r =>
      (Ascii.eqb c "e" || Ascii.eqb c "E") &&
      match r with
      | String c' r' =>
          if Ascii.eqb c' "-" || Ascii.eqb c' "+" then starts_with_digit r'
          else is_digit c'
      | EmptyString => false
      end
  | EmptyString => false
  end.

(** [NUMBER_RE.match] and the conversion that follows it in [_scan_once]:
    [None] when the pattern does not match. *)
Definition number (s : string) : option (result (value * string)) :=
  match integer s with
  | Some (i, rest) =>
      if has_frac rest || has_exp rest then Some Unsupported
      else Some (Ok (JInt (Z.of_int i), rest))
  | None => None
  end.

(** [dict(pairs)]: a key that comes again keeps its place and takes the
    later value. *)
Fixpoint dict_set (k : string) (v : value) (d : list (string * value)) : list (string * value) :=
  match d with
  | [] => [(k, v)]
  | (k', v') :: r => if String.eqb k k' then (k, v) :: r else (k', v') :: dict_set k v r
  end.

Definition dict (pairs : list (string * value)) : list (string * value) :=
  fold_left (fun d kv => dict_set (fst kv) (snd kv) d) pairs [].

(** [s[end:end+n] == lit]: the text after [lit], when [s] starts with it. *)
Fixpoint after (lit s : string) : option string :=
  match lit, s with
  | EmptyString, _ => Some s
  | String a l, String b r => if Ascii.eqb a b then after l r else None
  | String _ _, EmptyString => None
  end.

(** [_scan_once], [JSONArray] and [JSONObject]. Each takes the text from
    the current position on and returns the value with the text that
    follows it. The two loops are entered after the first item is known to
    be there; [items] and [members] are called on the text of the next
    item. *)
Fixpoint scan_once (fuel : nat) (s : string) {struct fuel} : result (value * string) :=
  match fuel with
  | O => TooDeep
  | S fuel =>
      match s with
      | EmptyString => JSONDecodeError
      | String c r =>
          if Ascii.eqb c quote then
            let* (str, rest) := scanstring r in Ok (JStr str, rest)
          else if Ascii.eqb c "{" then
            match skip_ws r with
            | String c' r' =>
                if Ascii.eqb c' "}" then Ok (JObj [], r')
                else let* (pairs, rest) := members fuel (String c' r') in
                     Ok (JObj (dict pairs), rest)
            | EmptyString => JSONDecodeError
            end
          else if Ascii.eqb c "[" then
            match skip_ws r with
            | String c' r' =>
                if Ascii.eqb c' "]" then Ok (JArr [], r')
                else let* (vs, rest) := items fuel (String c' r') in Ok (JArr vs, rest)
            | EmptyString => JSONDecodeError
            end
          else
            match after "null" s, after "true" s, after "false" s with
            | Some rest, _, _ => Ok (JNull, rest)
            | _, Some rest, _ => Ok (JBool true, rest)
            | _, _, Some rest => Ok (JBool false, rest)
            | None, None, None =>
                match number s with
                | Some r => r
                | None =>
                    match after "NaN" s, after "Infinity" s, after "-Infinity" s with
                    | None, None, None => JSONDecodeError
                    | _, _, _ => Unsupported
                    end
                end
            end
      end
  end
with items (fuel : nat) (s : string) {struct fuel} : result (list value * string) :=
  match fuel with
  | O => TooDeep
  | S fuel =>
      let* (v, rest) := scan_once fuel s in
      match skip_ws rest with
      | String c r =>
          if Ascii.eqb c "]" then Ok ([v], r)
          else if Ascii.eqb c "," then
            let* (vs, rest') := items fuel (skip_ws r) in Ok (v :: vs, rest')
          else JSONDecodeError
      | EmptyString => JSONDecodeError
      end
  end
with members (fuel : nat) (s : string) {struct fuel} : result (list (string * value) * string) :=
  match fuel with
  | O => TooDeep
  | S fuel =>
      match s with
      | String q r =>
          if Ascii.eqb q quote then
            let* (key, rest) := scanstring r in
            match skip_ws rest with
            | String c r1 =>
                if Ascii.eqb c ":" then
                  let* (v, rest1) := scan_once fuel (skip_ws r1) in
                  match skip_ws rest1 with
                  | String c' r2 =>
                      if Ascii.eqb c' "}" then Ok ([(key, v)], r2)
                      else if Ascii.eqb c' "," then
                        let* (kvs, rest2) := members fuel (skip_ws r2) in
                        Ok ((key, v) :: kvs, rest2)
                      else JSONDecodeError
                  | EmptyString => JSONDecodeError
                  end
                else JSONDecodeError
            | EmptyString => JSONDecodeError
            end
          else JSONDecodeError
      | EmptyString => JSONDecodeError
      end
  end.

(** [JSONDecoder.decode]: leading white space, one value, trailing white
    space, and nothing else. Every call of the three functions above uses
    up at least one character every second level, so twice the length of
    the text is fuel enough ([JsonFacts.loads_not_TooDeep]). *)
Definition loads (s : string) : result value :=
  let* (v, rest) := scan_once (2 * String.length s + 2) (skip_ws s) in
  match skip_ws rest with
  | EmptyString => Ok v
  | String _ _ => JSONDecodeError
  end.

(** *** Notions used to state what the decoder does on encoded text *)

(** The items of a list after the first, as [_iterencode_list] writes
    them at [level]. *)
Fixpoint arr_rest (level : nat) (l : list value) : string :=
  match l with
  | [] => ""
  | y :: l' => "," +:+ newline_indent level +:+ iterencode level y +:+ arr_rest level l'
  end.

(** The digits start with a digit other than 0. *)
Definition leading_nonzero (u : uint) : Prop :=
  match u with
  | Nil | D0 _ => False
  | _ => True
  end.

(** Text before which the number pattern stops. *)
Definition ends_number (rest : string) : Prop :=
  starts_with_digit rest = false /\ has_frac rest = false /\ has_exp rest = false.

End Json.

(** ** Tasks *)

(** A task dictionary: [{"id": .., "title": .., "status": .., "date": ..}]. *)
Module Task.

Record t : Type := mk { id : Z; title : string; status : string; date : string }.

(** [task["status"] = new_status] *)
Definition set_status (new_status : string) (task : t) : t :=
  {| id := id task; title := title task; status := new_status; date := date task |}.

(** The dictionary as a Python value, its keys in the order in which
    [add_task] writes them. *)
Definition to_value (task : t) : Json.value :=
  Json.JObj [("id", Json.JInt (id task)); ("title", Json.JStr (title task));
             ("status", Json.JStr (status task)); ("date", Json.JStr (date task))].

(** The record behind a Python value, for the values of that shape. *)
Definition of_value (v : Json.value) : option t :=
  match v with
  | Json.JObj [(k1, Json.JInt i); (k2, Json.JStr ti); (k3, Json.JStr st); (k4, Json.JStr da)] =>
      if String.eqb k1 "id" && String.eqb k2 "title" &&
         String.eqb k3 "status" && String.eqb k4 "date"
      then Some (mk i ti st da)
      else None
  | _ => None
  end.

End Task.

Definition tasks_to_value (l : list Task.t) : Json.value :=
  Json.JArr (map Task.to_value l).

Fixpoint values_to_tasks (l : list Json.value) : option (list Task.t) :=
  match l with
  | [] => Some []
  | v :: r =>
      match Task.of_value v, values_to_tasks r with
      | Some task, Some tasks => Some (task :: tasks)
      | _, _ => None
      end
  end.

Definition tasks_of_value (v : Json.value) : option (list Task.t) :=
  match v with
  | Json.JArr l => values_to_tasks l
  | _ => None
  end.

(** ** The state: the [TaskManager] object and the file [DATA_FILE] *)

Record World : Type := mkWorld {
  tasks : list Task.t;          (* self.tasks *)
  data_file : option string     (* the text of tasks.json, None when absent *)
}.

(** What a call can end with, besides returning. *)
Inductive exn : Type :=
| DecodeError        (* json.load raises JSONDecodeError *)
| OutsideModel.      (* json.load returns what [list Task.t] cannot hold *)

(** A method call: it runs in a world and returns a value and the world it
    leaves, or raises. *)
Definition M (A : Type) : Type := World -> exn + (A * World).

Definition ret {A : Type} (a : A) : M A := fun w => inr (a, w).

Definition raise {A : Type} (e : exn) : M A := fun _ => inl e.

Definition and_then {A B : Type} (m : M A) (k : A -> M B) : M B :=
  fun w => match m w with
           | inr (a, w') => k a w'
           | inl e => inl e
           end.

Notation "x <~ m ; k" := (and_then m (fun x => k))
  (at level 100, m at next level, right associativity).
Notation "m ;; k" := (and_then m (fun _ => k))
  (at level 100, right associativity).

(** Reading and assigning [self.tasks]. *)
Definition get_tasks : M (list Task.t) := fun w => inr (tasks w, w).

Definition set_tasks (l : list Task.t) : M unit :=
  fun w => inr (tt, mkWorld l (data_file w)).

(** [open(DATA_FILE, "w")] and the writes of [json.dump]: the file is
    replaced by the text. *)
Definition write_data_file (text : string) : M unit :=
  fun w => inr (tt, mkWorld (tasks w) (Some text)).

(** [os.path.exists(DATA_FILE)] and, if so, [f.read()]. *)
Definition read_data_file : M (option string) := fun w => inr (data_file w, w).

(** ** [TaskManager] *)

Module TaskManager.

Definition load_tasks : M unit :=
  f <~ read_data_file ;
  match f with
  | Some text =>
      match Json.loads text with
      | Json.Ok v =>
          match tasks_of_value v with
          | Some l => set_tasks l
          | None => raise OutsideModel
          end
      | Json.JSONDecodeError => raise DecodeError
      | Json.Unsupported | Json.TooDeep => raise OutsideModel
      end
  | None => set_tasks []
  end.

Definition save_tasks : M unit :=
  l <~ get_tasks ;
  write_data_file (Json.dump (tasks_to_value l)).

(** [TaskManager.__init__] *)
Definition init : M unit :=
  set_tasks [] ;; load_tasks.

Definition add_task (title status date_str : string) : M unit :=
  l <~ get_tasks ;
  let new_task := Task.mk (Z.of_nat (length l) + 1) title status date_str in
  set_tasks (l ++ [new_task]) ;;
  save_tasks.

(** The loop of [update_task_status]: the first task with the id gets the
    new status, and the [break] leaves the rest of the list alone. *)
Fixpoint set_first_status (task_id : Z) (new_status : string) (l : list Task.t) : list Task.t :=
  match l with
  | [] => []
  | task :: rest =>
      if decide (Task.id task = task_id)
      then Task.set_status new_status task :: rest
      else task :: set_first_status task_id new_status rest
  end.

Definition update_task_status (task_id : Z) (new_status : string) : M unit :=
  l <~ get_tasks ;
  set_tasks (set_first_status task_id new_status l) ;;
  save_tasks.

Definition delete_task (task_id : Z) : M unit :=
  l <~ get_tasks ;
  set_tasks (filter (fun task => Task.id task <> task_id) l) ;;
  save_tasks.

Definition get_tasks_by_status (status : string) : M (list Task.t) :=
  l <~ get_tasks ;
  ret (filter (fun task => Task.status task = status) l).

End TaskManager.

(** ** The callbacks of [KanbanApp] that reach the store

    The widgets are not modelled: a callback is the sequence of store
    calls that it makes. What the user typed or chose is an argument. *)

Module KanbanApp.

(** The three columns that [__init__] creates, and the only status names
    that the board ever hands to the store. *)
Inductive column : Type := ToDo | Doing | Done.

Definition column_name (c : column) : string :=
  match c with
  | ToDo => "To do"
  | Doing => "Doing"
  | Done => "Done"
  end.

(** [str.isspace] on one character. *)
Definition is_space (c : ascii) : bool :=
  let n := ord c in
  ((9 <=? n) && (n <=? 13) || (28 <=? n) && (n <=? 32) ||
   (n =? 133) || (n =? 160))%N.

Fixpoint lstrip (s : string) : string :=
  match s with
  | String c r => if is_space c then lstrip r else s
  | EmptyString => s
  end.

Fixpoint rstrip (s : string) : string :=
  match s with
  | String c r =>
      match rstrip r with
      | EmptyString => if is_space c then EmptyString else String c EmptyString
      | r' => String c r'
      end
  | EmptyString => s
  end.

(** [str.strip()] *)
Definition strip (s : string) : string := rstrip (lstrip s).

(** [create_cards_for_status]: asks the store for the column and builds
    one card for each task. *)
Definition create_cards_for_status (status : string) : M unit :=
  _cards <~ TaskManager.get_tasks_by_status status ;
  ret tt.

Definition refresh_board : M unit :=
  create_cards_for_status "To do" ;;
  create_cards_for_status "Doing" ;;
  create_cards_for_status "Done".

(** [confirm] inside [add_task_dialog]; [entry_text] is
    [title_entry.get()] and [dt] the formatted date. With an empty title
    it shows the warning and returns. *)
Definition confirm (entry_text dt : string) : M unit :=
  let title := strip entry_text in
  match title with
  | EmptyString => ret tt
  | String _ _ =>
      TaskManager.add_task title "To do" dt ;;
      refresh_board
  end.

Definition move_task (task_id : Z) (new_status : string) : M unit :=
  TaskManager.update_task_status task_id new_status ;;
  refresh_board.

(** [KanbanApp.delete_task]; [answer] is what [askyesno] returned. *)
Definition delete_task (task_id : Z) (answer : bool) : M unit :=
  if answer then (TaskManager.delete_task task_id ;; refresh_board) else ret tt.

(** What the user can do on the board: confirm the dialog, press one of
    the move buttons of a card, press its delete button and answer. *)
Inductive event : Type :=
| Confirm (entry_text dt : string)
| Move (task_id : Z) (target : column)
| Delete (task_id : Z) (answer : bool).

Definition handle (e : event) : M unit :=
  match e with
  | Confirm entry_text dt => confirm entry_text dt
  | Move task_id target => move_task task_id (column_name target)
  | Delete task_id answer => delete_task task_id answer
  end.

Fixpoint handle_all (es : list event) : M unit :=
  match es with
  | [] => ret tt
  | e :: r => handle e ;; handle_all r
  end.

End KanbanApp.

(** ** Sequences of store calls *)

Inductive call : Type :=
| AddTask (title status date_str : string)
| UpdateTaskStatus (task_id : Z) (new_status : string)
| DeleteTask (task_id : Z).

Definition run_call (c : call) : M unit :=
  match c with
  | AddTask title status date_str => TaskManager.add_task title status date_str
  | UpdateTaskStatus task_id new_status => TaskManager.update_task_status task_id new_status
  | DeleteTask task_id => TaskManager.delete_task task_id
  end.

Fixpoint run_calls (cs : list call) : M unit :=
  match cs with
  | [] => ret tt
  | c :: r => run_call c ;; run_calls r
  end.

(** The store right after [TaskManager()] where no file exists yet. *)
Definition fresh_world : World := mkWorld [] None.

(** The states that calls of [add_task], [update_task_status] and
    [delete_task] produce from the empty collection. *)
Definition reachable (w : World) : Prop :=
  exists cs, run_calls cs fresh_world = inr (tt, w).

(** The status names of the board. *)
Definition statuses : list string := ["To do"; "Doing"; "Done"].

Definition call_status_ok (c : call) : Prop :=
  match c with
  | AddTask _ status _ => status ∈ statuses
  | UpdateTaskStatus _ new_status => new_status ∈ statuses
  | DeleteTask _ => True
  end.

(** ** Notions used in the statements *)

Import TaskManager.

Arguments Json.dump : simpl never.

(** [update_task_status task_id new_status] moves the task at position
    [i] of the collection: if that task has the id, then after the call the
    task at that position is in the result of the query for [new_status]
    and, when its old status was another one, not in the result of the
    query for the old status. *)
Definition update_moves_task (w : World) (task_id : Z) (i : nat) (new_status : string) : Prop :=
  forall task, tasks w !! i = Some task -> Task.id task = task_id ->
  exists w' task' r_old r_new,
    update_task_status task_id new_status w = inr (tt, w') /\
    tasks w' !! i = Some task' /\
    get_tasks_by_status (Task.status task) w' = inr (r_old, w') /\
    get_tasks_by_status new_status w' = inr (r_new, w') /\
    task' ∈ r_new /\
    (Task.status task <> new_status -> task' ∉ r_old).

(** Two tasks with the id 2, as two additions, the deletion of task 1, a
    third addition and a move leave them. *)
Definition two_tasks_with_id_2 : list Task.t :=
  [Task.mk 2 "b" "Doing" "2024-01-02"; Task.mk 2 "c" "To do" "2024-01-03"].

(** The store calls that a board event makes. *)
Definition calls_of_event (e : KanbanApp.event) : list call :=
  match e with
  | KanbanApp.Confirm entry_text dt =>
      match KanbanApp.strip entry_text with
      | EmptyString => []
      | String c r => [AddTask (String c r) "To do" dt]
      end
  | KanbanApp.Move task_id target =>
      [UpdateTaskStatus task_id (KanbanApp.column_name target)]
  | KanbanApp.Delete task_id answer =>
      if answer then [DeleteTask task_id] else []
  end.

(** Every task carries one of the three status names. *)
Definition statuses_ok (l : list Task.t) : Prop :=
  Forall (fun task => Task.status task ∈ statuses) l.

(** The file is absent and the collection empty, or the file holds the
    collection. *)
Definition file_in_sync (w : World) : Prop :=
  (data_file w = None /\ tasks w = []) \/
  data_file w = Some (Json.dump (tasks_to_value (tasks w))).

(** The ids that [n] additions give when nothing is deleted: 1 to [n]. *)
Definition first_ids (n : nat) : list Z := (fun k => Z.of_nat k + 1) <$> seq 0%nat n.

Definition is_delete (c : call) : Prop :=
  match c with
  | DeleteTask _ => True
  | _ => False
  end.

(** What [save_tasks] leaves in the file when the collection is [l]. *)
Definition saved (l : list Task.t) : option string :=
  Some (Json.dump (tasks_to_value l)).

(** The number of [add_task] calls in a sequence. *)
Fixpoint additions (cs : list call) : nat :=
  match cs with
  | [] => O
  | AddTask _ _ _ :: r => S (additions r)
  | _ :: r => additions r
  end.

(** The calls that add one task for each pair of a title and a date, all
    with the same status. *)
Definition additions_of (status : string) (items : list (string * string)) : list call :=
  (fun item => AddTask item.1 status item.2) <$> items.

(** The tasks that these calls make on a collection of [n] tasks. *)
Definition added (status : string) (n : nat) (items : list (string * string)) : list Task.t :=
  imap (fun i item => Task.mk (Z.of_nat (n + i) + 1) item.1 status item.2) items.

(** ** The board with its cards

    A second, finer model of [KanbanApp]: besides the store it keeps what
    the three column frames hold, a card for each task with its two labels
    and its buttons, each button with the arguments that its [command] was
    built with. Colours, fonts and layout are left out. *)

Module KanbanView.

(** A button of a card and the call that its [command] makes:
    [self.move_task(tid, new_status)] or [self.delete_task(tid)], with
    [tid] bound to [task["id"]] when the card was built. *)
Inductive button : Type :=
| MoveButton (text : string) (tid : Z) (new_status : string)
| DeleteButton (tid : Z).

Record card : Type := mkCard {
  title_label : string;
  date_label : string;
  buttons : list button
}.

(** The three [cards_container] frames that [create_status_column] returns. *)
Inductive frame : Type := todo_frame | doing_frame | done_frame.

Record App : Type := mkApp {
  manager : World;
  todo_cards : list card;
  doing_cards : list card;
  done_cards : list card
}.

(** [frame.winfo_children()] *)
Definition winfo_children (f : frame) (app : App) : list card :=
  match f with
  | todo_frame => todo_cards app
  | doing_frame => doing_cards app
  | done_frame => done_cards app
  end.

Definition set_children (f : frame) (cs : list card) (app : App) : App :=
  match f with
  | todo_frame => mkApp (manager app) cs (doing_cards app) (done_cards app)
  | doing_frame => mkApp (manager app) (todo_cards app) cs (done_cards app)
  | done_frame => mkApp (manager app) (todo_cards app) (doing_cards app) cs
  end.

(** A callback: it runs on the application and returns, or raises. *)
Definition U (A : Type) : Type := App -> exn + (A * App).

Definition ret_ui {A : Type} (a : A) : U A := fun app => inr (a, app).

Definition bind_ui {A B : Type} (m : U A) (k : A -> U B) : U B :=
  fun app => match m app with
             | inr (a, app') => k a app'
             | inl e => inl e
             end.

Declare Scope ui_scope.
Notation "x <~ m ; k" := (bind_ui m (fun x => k))
  (at level 100, m at next level, right associativity) : ui_scope.
Notation "m ;; k" := (bind_ui m (fun _ => k))
  (at level 100, right associativity) : ui_scope.
Local Open Scope ui_scope.

(** A call of a method of [self.manager]. *)
Definition call_manager {A : Type} (m : M A) : U A :=
  fun app => match m (manager app) with
             | inr (a, w) =>
                 inr (a, mkApp w (todo_cards app) (doing_cards app) (done_cards app))
             | inl e => inl e
             end.

(** [for widget in frame.winfo_children(): widget.destroy()] *)
Definition destroy_children (f : frame) : U unit :=
  fun app => inr (tt, set_children f [] app).

(** [card_frame.pack(...)] on a card built inside [parent_frame]: the card
    comes after the ones already there. *)
Definition pack (parent_frame : frame) (c : card) : U unit :=
  fun app => inr (tt, set_children parent_frame (winfo_children parent_frame app ++ [c]) app).

(** The card that the body of the loop of [create_cards_for_status] builds
    for one task: the title, the date after "Date: ", a move button for
    each column other than [status], and the delete button. *)
Definition card_of (status : string) (task : Task.t) : card :=
  mkCard (Task.title task) ("Date: " +:+ Task.date task)
    ((if decide (status <> "To do")
      then [MoveButton "To do" (Task.id task) "To do"] else []) ++
     (if decide (status <> "Doing")
      then [MoveButton "Doing" (Task.id task) "Doing"] else []) ++
     (if decide (status <> "Done")
      then [MoveButton "Done" (Task.id task) "Done"] else []) ++
     [DeleteButton (Task.id task)]).

Fixpoint create_cards (status : string) (parent_frame : frame) (tasks : list Task.t) : U unit :=
  match tasks with
  | [] => ret_ui tt
  | task :: rest =>
      pack parent_frame (card_of status task) ;;
      create_cards status parent_frame rest
  end.

Definition create_cards_for_status (status : string) (parent_frame : frame) : U unit :=
  tasks <~ call_manager (get_tasks_by_status status) ;
  create_cards status parent_frame tasks.

Definition refresh_board : U unit :=
  destroy_children todo_frame ;;
  destroy_children doing_frame ;;
  destroy_children done_frame ;;
  create_cards_for_status "To do" todo_frame ;;
  create_cards_for_status "Doing" doing_frame ;;
  create_cards_for_status "Done" done_frame.

(** [confirm] inside [add_task_dialog]. *)
Definition confirm (entry_text dt : string) : U unit :=
  let title := KanbanApp.strip entry_text in
  match title with
  | EmptyString => ret_ui tt
  | String _ _ =>
      call_manager (add_task title "To do" dt) ;;
      refresh_board
  end.

Definition move_task (task_id : Z) (new_status : string) : U unit :=
  call_manager (update_task_status task_id new_status) ;;
  refresh_board.

Definition delete_task (task_id : Z) (answer : bool) : U unit :=
  if answer
  then (call_manager (TaskManager.delete_task task_id) ;; refresh_board)
  else ret_ui tt.

(** The [command] of a button; [answer] is what [askyesno] returns when
    the command asks. *)
Definition command (b : button) (answer : bool) : U unit :=
  match b with
  | MoveButton _ tid new_status => move_task tid new_status
  | DeleteButton tid => delete_task tid answer
  end.

(** What the user can do in the main loop: fill in and confirm the dialog,
    or press a button that is on the board, given by its frame, the place
    of its card in the frame and its place on the card. *)
Inductive event : Type :=
| Confirm (entry_text dt : string)
| Press (f : frame) (i j : nat) (answer : bool).

Definition handle (e : event) : U unit :=
  match e with
  | Confirm entry_text dt => confirm entry_text dt
  | Press f i j answer =>
      fun app =>
        match winfo_children f app !! i with
        | Some c =>
            match buttons c !! j with
            | Some b => command b answer app
            | None => inr (tt, app)
            end
        | None => inr (tt, app)
        end
  end.

Fixpoint mainloop (es : list event) : U unit :=
  match es with
  | [] => ret_ui tt
  | e :: r => handle e ;; mainloop r
  end.

(** What [create_status_column] returns: a frame without children. *)
Definition create_status_column (f : frame) : U unit :=
  fun app => inr (tt, set_children f [] app).

(** [KanbanApp.__init__]: the three frames start empty and are then
    filled. *)
Definition new : U unit :=
  create_status_column todo_frame ;;
  create_status_column doing_frame ;;
  create_status_column done_frame ;;
  refresh_board.

(** [main], with the events that the user makes until the window is
    closed. *)
Definition main (es : list event) : U unit :=
  call_manager init ;;
  new ;;
  mainloop es.

(** The program as it starts on a machine where the file holds [file]. *)
Definition start (file : option string) : App := mkApp (mkWorld [] file) [] [] [].

(** One run of the program after the other, each finding the file as the
    last one left it; the result is the file at the end. *)
Fixpoint runs (sessions : list (list event)) (file : option string) : exn + option string :=
  match sessions with
  | [] => inr file
  | es :: rest =>
      match main es (start file) with
      | inr (_, app) => runs rest (data_file (manager app))
      | inl e => inl e
      end
  end.

(** The status of the column that a frame shows. *)
Definition frame_status (f : frame) : string :=
  match f with
  | todo_frame => "To do"
  | doing_frame => "Doing"
  | done_frame => "Done"
  end.

(** The board shows the store: each frame holds the cards of the tasks
    with its status, in the order of the collection. *)
Definition shows_store (app : App) : Prop :=
  forall f, winfo_children f app =
            card_of (frame_status f) <$>
              filter (fun task => Task.status task = frame_status f) (tasks (manager app)).

(** The cards that [refresh_board] puts on the board for a store. *)
Definition cards_for (status : string) (w : World) : list card :=
  card_of status <$> filter (fun task => Task.status task = status) (tasks w).

Definition board_of (w : World) : App :=
  mkApp w (cards_for "To do" w) (cards_for "Doing" w) (cards_for "Done" w).

(** The store call that an event leads to, if any. *)
Definition call_of (e : event) (app : App) : option call :=
  match e with
  | Confirm entry_text dt =>
      match KanbanApp.strip entry_text with
      | EmptyString => None
      | String c r => Some (AddTask (String c r) "To do" dt)
      end
  | Press f i j answer =>
      match winfo_children f app !! i with
      | Some c =>
          match buttons c !! j with
          | Some (MoveButton _ tid new_status) => Some (UpdateTaskStatus tid new_status)
          | Some (DeleteButton tid) => if answer then Some (DeleteTask tid) else None
          | None => None
          end
      | None => None
      end
  end.

(** The frame of a column. *)
Definition frame_of (c : KanbanApp.column) : frame :=
  match c with
  | KanbanApp.ToDo => todo_frame
  | KanbanApp.Doing => doing_frame
  | KanbanApp.Done => done_frame
  end.

(** The number of cards on the board. *)
Definition card_count (app : App) : nat :=
  (length (todo_cards app) + length (doing_cards app) + length (done_cards app))%nat.

End KanbanView.

(** A title as the dialog lets it through: not empty and with no white
    space at either end. *)
Definition title_ok (title : string) : Prop :=
  title <> EmptyString /\ KanbanApp.strip title = title.

(** Text that does not begin with white space. *)
Definition starts_clean (s : string) : Prop :=
  match s with
  | EmptyString => True
  | String c _ => KanbanApp.is_space c = false
  end.

(** What the program keeps true of its store: every status is one of the
    three names, every title is as the dialog lets it through, and the
    file follows the collection. *)
Definition store_ok (w : World) : Prop :=
  statuses_ok (tasks w) /\
  Forall (fun task => title_ok (Task.title task)) (tasks w) /\
  file_in_sync w.

(** A file that an earlier run of the program can have left: none, or the
    one of a store that is in order. *)
Definition file_ok (file : option string) : Prop :=
  exists w, data_file w = file /\ store_ok w.

(** A store with two tasks, for the examples. *)
Definition two_tasks : list Task.t :=
  [Task.mk 1 "a" "To do" "2024-01-01"; Task.mk 2 "b" "Doing" "2024-01-02"].

(** ** Notions for text that is cut short *)

(** The character after which the number pattern cannot go on: not a
    digit, a dot or an exponent letter. *)
Definition stops_number (c : ascii) : bool :=
  negb (Json.is_digit c || Ascii.eqb c "." || Ascii.eqb c "e" || Ascii.eqb c "E").

(** Text left over that begins with such a character. *)
Definition safe_rest (r : string) : Prop :=
  match r with
  | String c _ => stops_number c = true
  | EmptyString => False
  end.

(** The last part of [_scan_once], for a value that is neither a string
    nor a list nor a dictionary. *)
Definition scan_atom (s : string) : Json.result (Json.value * string) :=
  match Json.after "null" s, Json.after "true" s, Json.after "false" s with
  | Some rest, _, _ => Json.Ok (Json.JNull, rest)
  | _, Some rest, _ => Json.Ok (Json.JBool true, rest)
  | _, _, Some rest => Json.Ok (Json.JBool false, rest)
  | None, None, None =>
      match Json.number s with
      | Some r => r
      | None =>
          match Json.after "NaN" s, Json.after "Infinity" s, Json.after "-Infinity" s with
          | None, None, None => Json.JSONDecodeError
          | _, _, _ => Json.Unsupported
          end
      end
  end.

(** Text that begins a string, a list or a dictionary. *)
Definition starts_container (s : string) : bool :=
  match s with
  | String c _ => Ascii.eqb c quote || Ascii.eqb c "{" || Ascii.eqb c "["
  | EmptyString => false
  end.

(** ** The store with every [str] and the digit limit of [int]

    A second model of [TaskManager] and of the [json] calls it makes, for
    what the first one leaves out of a save and a load:
    - a [str] is the list of its code points, each below [0x110000], the
      surrogates from [0xd800] to [0xdfff] included; the encoder writes a
      code point from [0x10000] on as two [\uXXXX] escapes, and the decoder
      makes one code point of a high surrogate escape that a low one
      follows;
    - [int.__repr__] and [int(text)] raise [ValueError] past
      [sys.get_int_max_str_digits()] digits, which CPython has from 3.11
      on and sets to 4300 unless told otherwise;
    - [json.dump] writes chunk by chunk, so a [ValueError] leaves in the
      file what was written before it, and an exception leaves a world
      behind.
    The text of the file stays a [string]: [json.dump] writes ASCII only.
    What is the same in both models is taken from [Json]. *)

Module Unicode.

#[local] Set Warnings "-register-all".

(** A [str]: its code points in order. *)
Definition str : Type := list N.

Definition is_code_point (c : N) : Prop := (c < 0x110000)%N.

Definition is_str (s : str) : Prop := Forall is_code_point s.

(** A literal of the program. *)
Definition literal (s : string) : str := ord <$> list_ascii_of_string s.

Definition is_high (c : N) : bool := ((0xd800 <=? c) && (c <=? 0xdbff))%N.

Definition is_low (c : N) : bool := ((0xdc00 <=? c) && (c <=? 0xdfff))%N.

Inductive value : Type :=
| JNull
| JBool (b : bool)
| JInt (z : Z)
| JStr (s : str)
| JArr (l : list value)
| JObj (d : list (str * value)).

(** *** Encoding *)

(** [replace] inside [py_encode_basestring_ascii]: below 256 as in the
    first model, then one [\uXXXX] escape below [0x10000] and a surrogate
    pair from there on. *)
Definition escape_code (n : N) : string :=
  if (n <? 256)%N then Json.escape_char (ascii_of_N n)
  else if (n <? 0x10000)%N then Json.uescape n
  else
    let n := (n - 0x10000)%N in
    let s1 := N.lor 0xd800 (N.land (N.shiftr n 10) 0x3ff) in
    let s2 := N.lor 0xdc00 (N.land n 0x3ff) in
    Json.uescape s1 +:+ Json.uescape s2.

Fixpoint escape (s : str) : string :=
  match s with
  | [] => ""
  | c :: r => escape_code c +:+ escape r
  end.

Definition encode_basestring_ascii (s : str) : string :=
  String quote (escape s +:+ String quote "").

(** What [json.dump] has written when it ends: the whole text, or the
    chunks that came before the [ValueError]. *)
Inductive written : Type :=
| Complete (text : string)
| Cut (text : string).

(** Ten to the power [sys.get_int_max_str_digits()]. *)
Definition int_limit : Z := Eval vm_compute in 10 ^ 4300.

(** The decimal digits of [z] are no more than the limit allows. *)
Definition fits (z : Z) : bool := Z.abs z <? int_limit.

(** [int.__repr__] *)
Definition int_str (z : Z) : written :=
  if fits z then Complete (Json.int_repr z) else Cut "".

(** The chunks of [a], then those of [b]. *)
Definition and_chunks (a b : written) : written :=
  match a with
  | Complete s =>
      match b with
      | Complete t => Complete (s +:+ t)
      | Cut t => Cut (s +:+ t)
      end
  | Cut s => Cut s
  end.

(** One item of a list, [x] being what its own encoding gives: a list or
    a dictionary comes after the chunk [buf], anything else is one chunk
    [buf + ...] with it, of which nothing is written when it raises. *)
Definition list_item (buf : string) (v : value) (x : written) : written :=
  match v with
  | JArr _ | JObj _ => and_chunks (Complete buf) x
  | _ =>
      match x with
      | Complete t => Complete (buf +:+ t)
      | Cut _ => Cut ""
      end
  end.

(** [_iterencode] with [indent=4] *)
Fixpoint iterencode (level : nat) (o : value) {struct o} : written :=
  match o with
  | JNull => Complete "null"
  | JBool true => Complete "true"
  | JBool false => Complete "false"
  | JInt z => int_str z
  | JStr s => Complete (encode_basestring_ascii s)
  | JArr [] => Complete "[]"
  | JArr (x :: xs) =>
      and_chunks
        (list_item ("[" +:+ Json.newline_indent (S level)) x (iterencode (S level) x))
        (and_chunks
           ((fix rest (l : list value) : written :=
               match l with
               | [] => Complete ""
               | y :: l' =>
                   and_chunks
                     (list_item ("," +:+ Json.newline_indent (S level)) y
                        (iterencode (S level) y))
                     (rest l')
               end) xs)
           (Complete (Json.newline_indent level +:+ "]")))
  | JObj [] => Complete "{}"
  | JObj ((k, v) :: kvs) =>
      and_chunks
        (Complete ("{" +:+ Json.newline_indent (S level) +:+
                   encode_basestring_ascii k +:+ ": "))
        (and_chunks (iterencode (S level) v)
           (and_chunks
              ((fix rest (l : list (str * value)) : written :=
                  match l with
                  | [] => Complete ""
                  | (k', v') :: l' =>
                      and_chunks
                        (Complete ("," +:+ Json.newline_indent (S level) +:+
                                   encode_basestring_ascii k' +:+ ": "))
                        (and_chunks (iterencode (S level) v') (rest l'))
                  end) kvs)
              (Complete (Json.newline_indent level +:+ "}"))))
  end.

Definition dump (o : value) : written := iterencode 0 o.

(** *** Decoding *)

Inductive result (A : Type) : Type :=
| Ok (a : A)
| JSONDecodeError
| ValueError          (* int(text) past the digit limit *)
| Unsupported
| TooDeep.
Arguments Ok {A} a.
Arguments JSONDecodeError {A}.
Arguments ValueError {A}.
Arguments Unsupported {A}.
Arguments TooDeep {A}.

Definition bind {A B : Type} (r : result A) (k : A -> result B) : result B :=
  match r with
  | Ok a => k a
  | JSONDecodeError => JSONDecodeError
  | ValueError => ValueError
  | Unsupported => Unsupported
  | TooDeep => TooDeep
  end.

Notation "'let*' p ':=' r 'in' k" := (bind r (fun p => k))
  (at level 10, p pattern, r at level 100, k at level 200).

(** The four hexadecimal digits of a [\uXXXX] escape. *)
Definition hex4 (h1 h2 h3 h4 : ascii) : option N :=
  match Json.hexval h1, Json.hexval h2, Json.hexval h3, Json.hexval h4 with
  | Some a, Some b, Some c, Some d => Some (a * 4096 + b * 256 + c * 16 + d)%N
  | _, _, _, _ => None
  end.

(** [0x10000 + (((uni - 0xd800) << 10) | (uni2 - 0xdc00))] *)
Definition join_pair (uni uni2 : N) : N :=
  (0x10000 + N.lor (N.shiftl (uni - 0xd800) 10) (uni2 - 0xdc00))%N.

Definition cons_code (c : N) (r : result (str * string)) : result (str * string) :=
  let* (s, rest) := r in Ok (c :: s, rest).

(** [scanstring(s, end, strict=True)] on the text after the opening
    quote. A character of the text stands for the code point of its
    number. After the escape of a high surrogate the decoder looks for a
    second escape: a low surrogate there is joined with the first, and
    anything else is left for the next round. *)
Fixpoint scanstring (s : string) : result (str * string) :=
  match s with
  | EmptyString => JSONDecodeError
  | String c r =>
      if Ascii.eqb c quote then Ok ([], r)
      else if Ascii.eqb c backslash then
        match r with
        | EmptyString => JSONDecodeError
        | String e r1 =>
            if Ascii.eqb e "u" then
              match r1 with
              | String h1 (String h2 (String h3 (String h4 r2))) =>
                  match hex4 h1 h2 h3 h4 with
                  | Some uni =>
                      if is_high uni then
                        match r2 with
                        | String b r3 =>
                            if Ascii.eqb b backslash then
                              match r3 with
                              | String u r4 =>
                                  if Ascii.eqb u "u" then
                                    match r4 with
                                    | String k1 (String k2 (String k3 (String k4 r5))) =>
                                        match hex4 k1 k2 k3 k4 with
                                        | Some uni2 =>
                                            if is_low uni2
                                            then cons_code (join_pair uni uni2) (scanstring r5)
                                            else cons_code uni (scanstring r2)
                                        | None => JSONDecodeError
                                        end
                                    | _ => JSONDecodeError
                                    end
                                  else cons_code uni (scanstring r2)
                              | EmptyString => cons_code uni (scanstring r2)
                              end
                            else cons_code uni (scanstring r2)
                        | EmptyString => cons_code uni (scanstring r2)
                        end
                      else cons_code uni (scanstring r2)
                  | None => JSONDecodeError
                  end
              | _ => JSONDecodeError
              end
            else
              match Json.unescape e with
              | Some c' => cons_code (ord c') (scanstring r1)
              | None => JSONDecodeError
              end
        end
      else if (ord c <? 32)%N then JSONDecodeError
      else cons_code (ord c) (scanstring r)
  end.

(** [NUMBER_RE.match] and the conversion that follows it: [int(integer)]
    raises past the digit limit. *)
Definition number (s : string) : option (result (value * string)) :=
  match Json.integer s with
  | Some (i, rest) =>
      if Json.has_frac rest || Json.has_exp rest then Some Unsupported
      else if fits (Z.of_int i) then Some (Ok (JInt (Z.of_int i), rest))
      else Some ValueError
  | None => None
  end.

Fixpoint dict_set (k : str) (v : value) (d : list (str * value)) : list (str * value) :=
  match d with
  | [] => [(k, v)]
  | (k', v') :: r => if decide (k = k') then (k, v) :: r else (k', v') :: dict_set k v r
  end.

Definition dict (pairs : list (str * value)) : list (str * value) :=
  fold_left (fun d kv => dict_set (fst kv) (snd kv) d) pairs [].

(** [_scan_once], [JSONArray] and [JSONObject], as in the first model. *)
Fixpoint scan_once (fuel : nat) (s : string) {struct fuel} : result (value * string) :=
  match fuel with
  | O => TooDeep
  | S fuel =>
      match s with
      | EmptyString => JSONDecodeError
      | String c r =>
          if Ascii.eqb c quote then
            let* (text, rest) := scanstring r in Ok (JStr text, rest)
          else if Ascii.eqb c "{" then
            match Json.skip_ws r with
            | String c' r' =>
                if Ascii.eqb c' "}" then Ok (JObj [], r')
                else let* (pairs, rest) := members fuel (String c' r') in
                     Ok (JObj (dict pairs), rest)
            | EmptyString => JSONDecodeError
            end
          else if Ascii.eqb c "[" then
            match Json.skip_ws r with
            | String c' r' =>
                if Ascii.eqb c' "]" then Ok (JArr [], r')
                else let* (vs, rest) := items fuel (String c' r') in Ok (JArr vs, rest)
            | EmptyString => JSONDecodeError
            end
          else
            match Json.after "null" s, Json.after "true" s, Json.after "false" s with
            | Some rest, _, _ => Ok (JNull, rest)
            | _, Some rest, _ => Ok (JBool true, rest)
            | _, _, Some rest => Ok (JBool false, rest)
            | None, None, None =>
                match number s with
                | Some r => r
                | None =>
                    match Json.after "NaN" s, Json.after "Infinity" s,
                          Json.after "-Infinity" s with
                    | None, None, None => JSONDecodeError
                    | _, _, _ => Unsupported
                    end
                end
            end
      end
  end
with items (fuel : nat) (s : string) {struct fuel} : result (list value * string) :=
  match fuel with
  | O => TooDeep
  | S fuel =>
      let* (v, rest) := scan_once fuel s in
      match Json.skip_ws rest with
      | String c r =>
          if Ascii.eqb c "]" then Ok ([v], r)
          else if Ascii.eqb c "," then
            let* (vs, rest') := items fuel (Json.skip_ws r) in Ok (v :: vs, rest')
          else JSONDecodeError
      | EmptyString => JSONDecodeError
      end
  end
with members (fuel : nat) (s : string) {struct fuel} : result (list (str * value) * string) :=
  match fuel with
  | O => TooDeep
  | S fuel =>
      match s with
      | String q r =>
          if Ascii.eqb q quote then
            let* (key, rest) := scanstring r in
            match Json.skip_ws rest with
            | String c r1 =>
                if Ascii.eqb c ":" then
                  let* (v, rest1) := scan_once fuel (Json.skip_ws r1) in
                  match Json.skip_ws rest1 with
                  | String c' r2 =>
                      if Ascii.eqb c' "}" then Ok ([(key, v)], r2)
                      else if Ascii.eqb c' "," then
                        let* (kvs, rest2) := members fuel (Json.skip_ws r2) in
                        Ok ((key, v) :: kvs, rest2)
                      else JSONDecodeError
                  | EmptyString => JSONDecodeError
                  end
                else JSONDecodeError
            | EmptyString => JSONDecodeError
            end
          else JSONDecodeError
      | EmptyString => JSONDecodeError
      end
  end.

Definition loads (s : string) : result value :=
  let* (v, rest) := scan_once (2 * String.length s + 2) (Json.skip_ws s) in
  match Json.skip_ws rest with
  | EmptyString => Ok v
  | String _ _ => JSONDecodeError
  end.

(** *** Tasks and the store *)

Module Task.

Record t : Type := mk { id : Z; title : str; status : str; date : str }.

Definition set_status (new_status : str) (task : t) : t :=
  {| id := id task; title := title task; status := new_status; date := date task |}.

Definition to_value (task : t) : value :=
  JObj [(literal "id", JInt (id task)); (literal "title", JStr (title task));
        (literal "status", JStr (status task)); (literal "date", JStr (date task))].

Definition of_value (v : value) : option t :=
  match v with
  | JObj [(k1, JInt i); (k2, JStr ti); (k3, JStr st); (k4, JStr da)] =>
      if decide (k1 = literal "id" /\ k2 = literal "title" /\
                 k3 = literal "status" /\ k4 = literal "date")
      then Some (mk i ti st da)
      else None
  | _ => None
  end.

End Task.

Definition tasks_to_value (l : list Task.t) : value :=
  JArr (map Task.to_value l).

Fixpoint values_to_tasks (l : list value) : option (list Task.t) :=
  match l with
  | [] => Some []
  | v :: r =>
      match Task.of_value v, values_to_tasks r with
      | Some task, Some tasks => Some (task :: tasks)
      | _, _ => None
      end
  end.

Definition tasks_of_value (v : value) : option (list Task.t) :=
  match v with
  | JArr l => values_to_tasks l
  | _ => None
  end.

Record World : Type := mkWorld {
  tasks : list Task.t;          (* self.tasks *)
  data_file : option string     (* the text of tasks.json, None when absent *)
}.

Inductive exn : Type :=
| DecodeError        (* JSONDecodeError *)
| DigitsError        (* ValueError: the limit for integer string conversion *)
| OutsideModel.

(** How a call ends. *)
Inductive outcome (A : Type) : Type :=
| Returns (a : A)
| Raises (e : exn).
Arguments Returns {A} a.
Arguments Raises {A} e.

(** A method call: how it ends and the world it leaves, also when it
    raises. *)
Definition M (A : Type) : Type := World -> outcome A * World.

Definition ret {A : Type} (a : A) : M A := fun w => (Returns a, w).

Definition raise {A : Type} (e : exn) : M A := fun w => (Raises e, w).

Definition and_then {A B : Type} (m : M A) (k : A -> M B) : M B :=
  fun w => match m w with
           | (Returns a, w') => k a w'
           | (Raises e, w') => (Raises e, w')
           end.

Declare Scope store_scope.
Notation "x <~ m ; k" := (and_then m (fun x => k))
  (at level 100, m at next level, right associativity) : store_scope.
Notation "m ;; k" := (and_then m (fun _ => k))
  (at level 100, right associativity) : store_scope.
Local Open Scope store_scope.

Definition get_tasks : M (list Task.t) := fun w => (Returns (tasks w), w).

Definition set_tasks (l : list Task.t) : M unit :=
  fun w => (Returns tt, mkWorld l (data_file w)).

(** What the file holds when the [with] block of [save_tasks] is left. *)
Definition write_data_file (text : string) : M unit :=
  fun w => (Returns tt, mkWorld (tasks w) (Some text)).

Definition read_data_file : M (option string) := fun w => (Returns (data_file w), w).

Module TaskManager.

Definition load_tasks : M unit :=
  f <~ read_data_file ;
  match f with
  | Some text =>
      match loads text with
      | Ok v =>
          match tasks_of_value v with
          | Some l => set_tasks l
          | None => raise OutsideModel
          end
      | JSONDecodeError => raise DecodeError
      | ValueError => raise DigitsError
      | Unsupported | TooDeep => raise OutsideModel
      end
  | None => set_tasks []
  end.

Definition save_tasks : M unit :=
  l <~ get_tasks ;
  match dump (tasks_to_value l) with
  | Complete text => write_data_file text
  | Cut text => write_data_file text ;; raise DigitsError
  end.

(** [TaskManager.__init__] *)
Definition init : M unit :=
  set_tasks [] ;; load_tasks.

Definition add_task (title status date_str : str) : M unit :=
  l <~ get_tasks ;
  let new_task := Task.mk (Z.of_nat (length l) + 1) title status date_str in
  set_tasks (l ++ [new_task]) ;;
  save_tasks.

Fixpoint set_first_status (task_id : Z) (new_status : str) (l : list Task.t) : list Task.t :=
  match l with
  | [] => []
  | task :: rest =>
      if decide (Task.id task = task_id)
      then Task.set_status new_status task :: rest
      else task :: set_first_status task_id new_status rest
  end.

Definition update_task_status (task_id : Z) (new_status : str) : M unit :=
  l <~ get_tasks ;
  set_tasks (set_first_status task_id new_status l) ;;
  save_tasks.

Definition delete_task (task_id : Z) : M unit :=
  l <~ get_tasks ;
  set_tasks (filter (fun task => Task.id task <> task_id) l) ;;
  save_tasks.

End TaskManager.

Inductive call : Type :=
| AddTask (title status date_str : str)
| UpdateTaskStatus (task_id : Z) (new_status : str)
| DeleteTask (task_id : Z).

Definition run_call (c : call) : M unit :=
  match c with
  | AddTask title status date_str => TaskManager.add_task title status date_str
  | UpdateTaskStatus task_id new_status => TaskManager.update_task_status task_id new_status
  | DeleteTask task_id => TaskManager.delete_task task_id
  end.

Fixpoint run_calls (cs : list call) : M unit :=
  match cs with
  | [] => ret tt
  | c :: r => run_call c ;; run_calls r
  end.

Definition fresh_world : World := mkWorld [] None.

(** *** Notions used in the statements *)

(** A high surrogate with a low one right after it. *)
Fixpoint has_pair (s : str) : bool :=
  match s with
  | c :: r =>
      match r with
      | c2 :: _ => is_high c && is_low c2
      | [] => false
      end || has_pair r
  | [] => false
  end.

(** The string with each such pair replaced by the code point that the
    two stand for in UTF-16. *)
Fixpoint join (s : str) : str :=
  match s with
  | c :: r =>
      match r with
      | c2 :: r' =>
          if is_high c && is_low c2 then join_pair c c2 :: join r' else c :: join r
      | [] => [c]
      end
  | [] => []
  end.

(** A task dictionary that [json.dump] writes in full: its strings are
    [str] and its id is within the digit limit. *)
Definition storable (task : Task.t) : Prop :=
  fits (Task.id task) = true /\
  is_str (Task.title task) /\ is_str (Task.status task) /\ is_str (Task.date task).

(** None of its strings has a high surrogate with a low one after it. *)
Definition pair_free (task : Task.t) : Prop :=
  has_pair (Task.title task) = false /\
  has_pair (Task.status task) = false /\
  has_pair (Task.date task) = false.

(** The task with the pairs of its strings joined. *)
Definition joined (task : Task.t) : Task.t :=
  Task.mk (Task.id task) (join (Task.title task)) (join (Task.status task))
          (join (Task.date task)).

(** The text of a task dictionary at [level], and of a list of tasks. *)
Definition task_text (level : nat) (task : Task.t) : string :=
  "{" +:+ Json.newline_indent (S level) +:+
  encode_basestring_ascii (literal "id") +:+ ": " +:+ Json.int_repr (Task.id task) +:+
  "," +:+ Json.newline_indent (S level) +:+
  encode_basestring_ascii (literal "title") +:+ ": " +:+
  encode_basestring_ascii (Task.title task) +:+
  "," +:+ Json.newline_indent (S level) +:+
  encode_basestring_ascii (literal "status") +:+ ": " +:+
  encode_basestring_ascii (Task.status task) +:+
  "," +:+ Json.newline_indent (S level) +:+
  encode_basestring_ascii (literal "date") +:+ ": " +:+
  encode_basestring_ascii (Task.date task) +:+
  Json.newline_indent level +:+ "}".

Fixpoint more_tasks_text (l : list Task.t) : string :=
  match l with
  | [] => ""
  | task :: l' =>
      "," +:+ Json.newline_indent 1 +:+ task_text 1 task +:+ more_tasks_text l'
  end.

Definition tasks_text (l : list Task.t) : string :=
  match l with
  | [] => "[]"
  | task :: l' =>
      "[" +:+ Json.newline_indent 1 +:+ task_text 1 task +:+ more_tasks_text l' +:+
      Json.newline_indent 0 +:+ "]"
  end.

(** A string that a save and a load give back as it is. *)
Definition stable (s : str) : Prop := is_str s /\ has_pair s = false.

Definition call_ok (c : call) : Prop :=
  match c with
  | AddTask title status date_str => stable title /\ stable status /\ stable date_str
  | UpdateTaskStatus _ new_status => stable new_status
  | DeleteTask _ => True
  end.

(** The file is absent and the collection empty, or the file holds the
    text of the collection. *)
Definition file_in_sync (w : World) : Prop :=
  (data_file w = None /\ tasks w = []) \/
  data_file w = Some (tasks_text (tasks w)).

(** What [k] calls on the empty store can have left: at most [k] tasks,
    with ids from 1 to [k] and strings that a load gives back. *)
Definition within (k : Z) (w : World) : Prop :=
  Forall (fun task => 0 < Task.id task <= k /\ stable (Task.title task) /\
                      stable (Task.status task) /\ stable (Task.date task)) (tasks w) /\
  Z.of_nat (length (tasks w)) <= k /\
  file_in_sync w.

(** What [scanstring] goes on with after the escape of the high
    surrogate [uni], [r2] being the text that follows that escape. *)
Definition after_high (uni : N) (r2 : string) : result (str * string) :=
  match r2 with
  | String b r3 =>
      if Ascii.eqb b backslash then
        match r3 with
        | String u r4 =>
            if Ascii.eqb u "u" then
              match r4 with
              | String k1 (String k2 (String k3 (String k4 r5))) =>
                  match hex4 k1 k2 k3 k4 with
                  | Some uni2 =>
                      if is_low uni2
                      then cons_code (join_pair uni uni2) (scanstring r5)
                      else cons_code uni (scanstring r2)
                  | None => JSONDecodeError
                  end
              | _ => JSONDecodeError
              end
            else cons_code uni (scanstring r2)
        | EmptyString => cons_code uni (scanstring r2)
        end
      else cons_code uni (scanstring r2)
  | EmptyString => cons_code uni (scanstring r2)
  end.

End Unicode.

(** *** The first model inside the second

    A [string] of the first model is the [str] of the same code points,
    all of them below 256. *)

Definition full_task (task : Task.t) : Unicode.Task.t :=
  Unicode.Task.mk (Task.id task) (Unicode.literal (Task.title task))
                  (Unicode.literal (Task.status task)) (Unicode.literal (Task.date task)).

Definition full_world (w : World) : Unicode.World :=
  Unicode.mkWorld (full_task <$> tasks w) (data_file w).

Definition full_call (c : call) : Unicode.call :=
  match c with
  | AddTask title status date_str =>
      Unicode.AddTask (Unicode.literal title) (Unicode.literal status)
                      (Unicode.literal date_str)
  | UpdateTaskStatus task_id new_status =>
      Unicode.UpdateTaskStatus task_id (Unicode.literal new_status)
  | DeleteTask task_id => Unicode.DeleteTask task_id
  end.

(** * Properties *)

(** ** Decoding what the encoder wrote *)

Module JsonFacts.
Import Json.

Lemma append_cons (x : ascii) (a b : string) : String x a +:+ b = String x (a +:+ b).
Proof. reflexivity. Qed.

Lemma append_nil_l (b : string) : "" +:+ b = b.
Proof. reflexivity. Qed.

Lemma append_assoc (a b c : string) : (a +:+ b) +:+ c = a +:+ (b +:+ c).
Proof.
  induction a as [|x a IH]; [done |].
  by rewrite !append_cons, IH.
Qed.

Lemma append_length (a b : string) :
  String.length (a +:+ b) = (String.length a + String.length b)%nat.
Proof.
  induction a as [|x a IH]; [done |].
  rewrite append_cons. simpl. by rewrite IH.
Qed.

Lemma scanstring_escape_char c rest :
  scanstring (escape_char c +:+ rest) = cons_char c (scanstring rest).
Proof.
  destruct c as [[] [] [] [] [] [] [] []]; reflexivity.
Qed.

Lemma scanstring_escape s rest :
  scanstring (escape s +:+ String quote rest) = Ok (s, rest).
Proof.
  induction s as [|c s IH]; [done |].
  cbn [escape]. rewrite append_assoc, scanstring_escape_char, IH. done.
Qed.

(** *** Integers *)

Lemma digits_string_of_uint u rest :
  starts_with_digit rest = false ->
  digits (NilEmpty.string_of_uint u +:+ rest) = (u, rest).
Proof.
  intros Hrest. induction u; cbn [NilEmpty.string_of_uint];
    rewrite ?append_cons; cbn [digits]; try (rewrite IHu; reflexivity).
  rewrite append_nil_l. destruct rest as [|c r]; [done |].
  cbn in Hrest |- *. unfold is_digit in Hrest. by destruct (digit_of c).
Qed.

Lemma nzhead_leading u : nzhead u = Nil \/ leading_nonzero (nzhead u).
Proof. induction u; cbn; auto. Qed.

Lemma to_uint_leading p : leading_nonzero (Pos.to_uint p).
Proof.
  pose proof (DecimalPos.Unsigned.to_of (Pos.to_uint p)) as H.
  rewrite DecimalPos.Unsigned.of_to in H. cbn [N.to_uint] in H.
  pose proof (DecimalPos.Unsigned.to_uint_nonzero p) as Hnz.
  rewrite H. unfold unorm.
  destruct (nzhead_leading (Pos.to_uint p)) as [Hn | Hl].
  - exfalso. apply Hnz. rewrite H. unfold unorm. by rewrite Hn.
  - destruct (nzhead (Pos.to_uint p)); done.
Qed.

Lemma intpart_leading u rest :
  leading_nonzero u -> starts_with_digit rest = false ->
  intpart (NilEmpty.string_of_uint u +:+ rest) = Some (u, rest).
Proof.
  intros Hu Hrest.
  destruct u; try done; cbn [NilEmpty.string_of_uint]; rewrite append_cons;
    unfold intpart; cbn [Ascii.eqb Bool.eqb digit_of ord N_of_ascii N_of_digits];
    cbn; rewrite digits_string_of_uint by done; reflexivity.
Qed.

Lemma string_of_uint_leading u :
  leading_nonzero u -> NilZero.string_of_uint u = NilEmpty.string_of_uint u.
Proof. by destruct u. Qed.

Lemma integer_int_repr z rest :
  starts_with_digit rest = false ->
  integer (int_repr z +:+ rest) = Some (Z.to_int z, rest).
Proof.
  intros Hrest. unfold int_repr. destruct z as [|p|p]; cbn [Z.to_int NilZero.string_of_int].
  - reflexivity.
  - pose proof (to_uint_leading p) as Hl.
    rewrite string_of_uint_leading by done.
    pose proof (intpart_leading _ rest Hl Hrest) as Hi.
    destruct (Pos.to_uint p); try done; cbn [NilEmpty.string_of_uint] in *;
      rewrite append_cons in *; unfold integer;
      cbn [Ascii.eqb Bool.eqb]; by rewrite Hi.
  - pose proof (to_uint_leading p) as Hl.
    rewrite string_of_uint_leading by done.
    rewrite append_cons. unfold integer. cbn [Ascii.eqb Bool.eqb].
    by rewrite intpart_leading.
Qed.

Lemma number_int_repr z rest :
  ends_number rest ->
  number (int_repr z +:+ rest) = Some (Ok (JInt z, rest)).
Proof.
  intros (Hd & Hf & He). unfold number.
  rewrite integer_int_repr by done. rewrite Hf, He. cbn.
  by rewrite DecimalZ.of_to.
Qed.

Lemma string_of_uint_head u :
  leading_nonzero u ->
  exists c r, NilEmpty.string_of_uint u = String c r /\ is_digit c = true.
Proof. destruct u; try done; intros _; eexists _, _; split; reflexivity. Qed.

Lemma int_repr_head z :
  exists c r, int_repr z = String c r /\ (c = "-"%char \/ is_digit c = true).
Proof.
  unfold int_repr. destruct z as [|p|p]; cbn [Z.to_int NilZero.string_of_int].
  - eexists _, _. split; [reflexivity | by right].
  - rewrite string_of_uint_leading by apply to_uint_leading.
    destruct (string_of_uint_head _ (to_uint_leading p)) as (c & r & -> & Hc).
    eexists _, _. split; [reflexivity | by right].
  - eexists _, _. split; [reflexivity | by left].
Qed.

Lemma scan_once_number fuel c r res :
  (c = "-"%char \/ is_digit c = true) ->
  number (String c r) = Some res ->
  scan_once (S fuel) (String c r) = res.
Proof.
  intros Hc Hn.
  destruct c as [[] [] [] [] [] [] [] []];
    try (exfalso; destruct Hc as [Hc | Hc]; discriminate Hc);
    cbn [scan_once]; cbn [Ascii.eqb Bool.eqb quote after]; by rewrite Hn.
Qed.

Lemma scan_once_int fuel z rest :
  ends_number rest ->
  scan_once (S fuel) (int_repr z +:+ rest) = Ok (JInt z, rest).
Proof.
  intros Hrest.
  pose proof (number_int_repr z rest Hrest) as Hn.
  destruct (int_repr_head z) as (c & r & Hz & Hc).
  rewrite Hz in *. rewrite append_cons in *.
  by apply scan_once_number.
Qed.

(** *** Lists and dictionaries *)

Lemma skip_ws_spaces n s : skip_ws (spaces n +:+ s) = skip_ws s.
Proof. induction n as [|n IH]; [done |]. cbn [spaces]. by rewrite append_assoc. Qed.

Lemma skip_ws_newline_indent level s :
  skip_ws (newline_indent level +:+ s) = skip_ws s.
Proof. unfold newline_indent. rewrite append_cons. cbn. apply skip_ws_spaces. Qed.

Lemma encode_basestring_ascii_app s rest :
  encode_basestring_ascii s +:+ rest = String quote (escape s +:+ String quote rest).
Proof.
  unfold encode_basestring_ascii. by rewrite append_cons, append_assoc.
Qed.

Lemma scan_once_str fuel s rest :
  scan_once (S fuel) (encode_basestring_ascii s +:+ rest) = Ok (JStr s, rest).
Proof.
  rewrite encode_basestring_ascii_app. cbn [scan_once].
  cbn [Ascii.eqb Bool.eqb quote]. by rewrite scanstring_escape.
Qed.

Lemma iterencode_arr_cons level x xs :
  iterencode level (JArr (x :: xs)) =
  "[" +:+ newline_indent (S level) +:+ iterencode (S level) x +:+
  arr_rest (S level) xs +:+ newline_indent level +:+ "]".
Proof.
  cbn [iterencode]. do 4 f_equal.
  induction xs as [|y xs IH]; [done |]. cbn [arr_rest]. by rewrite <- IH.
Qed.

(** The text of a task dictionary. *)
Lemma iterencode_task level task :
  iterencode level (Task.to_value task) =
  "{" +:+ newline_indent (S level) +:+
  encode_basestring_ascii "id" +:+ ": " +:+ int_repr (Task.id task) +:+
  "," +:+ newline_indent (S level) +:+
  encode_basestring_ascii "title" +:+ ": " +:+ encode_basestring_ascii (Task.title task) +:+
  "," +:+ newline_indent (S level) +:+
  encode_basestring_ascii "status" +:+ ": " +:+ encode_basestring_ascii (Task.status task) +:+
  "," +:+ newline_indent (S level) +:+
  encode_basestring_ascii "date" +:+ ": " +:+ encode_basestring_ascii (Task.date task) +:+
  newline_indent level +:+ "}".
Proof.
  cbn [iterencode Task.to_value]. rewrite !append_assoc. reflexivity.
Qed.

Lemma skip_ws_int_repr z s : skip_ws (int_repr z +:+ s) = int_repr z +:+ s.
Proof.
  destruct (int_repr_head z) as (c & r & -> & Hc). rewrite append_cons.
  destruct c as [[] [] [] [] [] [] [] []];
    try (exfalso; destruct Hc as [Hc | Hc]; discriminate Hc); reflexivity.
Qed.

Lemma skip_ws_encode_basestring_ascii k s :
  skip_ws (encode_basestring_ascii k +:+ s) = encode_basestring_ascii k +:+ s.
Proof. reflexivity. Qed.

Lemma members_more fuel k vtext v level more kvs rest :
  skip_ws (vtext +:+ "," +:+ newline_indent level +:+ more) =
    vtext +:+ "," +:+ newline_indent level +:+ more ->
  scan_once fuel (vtext +:+ "," +:+ newline_indent level +:+ more) =
    Ok (v, "," +:+ newline_indent level +:+ more) ->
  members fuel (skip_ws more) = Ok (kvs, rest) ->
  members (S fuel)
    (encode_basestring_ascii k +:+ ": " +:+ vtext +:+ "," +:+ newline_indent level +:+ more) =
  Ok ((k, v) :: kvs, rest).
Proof.
  intros Hws Hv Hm. rewrite encode_basestring_ascii_app.
  cbn [members]. cbn [Ascii.eqb Bool.eqb quote]. rewrite scanstring_escape.
  cbn [bind]. rewrite !append_cons, !append_nil_l in *.
  cbn [skip_ws is_ws Ascii.eqb Bool.eqb orb chr_tab chr_nl chr_cr].
  rewrite Hws, Hv. cbn [bind].
  cbn [skip_ws is_ws Ascii.eqb Bool.eqb orb chr_tab chr_nl chr_cr].
  rewrite skip_ws_newline_indent, Hm. reflexivity.
Qed.

Lemma members_last fuel k vtext v level rest :
  skip_ws (vtext +:+ newline_indent level +:+ "}" +:+ rest) =
    vtext +:+ newline_indent level +:+ "}" +:+ rest ->
  scan_once fuel (vtext +:+ newline_indent level +:+ "}" +:+ rest) =
    Ok (v, newline_indent level +:+ "}" +:+ rest) ->
  members (S fuel)
    (encode_basestring_ascii k +:+ ": " +:+ vtext +:+ newline_indent level +:+ "}" +:+ rest) =
  Ok ([(k, v)], rest).
Proof.
  intros Hws Hv. rewrite encode_basestring_ascii_app.
  cbn [members]. cbn [Ascii.eqb Bool.eqb quote]. rewrite scanstring_escape.
  cbn [bind]. rewrite !append_cons, !append_nil_l in *.
  cbn [skip_ws is_ws Ascii.eqb Bool.eqb orb chr_tab chr_nl chr_cr].
  rewrite Hws, Hv. cbn [bind]. rewrite skip_ws_newline_indent.
  reflexivity.
Qed.

Lemma ends_number_comma s : ends_number ("," +:+ s).
Proof. done. Qed.

Lemma members_task fuel level task rest :
  members (S (S (S (S (S fuel)))))
    (encode_basestring_ascii "id" +:+ ": " +:+ int_repr (Task.id task) +:+
     "," +:+ newline_indent (S level) +:+
     encode_basestring_ascii "title" +:+ ": " +:+ encode_basestring_ascii (Task.title task) +:+
     "," +:+ newline_indent (S level) +:+
     encode_basestring_ascii "status" +:+ ": " +:+ encode_basestring_ascii (Task.status task) +:+
     "," +:+ newline_indent (S level) +:+
     encode_basestring_ascii "date" +:+ ": " +:+ encode_basestring_ascii (Task.date task) +:+
     newline_indent level +:+ "}" +:+ rest) =
  Ok ([("id", JInt (Task.id task)); ("title", JStr (Task.title task));
       ("status", JStr (Task.status task)); ("date", JStr (Task.date task))], rest).
Proof.
  apply members_more;
    [apply skip_ws_int_repr | apply scan_once_int, ends_number_comma |].
  rewrite skip_ws_encode_basestring_ascii.
  apply members_more;
    [apply skip_ws_encode_basestring_ascii | apply scan_once_str |].
  rewrite skip_ws_encode_basestring_ascii.
  apply members_more;
    [apply skip_ws_encode_basestring_ascii | apply scan_once_str |].
  rewrite skip_ws_encode_basestring_ascii.
  apply members_last;
    [apply skip_ws_encode_basestring_ascii | apply scan_once_str].
Qed.

Lemma scan_once_task fuel level task rest :
  scan_once (S (S (S (S (S (S fuel)))))) (iterencode level (Task.to_value task) +:+ rest) =
  Ok (Task.to_value task, rest).
Proof.
  rewrite iterencode_task, !append_assoc, append_cons, append_nil_l.
  cbn [scan_once]. cbn [Ascii.eqb Bool.eqb quote].
  rewrite skip_ws_newline_indent, skip_ws_encode_basestring_ascii.
  rewrite encode_basestring_ascii_app at 1.
  cbn [Ascii.eqb Bool.eqb quote]. rewrite <- encode_basestring_ascii_app.
  rewrite members_task. reflexivity.
Qed.

Lemma skip_ws_iterencode_task level task s :
  skip_ws (iterencode level (Task.to_value task) +:+ s) =
  iterencode level (Task.to_value task) +:+ s.
Proof. rewrite iterencode_task. reflexivity. Qed.

Lemma scan_once_task_ge fuel level task rest :
  (6 <= fuel)%nat ->
  scan_once fuel (iterencode level (Task.to_value task) +:+ rest) =
  Ok (Task.to_value task, rest).
Proof.
  intros Hfuel. do 6 (destruct fuel as [|fuel]; [lia |]). apply scan_once_task.
Qed.

Lemma items_S fuel s :
  items (S fuel) s =
  let* (v, rest) := scan_once fuel s in
  match skip_ws rest with
  | String c r =>
      if Ascii.eqb c "]" then Ok ([v], r)
      else if Ascii.eqb c "," then
        let* (vs, rest') := items fuel (skip_ws r) in Ok (v :: vs, rest')
      else JSONDecodeError
  | EmptyString => JSONDecodeError
  end.
Proof. reflexivity. Qed.

Lemma items_tasks l : forall task fuel rest,
  (length l + 7 <= fuel)%nat ->
  items fuel
    (iterencode 1 (Task.to_value task) +:+ arr_rest 1 (map Task.to_value l) +:+
     newline_indent 0 +:+ "]" +:+ rest) =
  Ok (map Task.to_value (task :: l), rest).
Proof.
  induction l as [|task' l IH]; intros task fuel rest Hfuel;
    cbn [length] in Hfuel; (destruct fuel as [|fuel]; [lia |]);
    rewrite items_S, scan_once_task_ge by lia; cbn [bind map arr_rest].
  - rewrite append_nil_l, skip_ws_newline_indent. reflexivity.
  - rewrite !append_assoc, !append_cons, !append_nil_l.
    cbn [skip_ws is_ws Ascii.eqb Bool.eqb orb chr_tab chr_nl chr_cr].
    rewrite skip_ws_newline_indent, skip_ws_iterencode_task.
    pose proof (IH task' fuel rest) as Hi.
    rewrite !append_cons, !append_nil_l in Hi.
    rewrite Hi by lia. reflexivity.
Qed.

Lemma arr_rest_length level l : (length l <= String.length (arr_rest level l))%nat.
Proof.
  induction l as [|x l IH]; [done |]. cbn [arr_rest length].
  rewrite append_cons, append_nil_l. cbn [String.length].
  rewrite !append_length. lia.
Qed.

Lemma scan_once_arr fuel r c r' :
  skip_ws r = String c r' -> Ascii.eqb c "]" = false ->
  scan_once (S fuel) (String "[" r) =
  let* (vs, rest) := items fuel (String c r') in Ok (JArr vs, rest).
Proof. intros Hr Hc. cbn [scan_once Ascii.eqb Bool.eqb quote]. by rewrite Hr, Hc. Qed.

Lemma iterencode_task_head level task s :
  exists r, iterencode level (Task.to_value task) +:+ s = String "{" r.
Proof. rewrite iterencode_task. eexists. reflexivity. Qed.

Lemma loads_dump_tasks l :
  loads (dump (tasks_to_value l)) = Ok (tasks_to_value l).
Proof.
  destruct l as [|task l]; [reflexivity |].
  unfold loads, dump, tasks_to_value. cbn [map].
  rewrite iterencode_arr_cons.
  set (text := "[" +:+ _).
  assert (length l + 8 <= 2 * String.length text + 2)%nat as Hfuel.
  { subst text. rewrite !append_length. pose proof (arr_rest_length 1 (map Task.to_value l)).
    rewrite length_map in *. cbn [String.length newline_indent]. lia. }
  destruct (2 * String.length text + 2)%nat as [|fuel]; [lia |].
  subst text. rewrite append_cons, append_nil_l.
  pose proof (items_tasks l task fuel "") as Hi.
  change ("]" +:+ "") with "]" in Hi.
  destruct (iterencode_task_head 1 task
              (arr_rest 1 (map Task.to_value l) +:+ newline_indent 0 +:+ "]"))
    as [r Hr].
  change (skip_ws (String "[" ?x)) with (String "[" x).
  erewrite scan_once_arr;
    [| rewrite skip_ws_newline_indent, skip_ws_iterencode_task; exact Hr | reflexivity].
  rewrite <- Hr, Hi by lia. reflexivity.
Qed.

Lemma of_value_to_value task : Task.of_value (Task.to_value task) = Some task.
Proof. by destruct task. Qed.

Lemma tasks_of_value_to_value l : tasks_of_value (tasks_to_value l) = Some l.
Proof.
  unfold tasks_of_value, tasks_to_value.
  induction l as [|task l IH]; [done |].
  cbn [map values_to_tasks]. by rewrite of_value_to_value, IH.
Qed.

(** *** The decoder uses up its input, and [loads] has fuel enough *)

Lemma skip_ws_length s : (String.length (skip_ws s) <= String.length s)%nat.
Proof.
  induction s as [|c s IH]; [done |]. cbn [skip_ws].
  destruct (is_ws c); cbn [String.length]; lia.
Qed.

Lemma cons_char_Ok c r str rest :
  cons_char c r = Ok (str, rest) ->
  exists str', r = Ok (str', rest) /\ str = String c str'.
Proof.
  unfold cons_char. destruct r as [[str' rest']| | |]; cbn; [| done..].
  intros [= <- <-]. by exists str'.
Qed.

Lemma scanstring_consumes n : forall s str rest,
  (String.length s <= n)%nat ->
  scanstring s = Ok (str, rest) -> (String.length rest < String.length s)%nat.
Proof.
  induction n as [|n IH]; intros s str rest Hn Hs.
  - destruct s; [done | cbn in Hn; lia].
  - destruct s as [|c r]; [done |]. cbn [scanstring] in Hs. cbn [String.length] in *.
    destruct (Ascii.eqb c quote); [injection Hs as _ <-; lia |].
    destruct (Ascii.eqb c backslash).
    + destruct r as [|e r1]; [done |]. cbn [String.length] in *.
      destruct (Ascii.eqb e "u").
      * destruct r1 as [|h1 [|h2 [|h3 [|h4 r2]]]]; try done.
        cbn [String.length] in *.
        destruct (hexval h1), (hexval h2), (hexval h3), (hexval h4); try done.
        destruct (_ <? 256)%N; [| done].
        apply cons_char_Ok in Hs as (str' & Hs & _).
        apply IH in Hs; lia.
      * destruct (unescape e); [| done].
        apply cons_char_Ok in Hs as (str' & Hs & _).
        apply IH in Hs; lia.
    + destruct (ord c <? 32)%N; [done |].
      apply cons_char_Ok in Hs as (str' & Hs & _).
      apply IH in Hs; lia.
Qed.

Lemma after_length lit : forall s rest,
  after lit s = Some rest -> String.length s = (String.length lit + String.length rest)%nat.
Proof.
  induction lit as [|a lit IH]; intros s rest Hs.
  - by injection Hs as <-.
  - destruct s as [|b r]; [done |]. cbn [after] in Hs.
    destruct (Ascii.eqb a b); [| done]. cbn [String.length]. by rewrite (IH r rest).
Qed.

Lemma digits_length s : (String.length (digits s).2 <= String.length s)%nat.
Proof.
  induction s as [|c s IH]; [done |]. cbn [digits].
  destruct (digit_of c); [| done]. destruct (digits s) as [u' rest].
  cbn [snd String.length] in *. lia.
Qed.

Lemma intpart_consumes s u rest :
  intpart s = Some (u, rest) -> (String.length rest < String.length s)%nat.
Proof.
  destruct s as [|c r]; [done |]. cbn [intpart String.length].
  destruct (Ascii.eqb c "0"); [intros [= _ <-]; lia |].
  destruct (digit_of c); [| done].
  pose proof (digits_length r) as Hd. destruct (digits r) as [u' rest'].
  intros [= _ <-]. cbn [snd] in Hd. lia.
Qed.

Lemma integer_consumes s i rest :
  integer s = Some (i, rest) -> (String.length rest < String.length s)%nat.
Proof.
  destruct s as [|c r]; [done |]. cbn [integer].
  destruct (Ascii.eqb c "-").
  - destruct (intpart r) as [[u rest']|] eqn:Hi; [| done].
    intros [= _ <-]. apply intpart_consumes in Hi. cbn [String.length]. lia.
  - destruct (intpart (String c r)) as [[u rest']|] eqn:Hi; [| done].
    intros [= _ <-]. by apply intpart_consumes in Hi.
Qed.

Lemma number_consumes s v rest :
  number s = Some (Ok (v, rest)) -> (String.length rest < String.length s)%nat.
Proof.
  unfold number. destruct (integer s) as [[i rest']|] eqn:Hi; [| done].
  destruct (has_frac rest' || has_exp rest'); [done |].
  intros [= _ <-]. by apply integer_consumes in Hi.
Qed.

Lemma number_not_TooDeep s : number s <> Some TooDeep.
Proof.
  unfold number. destruct (integer s) as [[i rest']|]; [| done].
  by destruct (has_frac rest' || has_exp rest').
Qed.

Lemma scanstring_not_TooDeep n : forall s,
  (String.length s <= n)%nat -> scanstring s <> TooDeep.
Proof.
  assert (forall c r, r <> TooDeep -> cons_char c r <> TooDeep) as Hcons.
  { intros c [[? ?]| | |]; done. }
  induction n as [|n IH]; intros s Hn.
  - destruct s; [done | cbn in Hn; lia].
  - destruct s as [|c r]; [done |]. cbn [scanstring]. cbn [String.length] in *.
    destruct (Ascii.eqb c quote); [done |].
    destruct (Ascii.eqb c backslash).
    + destruct r as [|e r1]; [done |]. cbn [String.length] in *.
      destruct (Ascii.eqb e "u").
      * destruct r1 as [|h1 [|h2 [|h3 [|h4 r2]]]]; try done.
        cbn [String.length] in *.
        destruct (hexval h1), (hexval h2), (hexval h3), (hexval h4); try done.
        destruct (_ <? 256)%N; [| done]. apply Hcons, IH. lia.
      * destruct (unescape e); [| done]. apply Hcons, IH. lia.
    + destruct (ord c <? 32)%N; [done |]. apply Hcons, IH. lia.
Qed.

Lemma scan_once_S fuel s :
  scan_once (S fuel) s =
  match s with
  | EmptyString => JSONDecodeError
  | String c r =>
      if Ascii.eqb c quote then
        let* (str, rest) := scanstring r in Ok (JStr str, rest)
      else if Ascii.eqb c "{" then
        match skip_ws r with
        | String c' r' =>
            if Ascii.eqb c' "}" then Ok (JObj [], r')
            else let* (pairs, rest) := members fuel (String c' r') in
                 Ok (JObj (dict pairs), rest)
        | EmptyString => JSONDecodeError
        end
      else if Ascii.eqb c "[" then
        match skip_ws r with
        | String c' r' =>
            if Ascii.eqb c' "]" then Ok (JArr [], r')
            else let* (vs, rest) := items fuel (String c' r') in Ok (JArr vs, rest)
        | EmptyString => JSONDecodeError
        end
      else
        match after "null" s, after "true" s, after "false" s with
        | Some rest, _, _ => Ok (JNull, rest)
        | _, Some rest, _ => Ok (JBool true, rest)
        | _, _, Some rest => Ok (JBool false, rest)
        | None, None, None =>
            match number s with
            | Some r => r
            | None =>
                match after "NaN" s, after "Infinity" s, after "-Infinity" s with
                | None, None, None => JSONDecodeError
                | _, _, _ => Unsupported
                end
            end
        end
  end.
Proof. destruct s; reflexivity. Qed.

Lemma members_S fuel s :
  members (S fuel) s =
  match s with
  | String q r =>
      if Ascii.eqb q quote then
        let* (key, rest) := scanstring r in
        match skip_ws rest with
        | String c r1 =>
            if Ascii.eqb c ":" then
              let* (v, rest1) := scan_once fuel (skip_ws r1) in
              match skip_ws rest1 with
              | String c' r2 =>
                  if Ascii.eqb c' "}" then Ok ([(key, v)], r2)
                  else if Ascii.eqb c' "," then
                    let* (kvs, rest2) := members fuel (skip_ws r2) in
                    Ok ((key, v) :: kvs, rest2)
                  else JSONDecodeError
              | EmptyString => JSONDecodeError
              end
            else JSONDecodeError
        | EmptyString => JSONDecodeError
        end
      else JSONDecodeError
  | EmptyString => JSONDecodeError
  end.
Proof. destruct s; reflexivity. Qed.

(** Take apart the next [match] or [if] of a hypothesis. *)
Ltac split_match H :=
  match type of H with
  | context [match ?x with _ => _ end] =>
      lazymatch x with
      | context [match _ with _ => _ end] => fail
      | _ => destruct x eqn:?; try discriminate H
      end
  end.

(** Collect what is known about the lengths of the texts in the context. *)
Ltac length_facts :=
  repeat match goal with
  | H : scanstring ?s = Ok (_, ?r) |- _ =>
      apply (scanstring_consumes (String.length s) s _ r (Nat.le_refl _)) in H
  | H : skip_ws ?s = _ |- _ =>
      let Hl := fresh in
      pose proof (skip_ws_length s) as Hl; rewrite H in Hl; clear H
  | H : after _ _ = Some _ |- _ => apply after_length in H
  | H : number _ = Some (Ok _) |- _ => apply number_consumes in H
  end;
  repeat match goal with
  | H : context [String.length (skip_ws ?s)] |- _ =>
      lazymatch goal with
      | _ : (String.length (skip_ws s) <= String.length s)%nat |- _ => fail
      | _ => pose proof (skip_ws_length s)
      end
  | |- context [String.length (skip_ws ?s)] =>
      lazymatch goal with
      | _ : (String.length (skip_ws s) <= String.length s)%nat |- _ => fail
      | _ => pose proof (skip_ws_length s)
      end
  end.

Lemma scan_consumes fuel :
  (forall s v rest, scan_once fuel s = Ok (v, rest) ->
                    (String.length rest < String.length s)%nat) /\
  (forall s vs rest, items fuel s = Ok (vs, rest) ->
                     (String.length rest < String.length s)%nat) /\
  (forall s kvs rest, members fuel s = Ok (kvs, rest) ->
                      (String.length rest < String.length s)%nat).
Proof.
  induction fuel as [|fuel (IHs & IHi & IHm)]; [done |].
  split; [| split].
  - intros s v rest H. rewrite scan_once_S in H. unfold bind in H.
    repeat split_match H; try (injection H as <- <-);
      repeat match goal with
      | Hm : members fuel _ = Ok _ |- _ => apply IHm in Hm
      | Hi : items fuel _ = Ok _ |- _ => apply IHi in Hi
      end;
      subst; length_facts; cbn [String.length] in *; lia.
  - intros s vs rest H. rewrite items_S in H. unfold bind in H.
    repeat split_match H; try (injection H as <- <-);
      repeat match goal with
      | Hs : scan_once fuel _ = Ok _ |- _ => apply IHs in Hs
      | Hi : items fuel _ = Ok _ |- _ => apply IHi in Hi
      end;
      subst; length_facts; cbn [String.length] in *; lia.
  - intros s kvs rest H. rewrite members_S in H. unfold bind in H.
    repeat split_match H; try (injection H as <- <-);
      repeat match goal with
      | Hs : scan_once fuel _ = Ok _ |- _ => apply IHs in Hs
      | Hm : members fuel _ = Ok _ |- _ => apply IHm in Hm
      end;
      subst; length_facts; cbn [String.length] in *; lia.
Qed.

Ltac consumed :=
  repeat match goal with
  | H : scan_once ?f _ = Ok _ |- _ => apply (proj1 (scan_consumes f)) in H
  | H : items ?f _ = Ok _ |- _ => apply (proj1 (proj2 (scan_consumes f))) in H
  | H : members ?f _ = Ok _ |- _ => apply (proj2 (proj2 (scan_consumes f))) in H
  end.

Lemma scan_fuel fuel :
  (forall s, (2 * String.length s + 1 <= fuel)%nat -> scan_once fuel s <> TooDeep) /\
  (forall s, (2 * String.length s + 2 <= fuel)%nat -> items fuel s <> TooDeep) /\
  (forall s, (2 * String.length s + 2 <= fuel)%nat -> members fuel s <> TooDeep).
Proof.
  induction fuel as [|fuel (IHs & IHi & IHm)]; [repeat split; intros s Hf; lia |].
  assert (forall s, scanstring s <> TooDeep) as Hstr.
  { intros s. by apply (scanstring_not_TooDeep (String.length s)). }
  split; [| split]; intros s Hf H.
  - rewrite scan_once_S in H. unfold bind in H.
    repeat split_match H; subst;
      try (by eapply Hstr); try (by eapply number_not_TooDeep);
      match goal with
      | Hx : members fuel _ = TooDeep |- _ => revert Hx; apply IHm
      | Hx : items fuel _ = TooDeep |- _ => revert Hx; apply IHi
      end;
      consumed; length_facts; cbn [String.length] in *; lia.
  - rewrite items_S in H. unfold bind in H.
    repeat split_match H; subst;
      match goal with
      | Hx : scan_once fuel _ = TooDeep |- _ => revert Hx; apply IHs
      | Hx : items fuel _ = TooDeep |- _ => revert Hx; apply IHi
      end;
      consumed; length_facts; cbn [String.length] in *; lia.
  - rewrite members_S in H. unfold bind in H.
    repeat split_match H; subst; try (by eapply Hstr);
      match goal with
      | Hx : scan_once fuel _ = TooDeep |- _ => revert Hx; apply IHs
      | Hx : members fuel _ = TooDeep |- _ => revert Hx; apply IHm
      end;
      consumed; length_facts; cbn [String.length] in *; lia.
Qed.

(** [loads] never stops for lack of fuel. *)
Lemma loads_not_TooDeep s : loads s <> TooDeep.
Proof.
  unfold loads, bind. intros H.
  destruct (scan_once _ (skip_ws s)) as [[v rest]| | |] eqn:Hs; try done.
  - by destruct (skip_ws rest).
  - revert Hs. apply scan_fuel. pose proof (skip_ws_length s). lia.
Qed.

End JsonFacts.

(** ** The store *)

Lemma save_tasks_eq w :
  save_tasks w = inr (tt, mkWorld (tasks w) (saved (tasks w))).
Proof. reflexivity. Qed.

Lemma load_tasks_saved l0 l :
  load_tasks (mkWorld l0 (saved l)) = inr (tt, mkWorld l (saved l)).
Proof.
  unfold load_tasks, and_then, read_data_file, saved. cbn [data_file].
  by rewrite JsonFacts.loads_dump_tasks, JsonFacts.tasks_of_value_to_value.
Qed.

Lemma load_tasks_absent l0 :
  load_tasks (mkWorld l0 None) = inr (tt, mkWorld [] None).
Proof. reflexivity. Qed.

Lemma init_saved l0 l :
  init (mkWorld l0 (saved l)) = inr (tt, mkWorld l (saved l)).
Proof. unfold init, and_then, set_tasks. cbn [data_file]. apply load_tasks_saved. Qed.

Lemma add_task_eq title status date_str w :
  add_task title status date_str w =
  let l := tasks w ++ [Task.mk (Z.of_nat (length (tasks w)) + 1) title status date_str] in
  inr (tt, mkWorld l (saved l)).
Proof. reflexivity. Qed.

Lemma update_task_status_eq task_id new_status w :
  update_task_status task_id new_status w =
  let l := set_first_status task_id new_status (tasks w) in
  inr (tt, mkWorld l (saved l)).
Proof. reflexivity. Qed.

Lemma delete_task_eq task_id w :
  delete_task task_id w =
  let l := filter (fun task => Task.id task <> task_id) (tasks w) in
  inr (tt, mkWorld l (saved l)).
Proof. reflexivity. Qed.

Lemma get_tasks_by_status_eq status w :
  get_tasks_by_status status w =
  inr (filter (fun task => Task.status task = status) (tasks w), w).
Proof. reflexivity. Qed.

(** The loop of [update_task_status] and stdpp's search for the first
    element that satisfies a predicate. *)
Lemma set_first_status_find task_id new_status l :
  set_first_status task_id new_status l =
  match list_find (fun task => Task.id task = task_id) l with
  | Some (i, task) => <[i := Task.set_status new_status task]> l
  | None => l
  end.
Proof.
  induction l as [|x l IH]; [done |].
  cbn [set_first_status list_find]. destruct (decide (Task.id x = task_id)); [done |].
  rewrite IH. destruct (list_find _ l) as [[i task]|]; done.
Qed.

Lemma set_first_status_length task_id new_status l :
  length (set_first_status task_id new_status l) = length l.
Proof.
  rewrite set_first_status_find.
  destruct (list_find _ l) as [[i task]|]; [apply length_insert | done].
Qed.

(** Two facts about [filter] and subsequences. *)
Lemma filter_all {A : Type} (P : A -> Prop) `{!forall x, Decision (P x)} (l : list A) :
  Forall P l -> filter P l = l.
Proof.
  induction 1 as [|x l Hx _ IH]; [done |].
  by rewrite filter_cons_True, IH.
Qed.

Lemma sublist_filter_both {A : Type} (P : A -> Prop) `{!forall x, Decision (P x)}
    (l1 l2 : list A) :
  sublist l1 l2 -> sublist (filter P l1) (filter P l2).
Proof.
  induction 1 as [|x l1 l2 _ IH|x l1 l2 _ IH]; [constructor | |].
  - rewrite !filter_cons. destruct (decide (P x)); [by constructor | done].
  - rewrite filter_cons. destruct (decide (P x)); [by constructor | done].
Qed.

(** The scenario of the specification: two additions, a move, two queries,
    a deletion and a third query. *)
Lemma board_scenario :
  exists w,
    (add_task "Write spec" "To do" "2024-01-01" ;;
     add_task "Review" "To do" "2024-01-02" ;;
     update_task_status 1 "Doing" ;;
     todo <~ get_tasks_by_status "To do" ;
     doing <~ get_tasks_by_status "Doing" ;
     delete_task 2 ;;
     todo' <~ get_tasks_by_status "To do" ;
     ret (todo, doing, todo')) fresh_world =
    inr (([Task.mk 2 "Review" "To do" "2024-01-02"],
          [Task.mk 1 "Write spec" "Doing" "2024-01-01"],
          []), w) /\
    tasks w = [Task.mk 1 "Write spec" "Doing" "2024-01-01"].
Proof. eexists. split; [vm_compute; reflexivity | reflexivity]. Qed.

(** ** Identifiers *)

(** C1, on the input where it fails. After two additions, the deletion of
    task 1 and a third addition, the collection holds two tasks with the
    id 2: [add_task] takes the length of the list plus one, and the length
    went down with the deletion. And after one addition and the deletion
    of task 1, the next task is given the id 1 again. *)
Theorem add_task_after_delete_repeats_id :
  (exists w,
     run_calls [AddTask "a" "To do" "2024-01-01"; AddTask "b" "To do" "2024-01-02";
                DeleteTask 1; AddTask "c" "To do" "2024-01-03"] fresh_world = inr (tt, w) /\
     Task.id <$> tasks w = [2; 2] /\
     ~ NoDup (Task.id <$> tasks w)) /\
  (exists w1 w2 w3,
     add_task "a" "To do" "2024-01-01" fresh_world = inr (tt, w1) /\
     Task.id <$> tasks w1 = [1] /\
     delete_task 1 w1 = inr (tt, w2) /\
     tasks w2 = [] /\
     add_task "b" "To do" "2024-01-02" w2 = inr (tt, w3) /\
     Task.id <$> tasks w3 = [1]).
Proof.
  split.
  - eexists. split; [vm_compute; reflexivity |]. split; [reflexivity |].
    cbn. intros Hnd. apply NoDup_cons in Hnd as [Hnot _].
    apply Hnot. by left.
  - eexists _, _, _. repeat (split; [vm_compute; reflexivity |]). reflexivity.
Qed.

(** Where the claim does hold: as long as nothing is deleted, the ids are
    1, 2, 3 and so on in the order of the collection. *)
Lemma set_first_status_ids task_id new_status l :
  Task.id <$> set_first_status task_id new_status l = Task.id <$> l.
Proof.
  induction l as [|x l IH]; [done |]. cbn [set_first_status].
  destruct (decide (Task.id x = task_id)); [done |]. cbn [fmap list_fmap] in *.
  by rewrite IH.
Qed.

Lemma first_ids_S n : first_ids (S n) = first_ids n ++ [Z.of_nat n + 1].
Proof. unfold first_ids. by rewrite seq_S, fmap_app. Qed.

Lemma first_ids_NoDup n : NoDup (first_ids n).
Proof.
  unfold first_ids. apply NoDup_fmap_2; [| apply NoDup_seq].
  intros a b Hab. lia.
Qed.

Lemma ids_without_delete cs : forall w w',
  Forall (fun c => ~ is_delete c) cs ->
  Task.id <$> tasks w = first_ids (length (tasks w)) ->
  run_calls cs w = inr (tt, w') ->
  Task.id <$> tasks w' = first_ids (length (tasks w')).
Proof.
  induction cs as [|c cs IH]; intros w w' Hcs Hw Hrun.
  - injection Hrun as <-. done.
  - apply Forall_cons in Hcs as [Hc Hcs]. cbn [run_calls] in Hrun. unfold and_then in Hrun.
    destruct c as [title status date_str|task_id new_status|task_id];
      cbn [run_call] in Hrun.
    + rewrite add_task_eq in Hrun. cbn zeta in Hrun. apply (IH _ w' Hcs) in Hrun; [done |].
      cbn [tasks]. rewrite fmap_app, length_app, Hw. cbn [length].
      rewrite Nat.add_1_r, first_ids_S. done.
    + rewrite update_task_status_eq in Hrun. cbn zeta in Hrun.
      apply (IH _ w' Hcs) in Hrun; [done |]. cbn [tasks].
      by rewrite set_first_status_ids, set_first_status_length.
    + by destruct Hc.
Qed.

Lemma ids_distinct_without_delete cs w :
  Forall (fun c => ~ is_delete c) cs ->
  run_calls cs fresh_world = inr (tt, w) ->
  NoDup (Task.id <$> tasks w).
Proof.
  intros Hcs Hrun.
  rewrite (ids_without_delete cs fresh_world w Hcs eq_refl Hrun).
  apply first_ids_NoDup.
Qed.

(** ** [add_task] *)

(** C2. [add_task] returns; the collection it leaves is the old one
    followed by one new task whose id is the old length plus one, so the
    length grows by one and the tasks that were there keep their places;
    the file holds the encoding of that whole collection, and loading it
    gives the collection back. *)
Theorem add_task_appends_and_saves (w : World) (title status date_str : string) :
  let new_task := Task.mk (Z.of_nat (length (tasks w)) + 1) title status date_str in
  exists w',
    add_task title status date_str w = inr (tt, w') /\
    tasks w' = tasks w ++ [new_task] /\
    length (tasks w') = S (length (tasks w)) /\
    take (length (tasks w)) (tasks w') = tasks w /\
    tasks w' !! length (tasks w) = Some new_task /\
    data_file w' = Some (Json.dump (tasks_to_value (tasks w'))) /\
    load_tasks w' = inr (tt, w').
Proof.
  intros new_task. eexists. split; [apply add_task_eq |]. cbn [tasks data_file].
  split; [done |]. split; [rewrite length_app; cbn; lia |].
  split; [by rewrite take_app_length |].
  split; [by rewrite list_lookup_middle |].
  split; [done |]. apply load_tasks_saved.
Qed.

(** ** [update_task_status] *)


(** ** [delete_task] and [get_tasks_by_status] *)

(** C4. After [delete_task task_id], no query by status returns a task
    with that id, and deleting the same id again changes nothing, neither
    in the collection nor in the file. *)
Theorem delete_task_removes_and_repeats (w : World) (task_id : Z) :
  exists w1,
    delete_task task_id w = inr (tt, w1) /\
    (forall status, exists r,
        get_tasks_by_status status w1 = inr (r, w1) /\
        Forall (fun task => Task.id task <> task_id) r) /\
    delete_task task_id w1 = inr (tt, w1).
Proof.
  eexists. split; [apply delete_task_eq |]. cbn zeta. split.
  - intros status. eexists. split; [apply get_tasks_by_status_eq |].
    cbn [tasks]. apply Forall_forall. intros task Hin.
    apply list_elem_of_filter in Hin as [_ Hin].
    by apply list_elem_of_filter in Hin as [Hid _].
  - rewrite delete_task_eq. cbn [tasks]. cbn zeta.
    by rewrite list_filter_filter_l.
Qed.

(** ** Queries *)

(** C6. [get_tasks_by_status] returns and leaves the store as it found
    it. Its result is a subsequence of the collection, all of whose tasks
    have the status, and every subsequence of the collection with that
    property is a subsequence of the result: it is the one that keeps all
    the tasks with the status, in the order of the collection. Two calls
    in a row return the same list. *)
Theorem get_tasks_by_status_subsequence (w : World) (status : string) :
  exists r,
    get_tasks_by_status status w = inr (r, w) /\
    sublist r (tasks w) /\
    Forall (fun task => Task.status task = status) r /\
    (forall r', sublist r' (tasks w) ->
                Forall (fun task => Task.status task = status) r' ->
                sublist r' r) /\
    (r1 <~ get_tasks_by_status status ;
     r2 <~ get_tasks_by_status status ;
     ret (r1, r2)) w = inr ((r, r), w).
Proof.
  eexists. split; [apply get_tasks_by_status_eq |].
  split; [apply sublist_filter |].
  split; [apply Forall_forall; intros task Hin;
          by apply list_elem_of_filter in Hin as [Hs _] |].
  split; [| reflexivity].
  intros r' Hsub Hall.
  rewrite <- (filter_all _ r' Hall).
  by apply sublist_filter_both.
Qed.

(** The theorem on the two tasks above: the one "To do" task, taken as a
    subsequence of the collection, is a subsequence of the result. *)
Lemma get_tasks_by_status_subsequence_witness :
  exists r,
    get_tasks_by_status "To do" (mkWorld two_tasks_with_id_2 None) =
      inr (r, mkWorld two_tasks_with_id_2 None) /\
    sublist [Task.mk 2 "c" "To do" "2024-01-03"] r.
Proof.
  destruct (get_tasks_by_status_subsequence (mkWorld two_tasks_with_id_2 None) "To do")
    as (r & Hget & _ & _ & Hmax & _).
  exists r. split; [exact Hget |].
  apply Hmax.
  - cbn [tasks]. unfold two_tasks_with_id_2.
    apply sublist_cons, sublist_skip, sublist_nil.
  - repeat constructor.
Defined.

(** ** Moving a task between columns *)

Lemma filter_insert_False {A : Type} (P : A -> Prop) `{!forall x, Decision (P x)}
    (l : list A) (i : nat) (x : A) :
  (i < length l)%nat -> ~ P x -> filter P (<[i := x]> l) = filter P (delete i l).
Proof.
  intros Hi Hx. rewrite insert_take_drop, delete_take_drop by done.
  by rewrite !filter_app, filter_cons_False.
Qed.

(** C7, on the input where it fails. Two additions, the deletion of task
    1, a third addition and a move leave two tasks with the id 2, the
    second of them with the status "To do". After
    [update_task_status 2 "Done"] that second task is still in the result
    of the query for "To do" and not in the result of the query for
    "Done": the loop stopped at the first task with the id 2 and moved
    that one. *)
Theorem update_task_status_moves_other_task :
  reachable (mkWorld two_tasks_with_id_2 (saved two_tasks_with_id_2)) /\
  two_tasks_with_id_2 !! 1%nat = Some (Task.mk 2 "c" "To do" "2024-01-03") /\
  (exists w',
     update_task_status 2 "Done" (mkWorld two_tasks_with_id_2 (saved two_tasks_with_id_2)) =
       inr (tt, w') /\
     tasks w' = [Task.mk 2 "b" "Done" "2024-01-02"; Task.mk 2 "c" "To do" "2024-01-03"] /\
     get_tasks_by_status "To do" w' = inr ([Task.mk 2 "c" "To do" "2024-01-03"], w') /\
     get_tasks_by_status "Done" w' = inr ([Task.mk 2 "b" "Done" "2024-01-02"], w')) /\
  ~ update_moves_task (mkWorld two_tasks_with_id_2 (saved two_tasks_with_id_2)) 2 1 "Done".
Proof.
  split; [| split; [reflexivity | split]].
  - exists [AddTask "a" "To do" "2024-01-01"; AddTask "b" "To do" "2024-01-02";
            DeleteTask 1; AddTask "c" "To do" "2024-01-03"; UpdateTaskStatus 2 "Doing"].
    vm_compute. reflexivity.
  - eexists. split; [apply update_task_status_eq |]. cbn zeta.
    split; [reflexivity |]. split; reflexivity.
  - intros Hmoves.
    destruct (Hmoves _ eq_refl eq_refl)
      as (w' & task' & r_old & r_new & Hupd & Hat & _ & Hnew & Hin & _).
    rewrite update_task_status_eq in Hupd. injection Hupd as <-.
    cbn in Hat. injection Hat as <-.
    rewrite get_tasks_by_status_eq in Hnew. injection Hnew as <-.
    apply list_elem_of_filter in Hin as [Hst _]. discriminate Hst.
Qed.

(** Where the move does what is asked: when the task at position [i] is
    the first one of the collection with the id, and so whenever the ids of
    the collection are distinct, [update_task_status] moves it: afterwards the
    task at that position carries the new status and is in the result of
    the query for it, and when its old status was another one, the result
    of the query for the old status no longer has it, and is what the
    query would return on the collection without that position. *)
Lemma update_task_status_moves_first_match
    (w : World) (task_id : Z) (i : nat) (task : Task.t) (new_status : string) :
  list_find (fun t => Task.id t = task_id) (tasks w) = Some (i, task) ->
  update_moves_task w task_id i new_status /\
  exists w',
    update_task_status task_id new_status w = inr (tt, w') /\
    tasks w' = <[i := Task.set_status new_status task]> (tasks w) /\
    (Task.status task <> new_status ->
     get_tasks_by_status (Task.status task) w' =
       inr (filter (fun t => Task.status t = Task.status task) (delete i (tasks w)), w')).
Proof.
  intros Hfind.
  pose proof Hfind as (Hi & Hid & _)%list_find_Some.
  pose proof (lookup_lt_Some _ _ _ Hi) as Hlt.
  assert (update_task_status task_id new_status w =
          inr (tt, mkWorld (<[i := Task.set_status new_status task]> (tasks w))
                           (saved (<[i := Task.set_status new_status task]> (tasks w)))))
    as Hupd.
  { rewrite update_task_status_eq. cbn zeta. by rewrite set_first_status_find, Hfind. }
  split.
  - intros task0 Hi0 _. assert (task0 = task) as -> by congruence.
    eexists _, (Task.set_status new_status task), _, _.
    split; [exact Hupd |]. cbn [tasks].
    split; [by apply list_lookup_insert_eq |].
    split; [apply get_tasks_by_status_eq |].
    split; [apply get_tasks_by_status_eq |]. cbn [tasks]. split.
    + apply list_elem_of_filter. split; [done |].
      apply list_elem_of_lookup. exists i. by apply list_lookup_insert_eq.
    + intros Hne Hin. apply list_elem_of_filter in Hin as [Hst _].
      cbn in Hst. congruence.
  - eexists. split; [exact Hupd |]. split; [done |].
    intros Hne. rewrite get_tasks_by_status_eq. cbn [tasks].
    rewrite filter_insert_False; [done | done |]. cbn. congruence.
Qed.

(** The theorem on the two tasks above, whose first task with the id 2 is
    at position 0. *)
Lemma update_task_status_moves_first_match_witness :
  list_find (fun t => Task.id t = 2) two_tasks_with_id_2 =
    Some (0%nat, Task.mk 2 "b" "Doing" "2024-01-02") /\
  update_moves_task (mkWorld two_tasks_with_id_2 (saved two_tasks_with_id_2)) 2 0 "Done".
Proof.
  split; [reflexivity |].
  apply (update_task_status_moves_first_match
           (mkWorld two_tasks_with_id_2 (saved two_tasks_with_id_2))
           2 0 (Task.mk 2 "b" "Doing" "2024-01-02") "Done").
  reflexivity.
Defined.

Lemma list_find_distinct_ids (l : list Task.t) (task_id : Z) (i : nat) (task : Task.t) :
  NoDup (Task.id <$> l) -> l !! i = Some task -> Task.id task = task_id ->
  list_find (fun t => Task.id t = task_id) l = Some (i, task).
Proof.
  intros Hnd Hi Hid. apply list_find_Some. split; [done |]. split; [done |].
  intros j y Hj Hlt Hy.
  assert (j = i); [| lia].
  apply (NoDup_lookup (Task.id <$> l) j i task_id); [done | |];
    rewrite list_lookup_fmap; [rewrite Hj | rewrite Hi]; cbn; congruence.
Qed.

(** With distinct ids, the task with the id is the one that moves, wherever
    it is in the collection. *)
Lemma update_task_status_moves_with_distinct_ids
    (w : World) (task_id : Z) (i : nat) (new_status : string) :
  NoDup (Task.id <$> tasks w) -> update_moves_task w task_id i new_status.
Proof.
  intros Hnd task Hi Hid.
  destruct (update_task_status_moves_first_match w task_id i task new_status) as [Hm _];
    [by apply list_find_distinct_ids |].
  by apply Hm.
Qed.

(** ** The status names *)

Lemma set_first_status_statuses_ok task_id new_status l :
  new_status ∈ statuses -> statuses_ok l ->
  statuses_ok (set_first_status task_id new_status l).
Proof.
  intros Hnew. unfold statuses_ok. induction 1 as [|x l Hx Hl IH]; [constructor |].
  cbn [set_first_status]. destruct (decide (Task.id x = task_id)); by constructor.
Qed.

Lemma filter_statuses_ok (P : Task.t -> Prop) `{!forall x, Decision (P x)} l :
  statuses_ok l -> statuses_ok (filter P l).
Proof.
  unfold statuses_ok. rewrite !Forall_forall. intros Hl task Hin.
  apply list_elem_of_filter in Hin as [_ Hin]. by apply Hl.
Qed.

Lemma run_call_statuses_ok c w w' :
  call_status_ok c -> statuses_ok (tasks w) -> run_call c w = inr (tt, w') ->
  statuses_ok (tasks w') /\ file_in_sync w'.
Proof.
  intros Hc Hw Hrun. destruct c as [title status date_str|task_id new_status|task_id];
    cbn [run_call call_status_ok] in *.
  - rewrite add_task_eq in Hrun. injection Hrun as <-. split; [| by right].
    cbn [tasks]. apply Forall_app. split; [done |]. by constructor.
  - rewrite update_task_status_eq in Hrun. injection Hrun as <-. split; [| by right].
    by apply set_first_status_statuses_ok.
  - rewrite delete_task_eq in Hrun. injection Hrun as <-. split; [| by right].
    by apply filter_statuses_ok.
Qed.

Lemma run_calls_statuses_ok cs : forall w w',
  Forall call_status_ok cs -> statuses_ok (tasks w) -> file_in_sync w ->
  run_calls cs w = inr (tt, w') ->
  statuses_ok (tasks w') /\ file_in_sync w'.
Proof.
  induction cs as [|c cs IH]; intros w w' Hcs Hw Hsync Hrun.
  - injection Hrun as <-. done.
  - apply Forall_cons in Hcs as [Hc Hcs]. cbn [run_calls] in Hrun. unfold and_then in Hrun.
    destruct (run_call c w) as [e|[[] w1]] eqn:Hc1; [done |].
    destruct (run_call_statuses_ok c w w1 Hc Hw Hc1) as [Hw1 Hs1].
    by apply (IH w1 w').
Qed.

(** Counterexample to C8: the store takes any status it is given, and one
    call of [add_task] with the status "Later" leaves a task with that
    status in the collection and in the file. *)
Lemma status_outside_board_is_stored :
  reachable (mkWorld [Task.mk 1 "x" "Later" "2024-01-01"]
                     (saved [Task.mk 1 "x" "Later" "2024-01-01"])) /\
  ~ statuses_ok [Task.mk 1 "x" "Later" "2024-01-01"] /\
  load_tasks (mkWorld [] (saved [Task.mk 1 "x" "Later" "2024-01-01"])) =
    inr (tt, mkWorld [Task.mk 1 "x" "Later" "2024-01-01"]
                     (saved [Task.mk 1 "x" "Later" "2024-01-01"])).
Proof.
  split; [| split].
  - exists [AddTask "x" "Later" "2024-01-01"]. vm_compute. reflexivity.
  - intros Hok. apply Forall_cons in Hok as [Hin _]. cbn in Hin.
    repeat (apply elem_of_cons in Hin as [Hin | Hin]; [discriminate Hin |]).
    by apply elem_of_nil in Hin.
  - apply load_tasks_saved.
Qed.

(** C8, amended: in every state that is reached from the empty collection
    by calls whose status argument is one of the three names, every task
    has one of the three names as its status, and the file, once written,
    holds exactly that collection. *)
Theorem statuses_stay_on_board (cs : list call) (w : World) :
  Forall call_status_ok cs ->
  run_calls cs fresh_world = inr (tt, w) ->
  statuses_ok (tasks w) /\ file_in_sync w.
Proof.
  intros Hcs Hrun.
  apply (run_calls_statuses_ok cs fresh_world w); [done | constructor | by left | done].
Qed.

(** The theorem on an addition followed by a move to "Done". *)
Lemma statuses_stay_on_board_witness :
  exists w,
    Forall call_status_ok [AddTask "a" "To do" "2024-01-01"; UpdateTaskStatus 1 "Done"] /\
    run_calls [AddTask "a" "To do" "2024-01-01"; UpdateTaskStatus 1 "Done"] fresh_world =
      inr (tt, w) /\
    statuses_ok (tasks w) /\ file_in_sync w.
Proof.
  eexists.
  assert (Forall call_status_ok
            [AddTask "a" "To do" "2024-01-01"; UpdateTaskStatus 1 "Done"]) as Hcs.
  { repeat constructor. }
  split; [exact Hcs |]. split; [vm_compute; reflexivity |].
  apply (statuses_stay_on_board
           [AddTask "a" "To do" "2024-01-01"; UpdateTaskStatus 1 "Done"]);
    [exact Hcs | vm_compute; reflexivity].
Defined.

(** The board only ever makes calls of that kind. *)
Lemma refresh_board_eq w : KanbanApp.refresh_board w = inr (tt, w).
Proof. reflexivity. Qed.

Lemma handle_calls e w : KanbanApp.handle e w = run_calls (calls_of_event e) w.
Proof.
  destruct e as [entry_text dt|task_id target|task_id answer];
    cbn [KanbanApp.handle calls_of_event].
  - unfold KanbanApp.confirm. destruct (KanbanApp.strip entry_text); reflexivity.
  - reflexivity.
  - destruct answer; reflexivity.
Qed.

Lemma calls_of_event_ok e : Forall call_status_ok (calls_of_event e).
Proof.
  destruct e as [entry_text dt|task_id target|task_id answer]; cbn [calls_of_event].
  - destruct (KanbanApp.strip entry_text); repeat constructor.
  - destruct target; repeat constructor.
  - destruct answer; repeat constructor.
Qed.

Lemma handle_all_statuses_ok es : forall w w',
  statuses_ok (tasks w) -> file_in_sync w ->
  KanbanApp.handle_all es w = inr (tt, w') ->
  statuses_ok (tasks w') /\ file_in_sync w'.
Proof.
  induction es as [|e es IH]; intros w w' Hw Hsync Hrun.
  - injection Hrun as <-. done.
  - cbn [KanbanApp.handle_all] in Hrun. unfold and_then in Hrun.
    rewrite handle_calls in Hrun.
    destruct (run_calls (calls_of_event e) w) as [ex|[[] w1]] eqn:He; [done |].
    destruct (run_calls_statuses_ok _ _ _ (calls_of_event_ok e) Hw Hsync He) as [Hw1 Hs1].
    by apply (IH w1 w').
Qed.

(** ** What [update_task_status] leaves alone *)

(** C9. [update_task_status] returns and keeps the length of the
    collection; at every position the task keeps its id, its title and its
    date; and at every position other than that of the first task with the
    id, the task is the same as before, also when it has the same id. *)
Theorem update_task_status_frame (w : World) (task_id : Z) (new_status : string) :
  exists w',
    update_task_status task_id new_status w = inr (tt, w') /\
    length (tasks w') = length (tasks w) /\
    forall i task, tasks w !! i = Some task ->
      exists task',
        tasks w' !! i = Some task' /\
        Task.id task' = Task.id task /\
        Task.title task' = Task.title task /\
        Task.date task' = Task.date task /\
        (fst <$> list_find (fun t => Task.id t = task_id) (tasks w) <> Some i ->
         task' = task).
Proof.
  eexists. split; [apply update_task_status_eq |]. cbn zeta. cbn [tasks].
  split; [apply set_first_status_length |].
  intros i task Hi. rewrite set_first_status_find.
  destruct (list_find _ (tasks w)) as [[j x]|] eqn:Hfind; [| by exists task].
  pose proof Hfind as (Hj & _ & _)%list_find_Some.
  destruct (decide (j = i)) as [-> | Hne].
  - assert (x = task) as -> by congruence.
    exists (Task.set_status new_status task).
    split; [apply list_lookup_insert_eq; by eapply lookup_lt_Some |].
    repeat (split; [reflexivity |]). intros Hnot. by destruct Hnot.
  - exists task. by rewrite list_lookup_insert_ne.
Qed.

(** The theorem on the two tasks above: the second task, which shares the
    id 2 with the first, is the same after the call. *)
Lemma update_task_status_frame_witness :
  exists w',
    update_task_status 2 "Done" (mkWorld two_tasks_with_id_2 None) = inr (tt, w') /\
    tasks w' !! 1%nat = Some (Task.mk 2 "c" "To do" "2024-01-03").
Proof.
  destruct (update_task_status_frame (mkWorld two_tasks_with_id_2 None) 2 "Done")
    as (w' & Hupd & _ & Hframe).
  exists w'. split; [exact Hupd |].
  destruct (Hframe 1%nat (Task.mk 2 "c" "To do" "2024-01-03") eq_refl)
    as (task' & Hat & _ & _ & _ & Hsame).
  rewrite Hat. f_equal. apply Hsame. vm_compute. discriminate.
Defined.

(** ** No validation in the store *)

(** C10. [add_task] returns for every title, status and date, the empty
    title included, and the task it appends carries the three strings as
    they were given. The empty title is turned away by [confirm] in the
    dialog, which returns without calling the store when the stripped text
    is empty, and otherwise calls [add_task] with the stripped text. *)
Theorem add_task_takes_any_strings :
  (forall w title status date_str, exists w',
      add_task title status date_str w = inr (tt, w') /\
      last (tasks w') =
        Some (Task.mk (Z.of_nat (length (tasks w)) + 1) title status date_str)) /\
  (forall w status date_str, exists w',
      add_task "" status date_str w = inr (tt, w') /\
      Task.title <$> last (tasks w') = Some EmptyString) /\
  (forall w entry_text dt,
      KanbanApp.strip entry_text = EmptyString ->
      KanbanApp.confirm entry_text dt w = inr (tt, w)) /\
  (forall w entry_text dt,
      KanbanApp.strip entry_text <> EmptyString ->
      KanbanApp.confirm entry_text dt w =
      add_task (KanbanApp.strip entry_text) "To do" dt w).
Proof.
  split; [| split; [| split]].
  - intros w title status date_str. eexists. split; [apply add_task_eq |].
    cbn zeta. cbn [tasks]. apply last_snoc.
  - intros w status date_str. eexists. split; [apply add_task_eq |].
    cbn zeta. cbn [tasks]. by rewrite last_snoc.
  - intros w entry_text dt Hempty. unfold KanbanApp.confirm. by rewrite Hempty.
  - intros w entry_text dt Hne. unfold KanbanApp.confirm.
    destruct (KanbanApp.strip entry_text); [done |]. reflexivity.
Qed.

(** The theorem on a title of three spaces and on a title with spaces
    around one letter. *)
Lemma add_task_takes_any_strings_witness :
  KanbanApp.confirm "   " "2024-01-01" fresh_world = inr (tt, fresh_world) /\
  KanbanApp.confirm " a " "2024-01-01" fresh_world =
    add_task "a" "To do" "2024-01-01" fresh_world.
Proof.
  destruct add_task_takes_any_strings as (_ & _ & Hempty & Hfull).
  split.
  - apply Hempty. reflexivity.
  - apply (Hfull fresh_world " a " "2024-01-01"). vm_compute. discriminate.
Defined.

(** ** More on the store *)

(** *** The file follows the collection *)

Lemma run_call_in_sync c w w' :
  run_call c w = inr (tt, w') -> file_in_sync w'.
Proof.
  destruct c as [title status date_str|task_id new_status|task_id]; cbn [run_call].
  - rewrite add_task_eq. intros [= <-]. by right.
  - rewrite update_task_status_eq. intros [= <-]. by right.
  - rewrite delete_task_eq. intros [= <-]. by right.
Qed.

Lemma run_calls_in_sync cs : forall w w',
  file_in_sync w -> run_calls cs w = inr (tt, w') -> file_in_sync w'.
Proof.
  induction cs as [|c cs IH]; intros w w' Hsync Hrun.
  - by injection Hrun as <-.
  - cbn [run_calls] in Hrun. unfold and_then in Hrun.
    destruct (run_call c w) as [e|[[] w1]] eqn:Hc; [done |].
    apply (IH w1 w'); [by eapply run_call_in_sync | done].
Qed.

Lemma init_in_sync w l0 :
  file_in_sync w -> init (mkWorld l0 (data_file w)) = inr (tt, w).
Proof.
  destruct w as [l f]. intros [[Hf Hl] | Hf]; cbn [data_file tasks] in *; subst.
  - reflexivity.
  - apply init_saved.
Qed.

(** *** A file without a value *)

(** X2. A file that exists but holds nothing besides white space is not
    taken for an empty collection: [load_tasks], and with it
    [TaskManager()], raises the decoder's error. *)
Theorem blank_file_raises (text : string) (l0 : list Task.t) :
  Json.skip_ws text = EmptyString ->
  load_tasks (mkWorld l0 (Some text)) = inl DecodeError /\
  init (mkWorld l0 (Some text)) = inl DecodeError.
Proof.
  intros Hblank.
  assert (Json.loads text = Json.JSONDecodeError) as Hloads.
  { unfold Json.loads. rewrite Hblank. by rewrite Nat.add_comm. }
  assert (forall l, load_tasks (mkWorld l (Some text)) = inl DecodeError) as Hload.
  { intros l. unfold load_tasks, and_then, read_data_file. cbn [data_file].
    by rewrite Hloads. }
  split; [apply Hload |].
  unfold init, and_then, set_tasks. cbn [data_file]. apply Hload.
Qed.

Lemma blank_file_raises_witness :
  load_tasks (mkWorld [] (Some " ")) = inl DecodeError /\
  init (mkWorld [] (Some " ")) = inl DecodeError.
Proof. apply (blank_file_raises " " []). reflexivity. Defined.

(** *** [delete_task] *)

(** X3. [delete_task] with an id that no task has returns and leaves the
    collection as it is. *)
Theorem delete_task_missing_id (w : World) (task_id : Z) :
  Forall (fun task => Task.id task <> task_id) (tasks w) ->
  exists w', delete_task task_id w = inr (tt, w') /\ tasks w' = tasks w.
Proof.
  intros Hall. eexists. split; [apply delete_task_eq |]. cbn zeta. cbn [tasks].
  by apply filter_all.
Qed.

Lemma delete_task_missing_id_witness :
  exists w', delete_task 7 (mkWorld two_tasks_with_id_2 None) = inr (tt, w') /\
             tasks w' = two_tasks_with_id_2.
Proof.
  apply (delete_task_missing_id (mkWorld two_tasks_with_id_2 None) 7).
  repeat constructor; discriminate.
Defined.

Lemma length_filter_split {A : Type} (P : A -> Prop) `{!forall x, Decision (P x)}
    (l : list A) :
  (length (filter P l) + length (filter (fun x => ~ P x) l) = length l)%nat.
Proof.
  induction l as [|x l IH]; [done |]. rewrite !filter_cons.
  destruct (decide (P x)), (decide (~ P x)); cbn [length]; try lia; tauto.
Qed.

Lemma filter_filter_other {A : Type} (P Q : A -> Prop)
    `{!forall x, Decision (P x)} `{!forall x, Decision (Q x)} (l : list A) :
  (forall x, Q x -> P x) -> filter Q (filter P l) = filter Q l.
Proof.
  intros HQP. induction l as [|x l IH]; [done |]. rewrite !filter_cons.
  destruct (decide (P x)) as [HP | HP].
  - rewrite filter_cons. destruct (decide (Q x)); by rewrite IH.
  - destruct (decide (Q x)) as [HQ | HQ]; [by destruct HP; apply HQP | done].
Qed.

(** X4. [delete_task] removes every task with the id and nothing else: the
    collection it leaves is a subsequence of the old one, no task in it
    has the id, the tasks with any other id are all still there in their
    order, and the length went down by the number of tasks that had the
    id. *)
Theorem delete_task_removes_exactly (w : World) (task_id : Z) :
  exists w',
    delete_task task_id w = inr (tt, w') /\
    sublist (tasks w') (tasks w) /\
    Forall (fun task => Task.id task <> task_id) (tasks w') /\
    (forall other, other <> task_id ->
       filter (fun task => Task.id task = other) (tasks w') =
       filter (fun task => Task.id task = other) (tasks w)) /\
    (length (tasks w') + length (filter (fun task => Task.id task = task_id) (tasks w)) =
     length (tasks w))%nat.
Proof.
  eexists. split; [apply delete_task_eq |]. cbn zeta. cbn [tasks].
  split; [apply sublist_filter |].
  split; [apply Forall_forall; intros task Hin;
          by apply list_elem_of_filter in Hin as [Hid _] |].
  split.
  - intros other Hother. apply filter_filter_other. intros task Hid. congruence.
  - pose proof (length_filter_split (fun task => Task.id task = task_id) (tasks w)). lia.
Qed.

Lemma delete_task_removes_exactly_witness :
  exists w',
    delete_task 2 (mkWorld two_tasks_with_id_2 None) = inr (tt, w') /\
    filter (fun task => Task.id task = 3) (tasks w') =
    filter (fun task => Task.id task = 3) two_tasks_with_id_2.
Proof.
  destruct (delete_task_removes_exactly (mkWorld two_tasks_with_id_2 None) 2)
    as (w' & Hdel & _ & _ & Hother & _).
  exists w'. split; [exact Hdel |]. apply (Hother 3). discriminate.
Defined.

(** *** How the calls compose *)

Lemma and_then_inr {A B : Type} (m : M A) (k : A -> M B) (w w' : World) (a : A) :
  m w = inr (a, w') -> and_then m k w = k a w'.
Proof. unfold and_then. by intros ->. Qed.

Lemma set_first_status_twice task_id s1 s2 l :
  set_first_status task_id s2 (set_first_status task_id s1 l) =
  set_first_status task_id s2 l.
Proof.
  induction l as [|x l IH]; [done |]. cbn [set_first_status].
  destruct (decide (Task.id x = task_id)) as [Hx | Hx]; cbn [set_first_status].
  - cbn [Task.set_status Task.id]. by rewrite decide_True.
  - by rewrite decide_False, IH.
Qed.

(** X5. Two status updates of the same id in a row leave the store
    exactly as the second one alone would: the last status wins, and
    repeating an update changes nothing. *)
Theorem update_task_status_last_wins (w : World) (task_id : Z) (s1 s2 : string) :
  (update_task_status task_id s1 ;; update_task_status task_id s2) w =
  update_task_status task_id s2 w.
Proof.
  rewrite (and_then_inr _ _ _ _ _ (update_task_status_eq task_id s1 w)).
  rewrite !update_task_status_eq. cbn zeta. cbn [tasks].
  by rewrite set_first_status_twice.
Qed.

Lemma set_first_status_comm id1 id2 s1 s2 l :
  id1 <> id2 ->
  set_first_status id2 s2 (set_first_status id1 s1 l) =
  set_first_status id1 s1 (set_first_status id2 s2 l).
Proof.
  intros Hne. induction l as [|x l IH]; [done |]. cbn [set_first_status].
  destruct (decide (Task.id x = id1)) as [H1 | H1],
           (decide (Task.id x = id2)) as [H2 | H2];
    cbn [set_first_status Task.set_status Task.id].
  - congruence.
  - by rewrite decide_False, decide_True.
  - by rewrite decide_True, decide_False.
  - by rewrite !decide_False, IH.
Qed.

(** X6. Status updates of two different ids can be made in either order:
    the store ends up the same. *)
Theorem update_task_status_commute (w : World) (id1 id2 : Z) (s1 s2 : string) :
  id1 <> id2 ->
  (update_task_status id1 s1 ;; update_task_status id2 s2) w =
  (update_task_status id2 s2 ;; update_task_status id1 s1) w.
Proof.
  intros Hne.
  rewrite (and_then_inr _ _ _ _ _ (update_task_status_eq id1 s1 w)).
  rewrite (and_then_inr _ _ _ _ _ (update_task_status_eq id2 s2 w)).
  rewrite !update_task_status_eq. cbn zeta. cbn [tasks].
  by rewrite set_first_status_comm.
Qed.

Lemma update_task_status_commute_witness :
  (update_task_status 1 "Done" ;; update_task_status 2 "To do")
    (mkWorld two_tasks_with_id_2 None) =
  (update_task_status 2 "To do" ;; update_task_status 1 "Done")
    (mkWorld two_tasks_with_id_2 None).
Proof.
  apply (update_task_status_commute (mkWorld two_tasks_with_id_2 None) 1 2). discriminate.
Defined.

Lemma filter_set_first_status task_id new_status l :
  filter (fun task => Task.id task <> task_id) (set_first_status task_id new_status l) =
  filter (fun task => Task.id task <> task_id) l.
Proof.
  induction l as [|x l IH]; [done |]. cbn [set_first_status].
  destruct (decide (Task.id x = task_id)) as [Hx | Hx].
  - rewrite !filter_cons_False; [done | | ]; cbn; tauto.
  - by rewrite !filter_cons_True, IH.
Qed.

Lemma set_first_status_missing task_id new_status l :
  Forall (fun task => Task.id task <> task_id) l ->
  set_first_status task_id new_status l = l.
Proof.
  induction 1 as [|x l Hx _ IH]; [done |]. cbn [set_first_status].
  by rewrite decide_False, IH.
Qed.

(** X7. A status update is lost on a task that is then deleted, and cannot
    bring a deleted task back: updating an id and then deleting it, or
    deleting it and then updating it, leaves the store exactly as the
    deletion alone does. *)
Theorem update_and_delete_same_id (w : World) (task_id : Z) (new_status : string) :
  (update_task_status task_id new_status ;; delete_task task_id) w = delete_task task_id w /\
  (delete_task task_id ;; update_task_status task_id new_status) w = delete_task task_id w.
Proof.
  rewrite (and_then_inr _ _ _ _ _ (update_task_status_eq task_id new_status w)).
  rewrite (and_then_inr _ _ _ _ _ (delete_task_eq task_id w)).
  rewrite update_task_status_eq, !delete_task_eq. cbn zeta. cbn [tasks]. split.
  - by rewrite filter_set_first_status.
  - rewrite set_first_status_missing; [done |].
    apply Forall_forall. intros task Hin. by apply list_elem_of_filter in Hin as [Hid _].
Qed.

(** X21. Moving a task to another status and back to the one it had
    leaves the collection exactly as it was: the task keeps its place, so
    it does not go to the end of its column. *)
Theorem update_task_status_there_and_back
    (w : World) (task_id : Z) (k : nat) (task : Task.t) (new_status : string) :
  list_find (fun t => Task.id t = task_id) (tasks w) = Some (k, task) ->
  exists w',
    (update_task_status task_id new_status ;;
     update_task_status task_id (Task.status task)) w = inr (tt, w') /\
    tasks w' = tasks w.
Proof.
  intros Hfind.
  rewrite (and_then_inr _ _ _ _ _ (update_task_status_eq task_id new_status w)).
  eexists. split; [apply update_task_status_eq |]. cbn zeta. cbn [tasks].
  rewrite set_first_status_twice, set_first_status_find, Hfind.
  apply list_find_Some in Hfind as (Hk & _ & _).
  apply list_insert_id. rewrite Hk. by destruct task.
Qed.

Lemma update_task_status_there_and_back_witness :
  exists w',
    (update_task_status 2 "Done" ;; update_task_status 2 "Doing")
      (mkWorld two_tasks_with_id_2 None) = inr (tt, w') /\
    tasks w' = two_tasks_with_id_2.
Proof.
  apply (update_task_status_there_and_back (mkWorld two_tasks_with_id_2 None) 2 0
           (Task.mk 2 "b" "Doing" "2024-01-02") "Done").
  reflexivity.
Defined.

(** *** Identifiers *)

Lemma run_call_ids_bounded c w w' (n : nat) :
  (length (tasks w) <= n)%nat ->
  Forall (fun task => 1 <= Task.id task <= Z.of_nat n) (tasks w) ->
  run_call c w = inr (tt, w') ->
  (length (tasks w') <= additions [c] + n)%nat /\
  Forall (fun task => 1 <= Task.id task <= Z.of_nat (additions [c] + n)) (tasks w').
Proof.
  intros Hlen Hall.
  destruct c as [title status date_str|task_id new_status|task_id];
    cbn [run_call additions].
  - rewrite add_task_eq. intros [= <-]. cbn [tasks]. split.
    + rewrite length_app. cbn [length]. lia.
    + apply Forall_app. split.
      * eapply Forall_impl; [exact Hall |]. cbn. intros task. lia.
      * constructor; [| constructor]. cbn [Task.id]. lia.
  - rewrite update_task_status_eq. intros [= <-]. cbn [tasks]. split.
    + by rewrite set_first_status_length.
    + rewrite set_first_status_find.
      destruct (list_find _ (tasks w)) as [[i x]|] eqn:Hfind; [| done].
      apply list_find_Some in Hfind as (Hi & _ & _).
      apply Forall_insert; [done |].
      apply (proj1 (Forall_lookup _ _) Hall) in Hi. done.
  - rewrite delete_task_eq. intros [= <-]. cbn [tasks]. split.
    + pose proof (length_filter (fun task => Task.id task <> task_id) (tasks w)). lia.
    + apply Forall_forall. intros task Hin.
      apply list_elem_of_filter in Hin as [_ Hin].
      by apply (proj1 (Forall_forall _ _) Hall).
Qed.

Lemma run_calls_ids_bounded cs : forall w w' (n : nat),
  (length (tasks w) <= n)%nat ->
  Forall (fun task => 1 <= Task.id task <= Z.of_nat n) (tasks w) ->
  run_calls cs w = inr (tt, w') ->
  (length (tasks w') <= additions cs + n)%nat /\
  Forall (fun task => 1 <= Task.id task <= Z.of_nat (additions cs + n)) (tasks w').
Proof.
  induction cs as [|c cs IH]; intros w w' n Hlen Hall Hrun.
  - by injection Hrun as <-.
  - cbn [run_calls] in Hrun. unfold and_then in Hrun.
    destruct (run_call c w) as [e|[[] w1]] eqn:Hc; [done |].
    destruct (run_call_ids_bounded c w w1 n Hlen Hall Hc) as [Hlen1 Hall1].
    destruct (IH w1 w' _ Hlen1 Hall1 Hrun) as [Hlen2 Hall2].
    assert (additions (c :: cs) = additions cs + additions [c])%nat as ->.
    { destruct c; cbn [additions]; lia. }
    rewrite <- Nat.add_assoc. done.
Qed.

(** X8. In every state reached from the empty collection, every id is a
    positive integer and none is larger than the number of [add_task]
    calls made so far; the collection is never longer than that number
    either. *)
Theorem ids_positive_and_bounded (cs : list call) (w : World) :
  run_calls cs fresh_world = inr (tt, w) ->
  (length (tasks w) <= additions cs)%nat /\
  Forall (fun task => 1 <= Task.id task <= Z.of_nat (additions cs)) (tasks w).
Proof.
  intros Hrun.
  destruct (run_calls_ids_bounded cs fresh_world w 0) as [Hlen Hall];
    [done | constructor | done |].
  by rewrite Nat.add_0_r in Hlen, Hall.
Qed.

Lemma ids_positive_and_bounded_witness :
  exists w,
    run_calls [AddTask "a" "To do" "2024-01-01"; DeleteTask 1;
               AddTask "b" "To do" "2024-01-02"] fresh_world = inr (tt, w) /\
    Forall (fun task => 1 <= Task.id task <= 2) (tasks w).
Proof.
  eexists. split; [vm_compute; reflexivity |].
  apply (ids_positive_and_bounded
           [AddTask "a" "To do" "2024-01-01"; DeleteTask 1;
            AddTask "b" "To do" "2024-01-02"]).
  vm_compute. reflexivity.
Defined.

Lemma elem_of_first_ids (n : nat) (x : Z) : x ∈ first_ids n <-> 1 <= x <= Z.of_nat n.
Proof.
  unfold first_ids. rewrite list_elem_of_fmap. split.
  - intros (k & -> & Hk). apply elem_of_seq in Hk. lia.
  - intros Hx. exists (Z.to_nat (x - 1)). split; [lia |]. apply elem_of_seq. lia.
Qed.

Lemma fmap_id_filter (P : Z -> Prop) `{!forall x, Decision (P x)} (l : list Task.t) :
  Task.id <$> filter (fun task => P (Task.id task)) l = filter P (Task.id <$> l).
Proof.
  induction l as [|x l IH]; [done |]. rewrite fmap_cons, !filter_cons.
  destruct (decide (P (Task.id x))); by rewrite ?fmap_cons, IH.
Qed.

Lemma length_filter_first_ids (n : nat) (k : Z) :
  1 <= k <= Z.of_nat n ->
  length (filter (fun i => i <> k) (first_ids n)) = (n - 1)%nat.
Proof.
  induction n as [|n IH]; [lia |]. intros Hk.
  rewrite first_ids_S, filter_app, length_app.
  destruct (decide (k = Z.of_nat n + 1)) as [-> | Hne].
  - rewrite filter_all.
    + rewrite filter_cons_False by (cbn; lia).
      unfold first_ids. rewrite length_fmap, length_seq. cbn [filter list_filter length]. lia.
    + apply Forall_forall. intros x Hx. apply elem_of_first_ids in Hx. lia.
  - rewrite IH by lia. rewrite filter_cons_True by done. cbn [filter list_filter length]. lia.
Qed.

(** X9. Where the ids collide. On a collection whose ids are 1 to [n],
    deleting the task with the id [k] and then adding a task gives the new
    task the id [n]. So unless the deleted task was the last one, the new
    task shares its id with the last task; and when it was the last one,
    the new task takes over its id. *)
Theorem delete_then_add_ids
    (w : World) (n : nat) (k : Z) (title status date_str : string) :
  Task.id <$> tasks w = first_ids n ->
  1 <= k <= Z.of_nat n ->
  exists w',
    (delete_task k ;; add_task title status date_str) w = inr (tt, w') /\
    Task.id <$> tasks w' = filter (fun i => i <> k) (first_ids n) ++ [Z.of_nat n] /\
    (NoDup (Task.id <$> tasks w') <-> k = Z.of_nat n).
Proof.
  intros Hids Hk.
  rewrite (and_then_inr _ _ _ _ _ (delete_task_eq k w)).
  eexists. split; [apply add_task_eq |]. cbn zeta. cbn [tasks].
  assert (Task.id <$> filter (fun task => Task.id task <> k) (tasks w) =
          filter (fun i => i <> k) (first_ids n)) as Hfilter.
  { rewrite <- Hids. exact (fmap_id_filter (fun i => i <> k) (tasks w)). }
  assert (length (filter (fun task => Task.id task <> k) (tasks w)) = (n - 1)%nat) as Hlen.
  { rewrite <- (length_fmap Task.id), Hfilter. by apply length_filter_first_ids. }
  assert (Task.id <$> filter (fun task => Task.id task <> k) (tasks w) ++
            [Task.mk (Z.of_nat (length (filter (fun task => Task.id task <> k) (tasks w))) + 1)
                     title status date_str] =
          filter (fun i => i <> k) (first_ids n) ++ [Z.of_nat n]) as Heq.
  { rewrite fmap_app, Hfilter, Hlen. cbn. do 2 f_equal. lia. }
  split; [exact Heq |]. rewrite Heq, NoDup_app. split.
  - intros (_ & Hnotin & _). destruct (decide (k = Z.of_nat n)) as [| Hne]; [done |].
    exfalso. apply (Hnotin (Z.of_nat n)); [| by left].
    apply list_elem_of_filter. split; [congruence |]. apply elem_of_first_ids. lia.
  - intros ->. split; [apply NoDup_filter, first_ids_NoDup |].
    split; [| apply NoDup_singleton].
    intros x Hx Hin. apply list_elem_of_singleton in Hin as ->.
    by apply list_elem_of_filter in Hx as [Hx _].
Qed.

Lemma delete_then_add_ids_witness :
  exists w',
    (delete_task 1 ;; add_task "c" "To do" "2024-01-03")
      (mkWorld [Task.mk 1 "a" "To do" "2024-01-01"; Task.mk 2 "b" "To do" "2024-01-02"]
               None) = inr (tt, w') /\
    Task.id <$> tasks w' = [2; 2].
Proof.
  destruct (delete_then_add_ids
              (mkWorld [Task.mk 1 "a" "To do" "2024-01-01";
                        Task.mk 2 "b" "To do" "2024-01-02"] None)
              2 1 "c" "To do" "2024-01-03") as (w' & Hrun & Hids & _);
    [reflexivity | lia |].
  exists w'. split; [exact Hrun |]. rewrite Hids. reflexivity.
Defined.

(** X10. Adding a task and at once deleting the id it was given brings
    the collection back, provided that no task had that id before. *)
Theorem add_then_delete_restores (w : World) (title status date_str : string) :
  Forall (fun task => Task.id task <> Z.of_nat (length (tasks w)) + 1) (tasks w) ->
  exists w',
    (add_task title status date_str ;;
     delete_task (Z.of_nat (length (tasks w)) + 1)) w = inr (tt, w') /\
    tasks w' = tasks w.
Proof.
  intros Hfresh.
  rewrite (and_then_inr _ _ _ _ _ (add_task_eq title status date_str w)).
  eexists. split; [apply delete_task_eq |]. cbn zeta. cbn [tasks].
  rewrite filter_app, filter_all by done.
  rewrite filter_cons_False; [apply app_nil_r |]. cbn [Task.id]. tauto.
Qed.

Lemma add_then_delete_restores_witness :
  exists w',
    (add_task "c" "To do" "2024-01-03" ;; delete_task 2)
      (mkWorld [Task.mk 1 "a" "To do" "2024-01-01"] None) = inr (tt, w') /\
    tasks w' = [Task.mk 1 "a" "To do" "2024-01-01"].
Proof.
  apply (add_then_delete_restores
           (mkWorld [Task.mk 1 "a" "To do" "2024-01-01"] None) "c" "To do" "2024-01-03").
  repeat constructor. discriminate.
Defined.

(** *** A run of additions *)

Lemma run_additions status items : forall w,
  exists f,
    run_calls (additions_of status items) w =
    inr (tt, mkWorld (tasks w ++ added status (length (tasks w)) items) f).
Proof.
  induction items as [|item items IH]; intros w.
  - exists (data_file w). cbn. rewrite app_nil_r. by destruct w.
  - cbn [additions_of fmap list_fmap run_calls run_call].
    rewrite (and_then_inr _ _ _ _ _ (add_task_eq item.1 status item.2 w)).
    destruct (IH (mkWorld (tasks w ++ [Task.mk (Z.of_nat (length (tasks w)) + 1)
                                               item.1 status item.2])
                          (saved (tasks w ++ [Task.mk (Z.of_nat (length (tasks w)) + 1)
                                                      item.1 status item.2]))))
      as [f Hf].
    exists f. unfold additions_of in Hf. rewrite Hf. cbn [tasks].
    rewrite <- app_assoc.
    assert (added status (length (tasks w)) (item :: items) =
            [Task.mk (Z.of_nat (length (tasks w)) + 1) item.1 status item.2] ++
            added status
              (length (tasks w ++ [Task.mk (Z.of_nat (length (tasks w)) + 1)
                                           item.1 status item.2])) items) as ->; [| done].
    unfold added. cbn [imap app]. rewrite Nat.add_0_r. f_equal.
    apply imap_ext. intros i x _. cbn. rewrite length_app. cbn [length].
    do 3 f_equal. lia.
Qed.

(** X19. After any run of additions that all give the same status to an
    empty store, the collection holds one task for each addition, in the
    order of the additions, with the ids 1, 2, 3 and so on, and the query
    for that status returns the whole collection. *)
Theorem additions_fill_one_column (status : string) (items : list (string * string)) :
  exists w,
    run_calls (additions_of status items) fresh_world = inr (tt, w) /\
    tasks w = added status 0 items /\
    Task.id <$> tasks w = first_ids (length items) /\
    get_tasks_by_status status w = inr (tasks w, w).
Proof.
  destruct (run_additions status items fresh_world) as [f Hrun].
  eexists. split; [exact Hrun |]. cbn [tasks fresh_world app length].
  split; [done |].
  assert (forall n l, Task.id <$> added status n l =
                      (fun k => Z.of_nat (n + k) + 1) <$> seq 0 (length l)) as Hids.
  { intros n l. revert n. induction l as [|x l IHl]; intros n; [done |].
    unfold added in *. cbn [imap length seq fmap list_fmap Task.id]. f_equal.
    rewrite <- fmap_S_seq, <- list_fmap_compose.
    erewrite imap_ext; [rewrite (IHl (S n)) |].
    - apply list_fmap_ext. intros i k _. cbn. do 2 f_equal. lia.
    - intros i y _. cbn. do 3 f_equal. lia. }
  split; [apply Hids |].
  rewrite get_tasks_by_status_eq. cbn [tasks]. f_equal. f_equal.
  apply filter_all. unfold added. apply Forall_forall. intros task Hin.
  apply list_elem_of_lookup_1 in Hin as [i Hi].
  rewrite list_lookup_imap in Hi.
  destruct (items !! i); [| done]. cbn in Hi. by injection Hi as <-.
Qed.

(** ** Stripping the title *)

Lemma rstrip_twice s : KanbanApp.rstrip (KanbanApp.rstrip s) = KanbanApp.rstrip s.
Proof.
  induction s as [|c r IH]; [done |]. cbn [KanbanApp.rstrip].
  destruct (KanbanApp.rstrip r) as [|c' r'] eqn:Hr.
  - destruct (KanbanApp.is_space c) eqn:Hc; [done |].
    cbn [KanbanApp.rstrip]. by rewrite Hc.
  - change (KanbanApp.rstrip (String c (String c' r'))) with
      (match KanbanApp.rstrip (String c' r') with
       | EmptyString =>
           if KanbanApp.is_space c then EmptyString else String c EmptyString
       | String a b => String c (String a b)
       end).
    by rewrite IH.
Qed.

Lemma lstrip_starts_clean s : starts_clean (KanbanApp.lstrip s).
Proof.
  induction s as [|c r IH]; [done |]. cbn [KanbanApp.lstrip].
  destruct (KanbanApp.is_space c) eqn:Hc; [done | exact Hc].
Qed.

Lemma rstrip_starts_clean s : starts_clean s -> starts_clean (KanbanApp.rstrip s).
Proof.
  destruct s as [|c r]; [done |]. cbn [starts_clean KanbanApp.rstrip]. intros Hc.
  destruct (KanbanApp.rstrip r); [by rewrite Hc | done].
Qed.

Lemma lstrip_clean s : starts_clean s -> KanbanApp.lstrip s = s.
Proof. destruct s as [|c r]; [done |]. cbn. by intros ->. Qed.

Lemma strip_twice s : KanbanApp.strip (KanbanApp.strip s) = KanbanApp.strip s.
Proof.
  unfold KanbanApp.strip.
  rewrite (lstrip_clean (KanbanApp.rstrip _));
    [apply rstrip_twice | apply rstrip_starts_clean, lstrip_starts_clean].
Qed.

Lemma strip_title_ok s c r : KanbanApp.strip s = String c r -> title_ok (String c r).
Proof. intros Hs. split; [done |]. by rewrite <- Hs, strip_twice. Qed.

(** ** The board *)

Module KanbanViewFacts.
Import KanbanView.
Local Open Scope ui_scope.

Lemma create_cards_eq status f l : forall app,
  create_cards status f l app =
  inr (tt, set_children f (winfo_children f app ++ (card_of status <$> l)) app).
Proof.
  induction l as [|task l IH]; intros app.
  - cbn [create_cards fmap list_fmap]. rewrite app_nil_r. by destruct f, app.
  - cbn [create_cards]. unfold bind_ui, pack. rewrite IH.
    rewrite fmap_cons. destruct f, app; cbn; by rewrite <- app_assoc.
Qed.

Lemma view_refresh_board_eq app : refresh_board app = inr (tt, board_of (manager app)).
Proof.
  unfold refresh_board, bind_ui, destroy_children, create_cards_for_status, bind_ui,
    call_manager.
  cbn [set_children manager todo_cards doing_cards done_cards].
  rewrite !get_tasks_by_status_eq, !create_cards_eq.
  cbn [set_children manager todo_cards doing_cards done_cards winfo_children].
  rewrite !get_tasks_by_status_eq, !create_cards_eq.
  cbn [set_children manager todo_cards doing_cards done_cards winfo_children].
  rewrite !get_tasks_by_status_eq, !create_cards_eq.
  reflexivity.
Qed.

Lemma board_of_shows w : shows_store (board_of w).
Proof. intros []; reflexivity. Qed.

Lemma run_call_total c w : exists w', run_call c w = inr (tt, w').
Proof.
  destruct c; cbn [run_call]; eexists;
    [apply add_task_eq | apply update_task_status_eq | apply delete_task_eq].
Qed.

Lemma handle_call_of e app :
  handle e app =
  match call_of e app with
  | Some c =>
      match run_call c (manager app) with
      | inr (_, w) => inr (tt, board_of w)
      | inl ex => inl ex
      end
  | None => inr (tt, app)
  end.
Proof.
  destruct e as [entry_text dt | f i j answer]; cbn [handle call_of].
  - unfold confirm. destruct (KanbanApp.strip entry_text) as [|c r]; [done |].
    unfold bind_ui, call_manager. cbn [run_call]. rewrite add_task_eq.
    cbv beta iota zeta. by rewrite view_refresh_board_eq.
  - destruct (winfo_children f app !! i) as [c|]; [| done].
    destruct (buttons c !! j) as [[text tid new_status | tid]|]; [| | done];
      cbn [command run_call].
    + unfold move_task, bind_ui, call_manager. rewrite update_task_status_eq.
      cbv beta iota zeta. by rewrite view_refresh_board_eq.
    + destruct answer; [| done]. unfold delete_task, bind_ui, call_manager.
      rewrite delete_task_eq. cbv beta iota zeta. by rewrite view_refresh_board_eq.
Qed.

Lemma shown_card app f i c :
  shows_store app -> winfo_children f app !! i = Some c ->
  exists task, task ∈ tasks (manager app) /\
               Task.status task = frame_status f /\
               c = card_of (frame_status f) task.
Proof.
  intros Hshows Hi. rewrite (Hshows f), list_lookup_fmap in Hi.
  destruct (filter _ (tasks (manager app)) !! i) as [task|] eqn:Htask; [| done].
  injection Hi as <-. exists task.
  apply list_elem_of_lookup_2, list_elem_of_filter in Htask as [Hst Hin]. done.
Qed.

(** The buttons of a card: moves to the other columns, and the deletion,
    all with the id of the task of the card. *)
Lemma button_of_card f task j b :
  buttons (card_of (frame_status f) task) !! j = Some b ->
  (exists target, b = MoveButton (KanbanApp.column_name target) (Task.id task)
                                 (KanbanApp.column_name target) /\
                  KanbanApp.column_name target <> frame_status f) \/
  b = DeleteButton (Task.id task).
Proof.
  intros Hj. apply list_elem_of_lookup_2 in Hj.
  destruct f; cbn in Hj;
    repeat (apply elem_of_cons in Hj as [-> | Hj]);
    try (by apply elem_of_nil in Hj); try (by right); left;
    [exists KanbanApp.Doing | exists KanbanApp.Done | exists KanbanApp.ToDo
     | exists KanbanApp.Done | exists KanbanApp.ToDo | exists KanbanApp.Doing]; done.
Qed.

Lemma call_of_ok e app c :
  shows_store app -> call_of e app = Some c -> call_status_ok c.
Proof.
  intros Hshows. destruct e as [entry_text dt | f i j answer]; cbn [call_of].
  - destruct (KanbanApp.strip entry_text); [done |]. intros [= <-].
    cbn. unfold statuses. repeat constructor.
  - destruct (winfo_children f app !! i) as [cd|] eqn:Hi; [| done].
    destruct (shown_card app f i cd Hshows Hi) as (task & _ & _ & ->).
    destruct (buttons _ !! j) as [b|] eqn:Hj; [| done].
    apply button_of_card in Hj as [(target & -> & _) | ->].
    + intros [= <-]. cbn. unfold statuses. destruct target; repeat constructor.
    + destruct answer; [| done]. by intros [= <-].
Qed.

Lemma call_of_title_ok e app title status date_str :
  call_of e app = Some (AddTask title status date_str) -> title_ok title.
Proof.
  destruct e as [entry_text dt | f i j answer]; cbn [call_of].
  - destruct (KanbanApp.strip entry_text) as [|c r] eqn:Hs; [done |]. intros [= <- _ _].
    by eapply strip_title_ok.
  - destruct (winfo_children f app !! i) as [cd|]; [| done].
    destruct (buttons cd !! j) as [[]|]; [done | | done]. by destruct answer.
Qed.

Lemma run_call_titles_ok c w w' :
  (forall title status date_str, c = AddTask title status date_str -> title_ok title) ->
  Forall (fun task => title_ok (Task.title task)) (tasks w) ->
  run_call c w = inr (tt, w') ->
  Forall (fun task => title_ok (Task.title task)) (tasks w').
Proof.
  intros Hc Hall. destruct c as [title status date_str|task_id new_status|task_id];
    cbn [run_call].
  - rewrite add_task_eq. intros [= <-]. cbn [tasks]. apply Forall_app. split; [done |].
    constructor; [| constructor]. cbn [Task.title]. by eapply Hc.
  - rewrite update_task_status_eq. intros [= <-]. cbn [tasks].
    rewrite set_first_status_find.
    destruct (list_find _ (tasks w)) as [[i x]|] eqn:Hfind; [| done].
    apply list_find_Some in Hfind as (Hi & _ & _).
    apply Forall_insert; [done |].
    apply (proj1 (Forall_lookup _ _) Hall) in Hi. done.
  - rewrite delete_task_eq. intros [= <-]. cbn [tasks].
    apply Forall_forall. intros task Hin.
    apply list_elem_of_filter in Hin as [_ Hin].
    by apply (proj1 (Forall_forall _ _) Hall).
Qed.

(** One event keeps the board and the store in order, and does not raise. *)
Lemma handle_keeps e app :
  shows_store app -> store_ok (manager app) ->
  exists app', handle e app = inr (tt, app') /\
               shows_store app' /\ store_ok (manager app').
Proof.
  intros Hshows (Hst & Hti & Hsync). rewrite handle_call_of.
  destruct (call_of e app) as [c|] eqn:Hc; [| by exists app].
  destruct (run_call_total c (manager app)) as [w' Hrun]. rewrite Hrun.
  exists (board_of w'). split; [done |]. split; [apply board_of_shows |].
  cbn [board_of manager].
  destruct (run_call_statuses_ok c _ _ (call_of_ok _ _ _ Hshows Hc) Hst Hrun) as [Hst' Hsync'].
  split; [done |]. split; [| done].
  eapply run_call_titles_ok; [| exact Hti | exact Hrun].
  intros title status date_str ->. by eapply call_of_title_ok.
Qed.

Lemma mainloop_keeps es : forall app,
  shows_store app -> store_ok (manager app) ->
  exists app', mainloop es app = inr (tt, app') /\
               shows_store app' /\ store_ok (manager app').
Proof.
  induction es as [|e es IH]; intros app Hshows Hok; [by exists app |].
  cbn [mainloop]. unfold bind_ui.
  destruct (handle_keeps e app Hshows Hok) as (app1 & -> & Hshows1 & Hok1).
  by apply IH.
Qed.

Lemma new_eq app : new app = inr (tt, board_of (manager app)).
Proof.
  unfold new, bind_ui, create_status_column. cbv beta iota.
  rewrite view_refresh_board_eq. by destruct app.
Qed.

Lemma main_eq es file :
  main es (start file) =
  match init (mkWorld [] file) with
  | inr (_, w) => mainloop es (board_of w)
  | inl ex => inl ex
  end.
Proof.
  unfold main, bind_ui, call_manager, start. cbn [manager].
  destruct (init (mkWorld [] file)) as [ex|[[] w]]; [done |].
  by rewrite new_eq.
Qed.

Lemma main_keeps es file :
  file_ok file ->
  exists app, main es (start file) = inr (tt, app) /\
              shows_store app /\ store_ok (manager app).
Proof.
  intros (w & <- & Hok). rewrite main_eq.
  rewrite (init_in_sync w []) by apply Hok.
  apply mainloop_keeps; [apply board_of_shows | done].
Qed.

Lemma runs_keeps sessions : forall file,
  file_ok file -> exists file', runs sessions file = inr file' /\ file_ok file'.
Proof.
  induction sessions as [|es sessions IH]; intros file Hfile; [by exists file |].
  cbn [runs]. destruct (main_keeps es file Hfile) as (app & -> & _ & Hok).
  apply IH. by exists (manager app).
Qed.

Lemma file_ok_None : file_ok None.
Proof.
  exists fresh_world. split; [done |]. split; [constructor |]. split; [constructor | by left].
Qed.

Lemma shows_store_board_of app : shows_store app -> app = board_of (manager app).
Proof.
  intros Hshows. destruct app as [w a b c]. unfold board_of, cards_for. cbn [manager].
  pose proof (Hshows todo_frame) as Ha. pose proof (Hshows doing_frame) as Hb.
  pose proof (Hshows done_frame) as Hc. cbn in Ha, Hb, Hc. by rewrite <- Ha, <- Hb, <- Hc.
Qed.

Lemma three_columns_length l :
  (length (filter (fun task => Task.status task = "To do") l) +
   length (filter (fun task => Task.status task = "Doing") l) +
   length (filter (fun task => Task.status task = "Done") l) =
   length (filter (fun task => Task.status task ∈ statuses) l))%nat.
Proof.
  induction l as [|x l IH]; [done |]. rewrite !filter_cons.
  destruct (decide (Task.status x ∈ statuses)) as [Hin | Hnot].
  - unfold statuses in Hin.
    repeat (apply elem_of_cons in Hin as [Hin | Hin]); [| | | by apply elem_of_nil in Hin];
      rewrite Hin; cbn [decide]; repeat case_decide; try discriminate; try done;
      cbn [length]; lia.
  - repeat case_decide;
      try (exfalso; apply Hnot; unfold statuses;
           match goal with H : Task.status x = _ |- _ => rewrite H end;
           repeat constructor);
      done.
Qed.

Lemma frame_status_frame_of target :
  frame_status (frame_of target) = KanbanApp.column_name target.
Proof. by destruct target. Qed.

Lemma frame_status_inj f g : frame_status f = frame_status g -> f = g.
Proof. by destruct f, g. Qed.

Lemma length_filter_insert_out {A : Type} (P : A -> Prop) `{!forall x, Decision (P x)}
    (l : list A) (k : nat) (x x' : A) :
  l !! k = Some x -> P x -> ~ P x' ->
  S (length (filter P (<[k := x']> l))) = length (filter P l).
Proof.
  intros Hk Hx Hx'. pose proof (lookup_lt_Some _ _ _ Hk) as Hlt.
  rewrite insert_take_drop by done.
  rewrite <- (take_drop_middle l k x Hk) at 3.
  rewrite !filter_app, filter_cons_False, filter_cons_True, !length_app by done.
  cbn [length]. lia.
Qed.

Lemma length_filter_insert_in {A : Type} (P : A -> Prop) `{!forall x, Decision (P x)}
    (l : list A) (k : nat) (x x' : A) :
  l !! k = Some x -> ~ P x -> P x' ->
  length (filter P (<[k := x']> l)) = S (length (filter P l)).
Proof.
  intros Hk Hx Hx'. pose proof (lookup_lt_Some _ _ _ Hk) as Hlt.
  rewrite insert_take_drop by done.
  rewrite <- (take_drop_middle l k x Hk) at 3.
  rewrite !filter_app, !filter_cons, !length_app.
  destruct (decide (P x)), (decide (P x')); try tauto. cbn [length]. lia.
Qed.

Lemma filter_insert_same {A : Type} (P : A -> Prop) `{!forall x, Decision (P x)}
    (l : list A) (k : nat) (x x' : A) :
  l !! k = Some x -> ~ P x -> ~ P x' -> filter P (<[k := x']> l) = filter P l.
Proof.
  intros Hk Hx Hx'. pose proof (lookup_lt_Some _ _ _ Hk) as Hlt.
  rewrite insert_take_drop by done.
  rewrite <- (take_drop_middle l k x Hk) at 3.
  by rewrite !filter_app, !filter_cons_False.
Qed.

Lemma filter_delete_out {A : Type} (P : A -> Prop) `{!forall x, Decision (P x)}
    (l : list A) (k : nat) (x : A) :
  l !! k = Some x -> ~ P x -> filter P (delete k l) = filter P l.
Proof.
  intros Hk Hx. rewrite delete_take_drop.
  rewrite <- (take_drop_middle l k x Hk) at 3.
  by rewrite !filter_app, filter_cons_False.
Qed.

Lemma length_filter_delete_in {A : Type} (P : A -> Prop) `{!forall x, Decision (P x)}
    (l : list A) (k : nat) (x : A) :
  l !! k = Some x -> P x -> S (length (filter P (delete k l))) = length (filter P l).
Proof.
  intros Hk Hx. rewrite delete_take_drop.
  rewrite <- (take_drop_middle l k x Hk) at 3.
  rewrite !filter_app, filter_cons_True, !length_app by done. cbn [length]. lia.
Qed.

Lemma filter_other_ids_delete (l : list Task.t) (k : nat) (task : Task.t) :
  NoDup (Task.id <$> l) -> l !! k = Some task ->
  filter (fun t => Task.id t <> Task.id task) l = delete k l.
Proof.
  intros Hnd Hk. rewrite delete_take_drop.
  rewrite <- (take_drop_middle l k task Hk) in Hnd |- * at 1.
  rewrite fmap_app, fmap_cons in Hnd.
  apply NoDup_app in Hnd as (_ & Hleft & Hright).
  apply NoDup_cons in Hright as [Hright _].
  rewrite filter_app, filter_cons_False by (cbn; tauto).
  rewrite !filter_all; [done | |].
  - apply Forall_forall. intros y Hy Heq. apply Hright. rewrite <- Heq.
    by apply list_elem_of_fmap_2.
  - apply Forall_forall. intros y Hy Heq. apply (Hleft (Task.id y)).
    + by apply list_elem_of_fmap_2.
    + rewrite Heq. by left.
Qed.

End KanbanViewFacts.

(** X11. The program never raises, however often it is run and whatever
    the user does: started without a file, every run loads what the run
    before it saved, and every event returns. (Reading and writing the
    file are taken to succeed.) *)
Theorem program_never_raises
    (sessions : list (list KanbanView.event)) (es : list KanbanView.event) :
  exists file app,
    KanbanView.runs sessions None = inr file /\
    KanbanView.main es (KanbanView.start file) = inr (tt, app).
Proof.
  destruct (KanbanViewFacts.runs_keeps sessions None KanbanViewFacts.file_ok_None)
    as (file & Hruns & Hfile).
  destruct (KanbanViewFacts.main_keeps es file Hfile) as (app & Hmain & _).
  by exists file, app.
Qed.

(** X12. In every state that the program reaches, over any number of
    runs that started without a file, every task has one of the three
    status names, its title is not empty and has no white space at either
    end, and the file holds exactly the collection. *)
Theorem program_keeps_store_ok
    (sessions : list (list KanbanView.event)) (es : list KanbanView.event)
    (file : option string) (app : KanbanView.App) :
  KanbanView.runs sessions None = inr file ->
  KanbanView.main es (KanbanView.start file) = inr (tt, app) ->
  statuses_ok (tasks (KanbanView.manager app)) /\
  Forall (fun task => title_ok (Task.title task)) (tasks (KanbanView.manager app)) /\
  file_in_sync (KanbanView.manager app).
Proof.
  intros Hruns Hmain.
  destruct (KanbanViewFacts.runs_keeps sessions None KanbanViewFacts.file_ok_None)
    as (file' & Hruns' & Hfile).
  assert (file' = file) as -> by congruence.
  destruct (KanbanViewFacts.main_keeps es file Hfile) as (app' & Hmain' & _ & Hok).
  assert (app' = app) as -> by congruence. exact Hok.
Qed.

Lemma program_keeps_store_ok_witness :
  exists file app,
    KanbanView.runs [[KanbanView.Confirm " a " "2024-01-01"]] None = inr file /\
    KanbanView.main [KanbanView.Press KanbanView.todo_frame 0 0 false]
      (KanbanView.start file) = inr (tt, app) /\
    tasks (KanbanView.manager app) = [Task.mk 1 "a" "Doing" "2024-01-01"] /\
    statuses_ok (tasks (KanbanView.manager app)).
Proof.
  eexists _, _. split; [vm_compute; reflexivity |]. split; [vm_compute; reflexivity |].
  split; [reflexivity |].
  eapply (program_keeps_store_ok [[KanbanView.Confirm " a " "2024-01-01"]]
            [KanbanView.Press KanbanView.todo_frame 0 0 false]);
    vm_compute; reflexivity.
Defined.

(** X13. The board shows the store, each task once: in every state that
    the program reaches, each frame holds the cards of the tasks with its
    status, in the order of the collection, and the board has as many
    cards as the collection has tasks. *)
Theorem board_shows_every_task_once
    (sessions : list (list KanbanView.event)) (es : list KanbanView.event)
    (file : option string) (app : KanbanView.App) :
  KanbanView.runs sessions None = inr file ->
  KanbanView.main es (KanbanView.start file) = inr (tt, app) ->
  KanbanView.shows_store app /\
  KanbanView.card_count app = length (tasks (KanbanView.manager app)).
Proof.
  intros Hruns Hmain.
  destruct (KanbanViewFacts.runs_keeps sessions None KanbanViewFacts.file_ok_None)
    as (file' & Hruns' & Hfile).
  assert (file' = file) as -> by congruence.
  destruct (KanbanViewFacts.main_keeps es file Hfile) as (app' & Hmain' & Hshows & Hok).
  assert (app' = app) as -> by congruence. split; [done |].
  rewrite (KanbanViewFacts.shows_store_board_of app Hshows).
  unfold KanbanView.card_count, KanbanView.board_of, KanbanView.cards_for.
  cbn [KanbanView.todo_cards KanbanView.doing_cards KanbanView.done_cards
       KanbanView.manager].
  rewrite !length_fmap, KanbanViewFacts.three_columns_length.
  destruct Hok as (Hst & _). by rewrite filter_all.
Qed.

Lemma board_shows_every_task_once_witness :
  exists file app,
    KanbanView.runs [[KanbanView.Confirm " a " "2024-01-01"]] None = inr file /\
    KanbanView.main [KanbanView.Confirm "b" "2024-01-02"]
      (KanbanView.start file) = inr (tt, app) /\
    KanbanView.card_count app = 2%nat.
Proof.
  eexists _, _. split; [vm_compute; reflexivity |]. split; [vm_compute; reflexivity |].
  eapply (board_shows_every_task_once [[KanbanView.Confirm " a " "2024-01-01"]]
            [KanbanView.Confirm "b" "2024-01-02"]);
    vm_compute; reflexivity.
Defined.

(** X14. Closing the program and starting it again brings back the same
    board: the store and the cards of all three frames are as they were. *)
Theorem restart_shows_same_board
    (sessions : list (list KanbanView.event)) (es : list KanbanView.event)
    (file : option string) (app : KanbanView.App) :
  KanbanView.runs sessions None = inr file ->
  KanbanView.main es (KanbanView.start file) = inr (tt, app) ->
  KanbanView.main [] (KanbanView.start (data_file (KanbanView.manager app))) =
    inr (tt, app).
Proof.
  intros Hruns Hmain.
  destruct (KanbanViewFacts.runs_keeps sessions None KanbanViewFacts.file_ok_None)
    as (file' & Hruns' & Hfile).
  assert (file' = file) as -> by congruence.
  destruct (KanbanViewFacts.main_keeps es file Hfile) as (app' & Hmain' & Hshows & Hok).
  assert (app' = app) as -> by congruence.
  rewrite KanbanViewFacts.main_eq, (init_in_sync (KanbanView.manager app) []) by apply Hok.
  cbn [KanbanView.mainloop]. unfold KanbanView.ret_ui.
  by rewrite <- (KanbanViewFacts.shows_store_board_of app Hshows).
Qed.

Lemma restart_shows_same_board_witness :
  exists file app,
    KanbanView.runs [] None = inr file /\
    KanbanView.main [KanbanView.Confirm "a" "2024-01-01"]
      (KanbanView.start file) = inr (tt, app) /\
    KanbanView.main [] (KanbanView.start (data_file (KanbanView.manager app))) =
      inr (tt, app).
Proof.
  eexists _, _. split; [vm_compute; reflexivity |]. split; [vm_compute; reflexivity |].
  eapply (restart_shows_same_board [] [KanbanView.Confirm "a" "2024-01-01"]);
    vm_compute; reflexivity.
Defined.

(** X15. A task whose status is none of the three names is on no frame:
    whatever the store holds, [refresh_board] leaves it alone and puts as
    many cards on the board as there are tasks with one of the three
    names. *)
Theorem refresh_board_hides_other_statuses (app : KanbanView.App) :
  exists app',
    KanbanView.refresh_board app = inr (tt, app') /\
    KanbanView.manager app' = KanbanView.manager app /\
    KanbanView.shows_store app' /\
    KanbanView.card_count app' =
      length (filter (fun task => Task.status task ∈ statuses)
                     (tasks (KanbanView.manager app))).
Proof.
  eexists. split; [apply KanbanViewFacts.view_refresh_board_eq |].
  split; [done |]. split; [apply KanbanViewFacts.board_of_shows |].
  unfold KanbanView.card_count, KanbanView.board_of, KanbanView.cards_for.
  cbn [KanbanView.todo_cards KanbanView.doing_cards KanbanView.done_cards].
  rewrite !length_fmap. apply KanbanViewFacts.three_columns_length.
Qed.



(** X16. Every button on the board belongs to a task that is in the store
    and in the column of the card: it carries the id of that task, the
    card carries its title and date, and a move button never leads to the
    column that the card is in. *)
Theorem buttons_belong_to_shown_tasks
    (app : KanbanView.App) (f : KanbanView.frame) (i j : nat)
    (c : KanbanView.card) (b : KanbanView.button) :
  KanbanView.shows_store app ->
  KanbanView.winfo_children f app !! i = Some c ->
  KanbanView.buttons c !! j = Some b ->
  exists task,
    task ∈ tasks (KanbanView.manager app) /\
    Task.status task = KanbanView.frame_status f /\
    KanbanView.title_label c = Task.title task /\
    KanbanView.date_label c = "Date: " +:+ Task.date task /\
    (b = KanbanView.DeleteButton (Task.id task) \/
     exists target,
       target <> f /\
       b = KanbanView.MoveButton (KanbanView.frame_status target) (Task.id task)
                                 (KanbanView.frame_status target)).
Proof.
  intros Hshows Hi Hj.
  destruct (KanbanViewFacts.shown_card app f i c Hshows Hi) as (task & Hin & Hst & ->).
  exists task. repeat (split; [done |]).
  apply KanbanViewFacts.button_of_card in Hj as [(target & -> & Hne) | ->]; [| by left].
  right. exists (KanbanView.frame_of target).
  rewrite KanbanViewFacts.frame_status_frame_of. split; [| done].
  intros <-. by rewrite KanbanViewFacts.frame_status_frame_of in Hne.
Qed.

Lemma buttons_belong_to_shown_tasks_witness :
  exists task,
    task ∈ two_tasks /\
    KanbanView.MoveButton "Done" 2 "Done" =
      KanbanView.MoveButton "Done" (Task.id task) "Done".
Proof.
  destruct (buttons_belong_to_shown_tasks
              (KanbanView.board_of (mkWorld two_tasks None)) KanbanView.doing_frame 0 1
              (KanbanView.card_of "Doing" (Task.mk 2 "b" "Doing" "2024-01-02"))
              (KanbanView.MoveButton "Done" 2 "Done"))
    as (task & Hin & _ & _ & _ & [Hb | (target & _ & Hb)]);
    [apply KanbanViewFacts.board_of_shows | reflexivity | reflexivity | discriminate Hb |].
  exists task. split; [exact Hin |].
  injection Hb as _ Hid _. by rewrite <- Hid.
Defined.

(** X17. With distinct ids, a move button moves the card it is on.
    Pressing it gives the task of the card the status of the target
    column and leaves every other task alone; afterwards the board shows
    the store again, the card of the task is in the target frame, the
    frame it was in has one card less, the target frame one more, and the
    third frame is as before. *)
Theorem press_move_button_moves_card
    (app : KanbanView.App) (f : KanbanView.frame) (i j : nat) (c : KanbanView.card)
    (text : string) (tid : Z) (s : string) (answer : bool) :
  KanbanView.shows_store app ->
  NoDup (Task.id <$> tasks (KanbanView.manager app)) ->
  KanbanView.winfo_children f app !! i = Some c ->
  KanbanView.buttons c !! j = Some (KanbanView.MoveButton text tid s) ->
  exists app' k task target,
    KanbanView.handle (KanbanView.Press f i j answer) app = inr (tt, app') /\
    tasks (KanbanView.manager app) !! k = Some task /\
    c = KanbanView.card_of (KanbanView.frame_status f) task /\
    Task.id task = tid /\
    s = KanbanView.frame_status target /\
    target <> f /\
    tasks (KanbanView.manager app') =
      <[k := Task.set_status s task]> (tasks (KanbanView.manager app)) /\
    KanbanView.shows_store app' /\
    KanbanView.card_of s (Task.set_status s task) ∈ KanbanView.winfo_children target app' /\
    S (length (KanbanView.winfo_children f app')) =
      length (KanbanView.winfo_children f app) /\
    length (KanbanView.winfo_children target app') =
      S (length (KanbanView.winfo_children target app)) /\
    (forall g, g <> f -> g <> target ->
       KanbanView.winfo_children g app' = KanbanView.winfo_children g app).
Proof.
  intros Hshows Hnd Hi Hj.
  destruct (KanbanViewFacts.shown_card app f i c Hshows Hi) as (task & Hin & Hst & ->).
  pose proof Hj as Hb.
  apply KanbanViewFacts.button_of_card in Hb as [(tg & Hb & Hne) | Hb]; [| done].
  injection Hb as -> -> ->.
  apply list_elem_of_lookup_1 in Hin as [k Hk].
  pose proof (list_find_distinct_ids _ _ k task Hnd Hk eq_refl) as Hfind.
  pose proof (lookup_lt_Some _ _ _ Hk) as Hlt.
  set (s := KanbanApp.column_name tg) in *.
  set (task' := Task.set_status s task).
  set (l := tasks (KanbanView.manager app)) in *.
  assert (KanbanView.handle (KanbanView.Press f i j answer) app =
          inr (tt, KanbanView.board_of (mkWorld (<[k := task']> l) (saved (<[k := task']> l)))))
    as Hhandle.
  { rewrite KanbanViewFacts.handle_call_of. cbn [KanbanView.call_of]. rewrite Hi, Hj.
    cbn [run_call]. rewrite update_task_status_eq. cbn zeta.
    rewrite set_first_status_find. fold l. by rewrite Hfind. }
  assert (KanbanView.frame_status (KanbanView.frame_of tg) = s) as Htg
    by apply KanbanViewFacts.frame_status_frame_of.
  assert (Task.status task' = s) as Hst' by done.
  eexists _, k, task, (KanbanView.frame_of tg).
  split; [exact Hhandle |]. split; [done |]. split; [done |]. split; [done |].
  split; [done |]. split; [intros <-; congruence |]. split; [done |].
  split; [apply KanbanViewFacts.board_of_shows |].
  rewrite !(KanbanViewFacts.board_of_shows _ _), !(Hshows _). cbn [KanbanView.manager tasks].
  fold l. rewrite !length_fmap, Htg.
  split; [| split; [| split]].
  - apply list_elem_of_fmap_2, list_elem_of_filter. split; [done |].
    apply list_elem_of_lookup. exists k. by apply list_lookup_insert_eq.
  - apply (KanbanViewFacts.length_filter_insert_out _ l k task task'); [done | done |].
    rewrite Hst'. congruence.
  - apply (KanbanViewFacts.length_filter_insert_in _ l k task task'); [done | | done].
    congruence.
  - intros g Hgf Hgt.
    rewrite (KanbanViewFacts.board_of_shows _ g), (Hshows g). cbn [KanbanView.manager tasks].
    fold l. f_equal.
    apply (KanbanViewFacts.filter_insert_same _ l k task task'); [done | |].
    + rewrite Hst. intros Heq. by apply KanbanViewFacts.frame_status_inj in Heq.
    + rewrite Hst', <- Htg. intros Heq. by apply KanbanViewFacts.frame_status_inj in Heq.
Qed.

Lemma press_move_button_moves_card_witness :
  exists app',
    KanbanView.handle (KanbanView.Press KanbanView.todo_frame 0 1 false)
      (KanbanView.board_of (mkWorld two_tasks None)) = inr (tt, app') /\
    length (KanbanView.done_cards app') = 1%nat.
Proof.
  destruct (press_move_button_moves_card
              (KanbanView.board_of (mkWorld two_tasks None)) KanbanView.todo_frame 0 1
              (KanbanView.card_of "To do" (Task.mk 1 "a" "To do" "2024-01-01"))
              "Done" 1 "Done" false)
    as (app' & k & task & target & Hhandle & _ & _ & _ & Htarget & _ & _ & _ & _ & _ & Hlen & _);
    [apply KanbanViewFacts.board_of_shows
    | repeat constructor; cbn; rewrite ?elem_of_cons, ?elem_of_nil; intuition discriminate
    | reflexivity | reflexivity |].
  exists app'. split; [exact Hhandle |].
  assert (target = KanbanView.done_frame) as -> by (by destruct target).
  exact Hlen.
Defined.

(** X18. With distinct ids, the delete button deletes the task of the
    card it is on, once the user has said yes: that task alone leaves the
    collection, the frame of the card has one card less and the other
    frames are as before. When the user says no, nothing changes. *)
Theorem press_delete_button_deletes_card
    (app : KanbanView.App) (f : KanbanView.frame) (i j : nat) (c : KanbanView.card)
    (tid : Z) :
  KanbanView.shows_store app ->
  NoDup (Task.id <$> tasks (KanbanView.manager app)) ->
  KanbanView.winfo_children f app !! i = Some c ->
  KanbanView.buttons c !! j = Some (KanbanView.DeleteButton tid) ->
  KanbanView.handle (KanbanView.Press f i j false) app = inr (tt, app) /\
  exists app' k task,
    KanbanView.handle (KanbanView.Press f i j true) app = inr (tt, app') /\
    tasks (KanbanView.manager app) !! k = Some task /\
    c = KanbanView.card_of (KanbanView.frame_status f) task /\
    Task.id task = tid /\
    tasks (KanbanView.manager app') = delete k (tasks (KanbanView.manager app)) /\
    KanbanView.shows_store app' /\
    S (length (KanbanView.winfo_children f app')) =
      length (KanbanView.winfo_children f app) /\
    (forall g, g <> f ->
       KanbanView.winfo_children g app' = KanbanView.winfo_children g app).
Proof.
  intros Hshows Hnd Hi Hj. split.
  { rewrite KanbanViewFacts.handle_call_of. cbn [KanbanView.call_of]. by rewrite Hi, Hj. }
  destruct (KanbanViewFacts.shown_card app f i c Hshows Hi) as (task & Hin & Hst & ->).
  pose proof Hj as Hb.
  apply KanbanViewFacts.button_of_card in Hb as [(tg & Hb & Hne) | Hb]; [done |].
  injection Hb as ->.
  apply list_elem_of_lookup_1 in Hin as [k Hk].
  set (l := tasks (KanbanView.manager app)) in *.
  assert (KanbanView.handle (KanbanView.Press f i j true) app =
          inr (tt, KanbanView.board_of (mkWorld (delete k l) (saved (delete k l)))))
    as Hhandle.
  { rewrite KanbanViewFacts.handle_call_of. cbn [KanbanView.call_of]. rewrite Hi, Hj.
    cbn [run_call]. rewrite delete_task_eq. cbn zeta. fold l.
    by rewrite (KanbanViewFacts.filter_other_ids_delete l k task Hnd Hk). }
  eexists _, k, task. split; [exact Hhandle |]. repeat (split; [done |]).
  split; [apply KanbanViewFacts.board_of_shows |].
  rewrite !(KanbanViewFacts.board_of_shows _ _), !(Hshows _). cbn [KanbanView.manager tasks].
  fold l. rewrite !length_fmap. split.
  - by apply (KanbanViewFacts.length_filter_delete_in _ l k task).
  - intros g Hgf.
    rewrite (KanbanViewFacts.board_of_shows _ g), (Hshows g). cbn [KanbanView.manager tasks].
    fold l. f_equal. apply (KanbanViewFacts.filter_delete_out _ l k task); [done |].
    rewrite Hst. intros Heq. by apply KanbanViewFacts.frame_status_inj in Heq.
Qed.

Lemma press_delete_button_deletes_card_witness :
  exists app',
    KanbanView.handle (KanbanView.Press KanbanView.todo_frame 0 2 true)
      (KanbanView.board_of (mkWorld two_tasks None)) = inr (tt, app') /\
    length (KanbanView.todo_cards app') = 0%nat.
Proof.
  destruct (press_delete_button_deletes_card
              (KanbanView.board_of (mkWorld two_tasks None)) KanbanView.todo_frame 0 2
              (KanbanView.card_of "To do" (Task.mk 1 "a" "To do" "2024-01-01")) 1)
    as (_ & app' & k & task & Hhandle & _ & _ & _ & _ & _ & Hlen & _);
    [apply KanbanViewFacts.board_of_shows
    | repeat constructor; cbn; rewrite ?elem_of_cons, ?elem_of_nil; intuition discriminate
    | reflexivity | reflexivity |].
  exists app'. split; [exact Hhandle |].
  cbn in Hlen. by injection Hlen.
Defined.

(** X20. Confirming the dialog with a title that is not blank puts one
    new card at the end of the "To do" frame, with the stripped title,
    the date after "Date: ", the buttons to "Doing" and "Done" and the
    delete button, all for the new id, and leaves the other two frames as
    they are. With a blank title nothing changes. *)
Theorem confirm_adds_last_todo_card (app : KanbanView.App) (entry_text dt : string) :
  KanbanView.shows_store app ->
  (KanbanApp.strip entry_text = EmptyString ->
   KanbanView.handle (KanbanView.Confirm entry_text dt) app = inr (tt, app)) /\
  (KanbanApp.strip entry_text <> EmptyString ->
   exists app',
     KanbanView.handle (KanbanView.Confirm entry_text dt) app = inr (tt, app') /\
     KanbanView.todo_cards app' =
       KanbanView.todo_cards app ++
       [KanbanView.mkCard (KanbanApp.strip entry_text) ("Date: " +:+ dt)
          [KanbanView.MoveButton "Doing"
             (Z.of_nat (length (tasks (KanbanView.manager app))) + 1) "Doing";
           KanbanView.MoveButton "Done"
             (Z.of_nat (length (tasks (KanbanView.manager app))) + 1) "Done";
           KanbanView.DeleteButton
             (Z.of_nat (length (tasks (KanbanView.manager app))) + 1)]] /\
     KanbanView.doing_cards app' = KanbanView.doing_cards app /\
     KanbanView.done_cards app' = KanbanView.done_cards app).
Proof.
  intros Hshows. split.
  - intros Hblank. rewrite KanbanViewFacts.handle_call_of. cbn [KanbanView.call_of].
    by rewrite Hblank.
  - intros Hfull. rewrite KanbanViewFacts.handle_call_of. cbn [KanbanView.call_of].
    destruct (KanbanApp.strip entry_text) as [|c r]; [done |].
    cbn [run_call]. rewrite add_task_eq. cbn zeta. eexists. split; [reflexivity |].
    pose proof (Hshows KanbanView.todo_frame) as Ha.
    pose proof (Hshows KanbanView.doing_frame) as Hb.
    pose proof (Hshows KanbanView.done_frame) as Hc.
    cbn [KanbanView.winfo_children KanbanView.frame_status] in Ha, Hb, Hc.
    rewrite Ha, Hb, Hc.
    unfold KanbanView.board_of, KanbanView.cards_for.
    cbn [KanbanView.todo_cards KanbanView.doing_cards KanbanView.done_cards tasks].
    rewrite !filter_app, !fmap_app.
    rewrite filter_cons_True by done.
    rewrite !(filter_cons_False _ _ []) by (cbn; discriminate).
    cbn [filter list_filter fmap list_fmap]. rewrite !app_nil_r. done.
Qed.

Lemma confirm_adds_last_todo_card_witness :
  KanbanView.handle (KanbanView.Confirm "  " "2024-01-03")
    (KanbanView.board_of (mkWorld two_tasks None)) =
    inr (tt, KanbanView.board_of (mkWorld two_tasks None)) /\
  exists app',
    KanbanView.handle (KanbanView.Confirm " c " "2024-01-03")
      (KanbanView.board_of (mkWorld two_tasks None)) = inr (tt, app') /\
    length (KanbanView.todo_cards app') = 2%nat.
Proof.
  split.
  - destruct (confirm_adds_last_todo_card
                (KanbanView.board_of (mkWorld two_tasks None)) "  " "2024-01-03")
      as [Hblank _]; [apply KanbanViewFacts.board_of_shows |].
    apply Hblank. reflexivity.
  - destruct (confirm_adds_last_todo_card
                (KanbanView.board_of (mkWorld two_tasks None)) " c " "2024-01-03")
      as [_ Hfull]; [apply KanbanViewFacts.board_of_shows |].
    destruct Hfull as (app' & Hhandle & Htodo & _); [vm_compute; discriminate |].
    exists app'. split; [exact Hhandle |]. rewrite Htodo. reflexivity.
Defined.

(** ** A file that was cut short *)

Module JsonPrefix.
Import Json JsonFacts.

Lemma skip_ws_app p q c r :
  skip_ws p = String c r -> skip_ws (p +:+ q) = String c (r +:+ q).
Proof.
  induction p as [|a p IH]; [done |]. rewrite append_cons. cbn [skip_ws].
  destruct (is_ws a); [exact IH |]. by intros [= -> ->].
Qed.

Lemma cons_char_ext c res s r q :
  cons_char c res = Ok (s, r) ->
  forall res', (forall s', res = Ok (s', r) -> res' = Ok (s', r +:+ q)) ->
  cons_char c res' = Ok (s, r +:+ q).
Proof.
  intros H res' Hres. apply cons_char_Ok in H as (s' & -> & ->).
  by rewrite (Hres s' eq_refl).
Qed.

Lemma cons_char_Unsupported c res :
  cons_char c res = Unsupported -> res = Unsupported.
Proof. by destruct res as [[? ?]| | |]. Qed.

Lemma scanstring_ext n : forall p q,
  (String.length p <= n)%nat ->
  (forall s r, scanstring p = Ok (s, r) -> scanstring (p +:+ q) = Ok (s, r +:+ q)) /\
  (scanstring p = Unsupported -> scanstring (p +:+ q) = Unsupported).
Proof.
  induction n as [|n IH]; intros p q Hn.
  { destruct p; [done | cbn in Hn; lia]. }
  destruct p as [|c r]; [done |]. rewrite append_cons. cbn [scanstring String.length] in *.
  destruct (Ascii.eqb c quote); [split; [by intros s r0 [= <- <-] | done] |].
  destruct (Ascii.eqb c backslash).
  - destruct r as [|e r1]; [done |]. rewrite append_cons. cbn [String.length] in *.
    destruct (Ascii.eqb e "u").
    + destruct r1 as [|h1 [|h2 [|h3 [|h4 r2]]]]; try done.
      rewrite !append_cons. cbn [String.length] in *.
      destruct (hexval h1), (hexval h2), (hexval h3), (hexval h4); try done.
      destruct (_ <? 256)%N; [| done].
      destruct (IH r2 q ltac:(lia)) as [HOk HUn]. split.
      * intros s r0 H. apply cons_char_Ok in H as (s' & H & ->).
        by rewrite (HOk _ _ H).
      * intros H. apply cons_char_Unsupported in H. by rewrite (HUn H).
    + destruct (unescape e); [| done].
      destruct (IH r1 q ltac:(lia)) as [HOk HUn]. split.
      * intros s r0 H. apply cons_char_Ok in H as (s' & H & ->).
        by rewrite (HOk _ _ H).
      * intros H. apply cons_char_Unsupported in H. by rewrite (HUn H).
  - destruct (ord c <? 32)%N; [done |].
    destruct (IH r q ltac:(lia)) as [HOk HUn]. split.
    + intros s r0 H. apply cons_char_Ok in H as (s' & H & ->).
      by rewrite (HOk _ _ H).
    + intros H. apply cons_char_Unsupported in H. by rewrite (HUn H).
Qed.

Lemma scanstring_ext_Ok p q s r :
  scanstring p = Ok (s, r) -> scanstring (p +:+ q) = Ok (s, r +:+ q).
Proof. apply (scanstring_ext (String.length p) p q (Nat.le_refl _)). Qed.

Lemma scanstring_ext_Unsupported p q :
  scanstring p = Unsupported -> scanstring (p +:+ q) = Unsupported.
Proof. apply (scanstring_ext (String.length p) p q (Nat.le_refl _)). Qed.

Lemma after_ext lit : forall p q r,
  after lit p = Some r -> after lit (p +:+ q) = Some (r +:+ q).
Proof.
  induction lit as [|a lit IH]; intros p q r H.
  - by injection H as <-.
  - destruct p as [|b p]; [done |]. rewrite append_cons. cbn [after] in *.
    destruct (Ascii.eqb a b); [by apply IH | done].
Qed.

Lemma digits_ext p q u c r :
  digits p = (u, String c r) -> digits (p +:+ q) = (u, String c r +:+ q).
Proof.
  revert u. induction p as [|a p IH]; intros u; [done |].
  rewrite append_cons. cbn [digits].
  destruct (digit_of a) as [d|] eqn:Ha.
  - destruct (digits p) as [u' rest] eqn:Hp. intros [= <- ->].
    by rewrite (IH u' eq_refl).
  - intros [= <- <- <-]. by rewrite append_cons.
Qed.

Lemma intpart_ext p q u c r :
  intpart p = Some (u, String c r) -> intpart (p +:+ q) = Some (u, String c r +:+ q).
Proof.
  destruct p as [|a p]; [done |]. rewrite append_cons. cbn [intpart].
  destruct (Ascii.eqb a "0"); [by intros [= <- ->] |].
  destruct (digit_of a); [| done].
  destruct (digits p) as [u' rest] eqn:Hp. intros [= <- ->].
  by rewrite (digits_ext p q u' c r Hp).
Qed.

Lemma integer_ext p q i c r :
  integer p = Some (i, String c r) -> integer (p +:+ q) = Some (i, String c r +:+ q).
Proof.
  destruct p as [|a p]; [done |]. cbn [integer].
  rewrite append_cons. cbn [integer]. destruct (Ascii.eqb a "-").
  - destruct (intpart p) as [[u rest]|] eqn:Hp; [| done]. intros [= <- ->].
    by rewrite (intpart_ext p q u c r Hp).
  - rewrite <- append_cons.
    destruct (intpart (String a p)) as [[u rest]|] eqn:Hp; [| done]. intros [= <- ->].
    by rewrite (intpart_ext _ q u c r Hp).
Qed.

Lemma starts_with_digit_ext r q :
  starts_with_digit r = true -> starts_with_digit (r +:+ q) = true.
Proof. by destruct r. Qed.

Lemma has_frac_ext r q : has_frac r = true -> has_frac (r +:+ q) = true.
Proof.
  destruct r as [|c r]; [done |]. rewrite append_cons. cbn [has_frac].
  intros [-> H]%andb_prop. by rewrite (starts_with_digit_ext r q H).
Qed.

Lemma has_exp_ext r q : has_exp r = true -> has_exp (r +:+ q) = true.
Proof.
  destruct r as [|c r]; [done |]. rewrite append_cons. cbn [has_exp].
  intros [-> H]%andb_prop. cbn [andb].
  destruct r as [|c' r']; [done |]. rewrite append_cons.
  destruct (Ascii.eqb c' "-" || Ascii.eqb c' "+"); [| done].
  by apply starts_with_digit_ext.
Qed.

Lemma safe_rest_no_frac_exp r q :
  safe_rest r -> has_frac (r +:+ q) = false /\ has_exp (r +:+ q) = false.
Proof.
  destruct r as [|c r]; [done |]. rewrite append_cons. cbn [safe_rest has_frac has_exp].
  unfold stops_number. intros H%negb_true_iff.
  apply orb_false_elim in H as [H HE]. apply orb_false_elim in H as [H He].
  apply orb_false_elim in H as [_ Hdot]. by rewrite Hdot, He, HE.
Qed.

Lemma number_ext p q :
  (forall v r, number p = Some (Ok (v, r)) -> safe_rest r ->
               number (p +:+ q) = Some (Ok (v, r +:+ q))) /\
  (number p = Some Unsupported -> number (p +:+ q) = Some Unsupported).
Proof.
  unfold number. destruct (integer p) as [[i rest]|] eqn:Hp; [| done]. split.
  - intros v r H Hsafe. destruct (has_frac rest || has_exp rest); [done |].
    injection H as <- <-. destruct rest as [|c rest]; [done |].
    rewrite (integer_ext p q i c rest Hp).
    destruct (safe_rest_no_frac_exp (String c rest) q Hsafe) as [-> ->]. done.
  - intros H. destruct (has_frac rest || has_exp rest) eqn:Hfe; [| done].
    destruct rest as [|c rest]; [done |].
    rewrite (integer_ext p q i c rest Hp).
    apply orb_prop in Hfe as [Hf | He].
    + by rewrite (has_frac_ext _ q Hf).
    + rewrite (has_exp_ext _ q He). by rewrite orb_true_r.
Qed.

Lemma after_spec lit : forall p r, after lit p = Some r -> p = lit +:+ r.
Proof.
  induction lit as [|a lit IH]; intros p r H.
  - by injection H as <-.
  - destruct p as [|b p]; [done |]. cbn [after] in H.
    destruct (Ascii.eqb_spec a b) as [<- |]; [| done].
    rewrite append_cons. f_equal. by apply IH.
Qed.

Lemma number_head p res :
  number p = Some res ->
  exists c p', p = String c p' /\ (c = "-"%char \/ is_digit c = true).
Proof.
  unfold number, integer. destruct p as [|c p']; [done |]. intros H.
  exists c, p'. split; [done |].
  destruct (Ascii.eqb_spec c "-") as [-> | Hc]; [by left | right].
  unfold intpart, is_digit in *.
  destruct (Ascii.eqb_spec c "0") as [-> | H0]; [done |].
  by destruct (digit_of c).
Qed.

Lemma number_head_not_literal c s :
  (c = "-"%char \/ is_digit c = true) ->
  after "null" (String c s) = None /\ after "true" (String c s) = None /\
  after "false" (String c s) = None.
Proof.
  intros Hc.
  destruct c as [[] [] [] [] [] [] [] []];
    try (exfalso; destruct Hc as [Hc | Hc]; discriminate Hc); done.
Qed.

Lemma scan_once_atom fuel c r :
  starts_container (String c r) = false ->
  scan_once (S fuel) (String c r) = scan_atom (String c r).
Proof.
  cbn [starts_container]. intros H.
  apply orb_false_elim in H as [H H3]. apply orb_false_elim in H as [H1 H2].
  rewrite scan_once_S. by rewrite H1, H2, H3.
Qed.

Lemma scan_atom_ext p q :
  (forall v r, scan_atom p = Ok (v, r) -> safe_rest r ->
               scan_atom (p +:+ q) = Ok (v, r +:+ q)) /\
  (scan_atom p = Unsupported -> scan_atom (p +:+ q) = Unsupported).
Proof.
  unfold scan_atom at 1 3.
  destruct (after "null" p) as [r0|] eqn:Hnull.
  { apply after_spec in Hnull as ->. split; [| done].
    intros v r [= <- <-] _. by rewrite append_assoc. }
  destruct (after "true" p) as [r0|] eqn:Htrue.
  { apply after_spec in Htrue as ->. split; [| done].
    intros v r [= <- <-] _. by rewrite append_assoc. }
  destruct (after "false" p) as [r0|] eqn:Hfalse.
  { apply after_spec in Hfalse as ->. split; [| done].
    intros v r [= <- <-] _. by rewrite append_assoc. }
  destruct (number p) as [res|] eqn:Hnum.
  { destruct (number_head p res Hnum) as (c & p' & -> & Hc).
    destruct (number_ext (String c p') q) as [HOk HUn].
    destruct (number_head_not_literal c (p' +:+ q) Hc) as (Hn & Ht & Hf).
    unfold scan_atom. rewrite append_cons in *. rewrite Hn, Ht, Hf. split.
    - intros v r -> Hsafe. by rewrite (HOk v r Hnum Hsafe).
    - intros ->. by rewrite (HUn Hnum). }
  destruct (after "NaN" p) as [r0|] eqn:Hnan.
  { apply after_spec in Hnan as ->. split; [done |]. intros _. by rewrite append_assoc. }
  destruct (after "Infinity" p) as [r0|] eqn:Hinf.
  { apply after_spec in Hinf as ->. split; [done |]. intros _. by rewrite append_assoc. }
  destruct (after "-Infinity" p) as [r0|] eqn:Hminf; [| done].
  apply after_spec in Hminf as ->. split; [done |]. intros _. by rewrite append_assoc.
Qed.

Lemma skip_ws_app_nonempty p q :
  skip_ws p <> EmptyString -> skip_ws (p +:+ q) = skip_ws p +:+ q.
Proof.
  intros Hp. destruct (skip_ws p) as [|c r] eqn:Hs; [done |].
  by rewrite (skip_ws_app p q c r Hs), append_cons.
Qed.

Lemma is_ws_stops_number c : is_ws c = true -> stops_number c = true.
Proof. destruct c as [[] [] [] [] [] [] [] []]; done. Qed.

(** What comes after a value inside a list or a dictionary. *)
Lemma skip_ws_safe_rest rest c r :
  skip_ws rest = String c r -> stops_number c = true -> safe_rest rest.
Proof.
  destruct rest as [|a rest]; [done |]. cbn [skip_ws safe_rest].
  destruct (is_ws a) eqn:Ha; [intros _ _; by apply is_ws_stops_number |].
  by intros [= -> _].
Qed.

Lemma scan_once_nil fuel : scan_once fuel EmptyString = JSONDecodeError \/
                           scan_once fuel EmptyString = TooDeep.
Proof. destruct fuel; [by right | by left]. Qed.

Lemma items_nil fuel : items fuel EmptyString = JSONDecodeError \/
                       items fuel EmptyString = TooDeep.
Proof.
  destruct fuel as [|fuel]; [by right |]. rewrite items_S.
  destruct (scan_once_nil fuel) as [-> | ->]; [by left | by right].
Qed.

Lemma members_nil fuel : members fuel EmptyString = JSONDecodeError \/
                         members fuel EmptyString = TooDeep.
Proof. destruct fuel; [by right | by left]. Qed.

(** The three mutually recursive functions on a text with more text after
    it, and with more fuel: a value that was read is read again, with the
    added text left over, and what was unsupported remains so. A number
    must have been followed by something that ends it. *)
Lemma scan_ext fuel : forall fuel', (fuel <= fuel')%nat ->
  (forall p q,
     (forall v r, scan_once fuel p = Ok (v, r) ->
                  safe_rest r \/ starts_container p = true ->
                  scan_once fuel' (p +:+ q) = Ok (v, r +:+ q)) /\
     (scan_once fuel p = Unsupported -> scan_once fuel' (p +:+ q) = Unsupported)) /\
  (forall p q,
     (forall vs r, items fuel p = Ok (vs, r) ->
                   items fuel' (p +:+ q) = Ok (vs, r +:+ q)) /\
     (items fuel p = Unsupported -> items fuel' (p +:+ q) = Unsupported)) /\
  (forall p q,
     (forall kvs r, members fuel p = Ok (kvs, r) ->
                    members fuel' (p +:+ q) = Ok (kvs, r +:+ q)) /\
     (members fuel p = Unsupported -> members fuel' (p +:+ q) = Unsupported)).
Proof.
  induction fuel as [|fuel IH]; intros fuel' Hfuel; [by repeat split |].
  destruct fuel' as [|fuel']; [lia |].
  destruct (IH fuel' ltac:(lia)) as (IHs & IHi & IHm). clear IH.
  split; [| split]; intros p q.
  - (* scan_once *)
    destruct p as [|c p]; [done |].
    destruct (starts_container (String c p)) eqn:Hcont.
    + rewrite append_cons, !scan_once_S.
      cbn [starts_container] in Hcont.
      destruct (Ascii.eqb c quote) eqn:Hq.
      { unfold bind. destruct (scanstring p) as [[str rest]| | |] eqn:Hs; split; try done.
        - intros v r [= <- <-] _. by rewrite (scanstring_ext_Ok p q str rest Hs).
        - intros _. by rewrite (scanstring_ext_Unsupported p q Hs). }
      destruct (Ascii.eqb c "{") eqn:Hobj.
      { destruct (skip_ws p) as [|c' r'] eqn:Hws; [done |].
        rewrite (skip_ws_app p q c' r' Hws).
        destruct (Ascii.eqb c' "}"); [split; [by intros v r [= <- <-] _ | done] |].
        destruct (IHm (String c' r') q) as [HOk HUn]. rewrite append_cons in HOk, HUn.
        unfold bind.
        destruct (members fuel (String c' r')) as [[kvs rest]| | |] eqn:Hm; split; try done.
        - intros v r [= <- <-] _. by rewrite (HOk kvs rest eq_refl).
        - intros _. by rewrite (HUn eq_refl). }
      destruct (Ascii.eqb c "[") eqn:Harr; [| done].
      destruct (skip_ws p) as [|c' r'] eqn:Hws; [done |].
      rewrite (skip_ws_app p q c' r' Hws).
      destruct (Ascii.eqb c' "]"); [split; [by intros v r [= <- <-] _ | done] |].
      destruct (IHi (String c' r') q) as [HOk HUn]. rewrite append_cons in HOk, HUn.
      unfold bind.
      destruct (items fuel (String c' r')) as [[vs rest]| | |] eqn:Hi; split; try done.
      * intros v r [= <- <-] _. by rewrite (HOk vs rest eq_refl).
      * intros _. by rewrite (HUn eq_refl).
    + rewrite append_cons, !scan_once_atom by done. rewrite <- append_cons.
      destruct (scan_atom_ext (String c p) q) as [HOk HUn]. split; [| done].
      intros v r H [Hsafe | ?]; [by apply HOk | done].
  - (* items *)
    rewrite !items_S. destruct (IHs p q) as [HOk HUn]. unfold bind.
    destruct (scan_once fuel p) as [[v rest]| | |] eqn:Hs;
      [| done | split; [done | intros _; by rewrite (HUn eq_refl)] | done].
    destruct (skip_ws rest) as [|c r1] eqn:Hws; [done |].
    destruct (Ascii.eqb_spec c "]") as [-> | Hc1].
    { rewrite (HOk v rest eq_refl) by (left; by eapply skip_ws_safe_rest).
      rewrite (skip_ws_app rest q _ r1 Hws). cbn [Ascii.eqb Bool.eqb].
      split; [by intros vs r [= <- <-] | done]. }
    destruct (Ascii.eqb_spec c ",") as [-> | Hc2]; [| done].
    rewrite (HOk v rest eq_refl) by (left; by eapply skip_ws_safe_rest).
    rewrite (skip_ws_app rest q _ r1 Hws). cbn [Ascii.eqb Bool.eqb].
    destruct (IHi (skip_ws r1) q) as [HiOk HiUn].
    destruct (items fuel (skip_ws r1)) as [[vs rest']| | |] eqn:Hi; [| done | | done].
    + assert (skip_ws r1 <> EmptyString) as Hne.
      { intros Heq. rewrite Heq in Hi. by destruct (items_nil fuel) as [H | H]; rewrite H in Hi. }
      rewrite (skip_ws_app_nonempty r1 q Hne), (HiOk vs rest' eq_refl).
      split; [by intros vs' r [= <- <-] | done].
    + assert (skip_ws r1 <> EmptyString) as Hne.
      { intros Heq. rewrite Heq in Hi. by destruct (items_nil fuel) as [H | H]; rewrite H in Hi. }
      rewrite (skip_ws_app_nonempty r1 q Hne), (HiUn eq_refl). by split.
  - (* members *)
    destruct p as [|c p]; [done |]. rewrite append_cons, !members_S.
    destruct (Ascii.eqb c quote); [| done]. unfold bind.
    destruct (scanstring p) as [[key rest]| | |] eqn:Hkey;
      [| done | split; [done | intros _; by rewrite (scanstring_ext_Unsupported p q Hkey)]
       | done].
    rewrite (scanstring_ext_Ok p q key rest Hkey).
    destruct (skip_ws rest) as [|c1 r1] eqn:Hws; [done |].
    rewrite (skip_ws_app rest q c1 r1 Hws).
    destruct (Ascii.eqb c1 ":"); [| done].
    destruct (IHs (skip_ws r1) q) as [HOk HUn].
    destruct (scan_once fuel (skip_ws r1)) as [[v rest1]| | |] eqn:Hs; [| done | | done].
    + assert (skip_ws r1 <> EmptyString) as Hne.
      { intros Heq. rewrite Heq in Hs.
        by destruct (scan_once_nil fuel) as [H | H]; rewrite H in Hs. }
      rewrite (skip_ws_app_nonempty r1 q Hne).
      destruct (skip_ws rest1) as [|c2 r2] eqn:Hws1; [done |].
      destruct (Ascii.eqb_spec c2 "}") as [-> | Hc1].
      { rewrite (HOk v rest1 eq_refl) by (left; by eapply skip_ws_safe_rest).
        rewrite (skip_ws_app rest1 q _ r2 Hws1). cbn [Ascii.eqb Bool.eqb].
        split; [by intros kvs r [= <- <-] | done]. }
      destruct (Ascii.eqb_spec c2 ",") as [-> | Hc2]; [| done].
      rewrite (HOk v rest1 eq_refl) by (left; by eapply skip_ws_safe_rest).
      rewrite (skip_ws_app rest1 q _ r2 Hws1). cbn [Ascii.eqb Bool.eqb].
      destruct (IHm (skip_ws r2) q) as [HmOk HmUn].
      destruct (members fuel (skip_ws r2)) as [[kvs rest2]| | |] eqn:Hm; [| done | | done].
      * assert (skip_ws r2 <> EmptyString) as Hne2.
        { intros Heq. rewrite Heq in Hm.
          by destruct (members_nil fuel) as [H | H]; rewrite H in Hm. }
        rewrite (skip_ws_app_nonempty r2 q Hne2), (HmOk kvs rest2 eq_refl).
        split; [by intros kvs' r [= <- <-] | done].
      * assert (skip_ws r2 <> EmptyString) as Hne2.
        { intros Heq. rewrite Heq in Hm.
          by destruct (members_nil fuel) as [H | H]; rewrite H in Hm. }
        rewrite (skip_ws_app_nonempty r2 q Hne2), (HmUn eq_refl). by split.
    + assert (skip_ws r1 <> EmptyString) as Hne.
      { intros Heq. rewrite Heq in Hs.
        by destruct (scan_once_nil fuel) as [H | H]; rewrite H in Hs. }
      rewrite (skip_ws_app_nonempty r1 q Hne), (HUn eq_refl). by split.
Qed.

Lemma skip_ws_blank_app a q : skip_ws (a +:+ q) = EmptyString -> skip_ws q = EmptyString.
Proof.
  induction a as [|c a IH]; [done |]. rewrite append_cons. cbn [skip_ws].
  by destruct (is_ws c).
Qed.

Lemma skip_ws_ends_bracket q : skip_ws (q +:+ "]") <> EmptyString.
Proof.
  induction q as [|c q IH]; [done |]. rewrite append_cons. cbn [skip_ws].
  by destruct (is_ws c).
Qed.

Lemma suffix_last p : forall t q c,
  p +:+ q = t +:+ String c EmptyString -> q <> EmptyString ->
  exists q', q = q' +:+ String c EmptyString.
Proof.
  induction p as [|a p IH]; intros t q c Heq Hq.
  - rewrite append_nil_l in Heq. by exists t.
  - destruct t as [|b t].
    + rewrite append_cons, append_nil_l in Heq. injection Heq as _ Heq.
      destruct p; [| done]. by rewrite append_nil_l in Heq.
    + rewrite !append_cons in Heq. injection Heq as _ Heq. by apply (IH t).
Qed.

(** The text that [save_tasks] writes is a list: it begins with an
    opening bracket and ends with the closing one. *)
Lemma dump_tasks_shape l :
  exists body, dump (tasks_to_value l) = String "[" (body +:+ "]").
Proof.
  destruct l as [|task l]; [by exists EmptyString |].
  unfold dump, tasks_to_value. cbn [map]. rewrite iterencode_arr_cons.
  eexists. rewrite append_cons, append_nil_l. f_equal.
  rewrite <- !append_assoc. reflexivity.
Qed.

(** Decoding a text of which a list was read to the end: no text that is
    cut short of it decodes, and none is unsupported. *)
Lemma loads_prefix (p q : string) (v : value) :
  loads (p +:+ q) = Ok v ->
  (exists body, p +:+ q = String "[" (body +:+ "]")) ->
  q <> EmptyString ->
  loads p = JSONDecodeError.
Proof.
  intros Hfull (body & Hshape) Hq.
  destruct p as [|c p0].
  { unfold loads. cbn. done. }
  rewrite append_cons in Hshape. injection Hshape as -> Hbody.
  destruct (suffix_last p0 body q "]" Hbody Hq) as [q' ->].
  set (p := String "[" p0) in *.
  assert (skip_ws p = p) as Hp by done.
  assert (skip_ws (p +:+ (q' +:+ "]")) = p +:+ (q' +:+ "]")) as Hpq by done.
  assert (2 * String.length p + 2 <= 2 * String.length (p +:+ (q' +:+ "]")) + 2)%nat as Hfuel.
  { rewrite append_length. lia. }
  destruct (scan_ext _ _ Hfuel) as (Hs & _ & _).
  destruct (Hs p (q' +:+ "]")) as [HOk HUn].
  unfold loads in Hfull |- *. rewrite Hpq in Hfull. rewrite Hp. unfold bind in *.
  destruct (scan_once (2 * String.length p + 2) p) as [[v' rest]| | |] eqn:Hscan.
  - rewrite (HOk v' rest eq_refl (or_intror eq_refl)) in Hfull.
    destruct (skip_ws (rest +:+ q' +:+ "]")) eqn:Hws; [| done].
    apply skip_ws_blank_app in Hws. by apply skip_ws_ends_bracket in Hws.
  - done.
  - by rewrite (HUn eq_refl) in Hfull.
  - exfalso. revert Hscan. apply scan_fuel. lia.
Qed.

End JsonPrefix.

(** X22. A file that was cut short is not loaded. If the file holds only
    a beginning of the text that [save_tasks] writes for a collection and
    not all of it, as after a write that did not finish, [load_tasks] and
    [TaskManager()] raise the decoder's error: no shorter or other
    collection is ever loaded from it. *)
Theorem truncated_file_raises (l l0 : list Task.t) (p q : string) :
  p +:+ q = Json.dump (tasks_to_value l) ->
  q <> EmptyString ->
  load_tasks (mkWorld l0 (Some p)) = inl DecodeError /\
  init (mkWorld l0 (Some p)) = inl DecodeError.
Proof.
  intros Htext Hq.
  assert (Json.loads p = Json.JSONDecodeError) as Hloads.
  { apply (JsonPrefix.loads_prefix p q (tasks_to_value l)); [| | done].
    - rewrite Htext. apply JsonFacts.loads_dump_tasks.
    - destruct (JsonPrefix.dump_tasks_shape l) as [body Hbody].
      exists body. by rewrite Htext. }
  assert (forall l1, load_tasks (mkWorld l1 (Some p)) = inl DecodeError) as Hload.
  { intros l1. unfold load_tasks, and_then, read_data_file. cbn [data_file].
    by rewrite Hloads. }
  split; [apply Hload |].
  unfold init, and_then, set_tasks. cbn [data_file]. apply Hload.
Qed.

Lemma truncated_file_raises_witness :
  load_tasks (mkWorld [] (Some "[")) = inl DecodeError /\
  init (mkWorld [] (Some "[")) = inl DecodeError.
Proof. apply (truncated_file_raises [] [] "[" "]"); [reflexivity | discriminate]. Defined.

(** ** The two models of the callbacks agree

    What an event of the board with cards does to the store is what the
    callbacks of [KanbanApp], modelled without the cards, do on the event
    that names the same id and column. *)
Lemma view_handle_refines (e : KanbanView.event) (app app' : KanbanView.App) :
  KanbanView.shows_store app ->
  KanbanView.handle e app = inr (tt, app') ->
  exists es, (length es <= 1)%nat /\
             KanbanApp.handle_all es (KanbanView.manager app) =
               inr (tt, KanbanView.manager app').
Proof.
  intros Hshows. rewrite KanbanViewFacts.handle_call_of.
  destruct e as [entry_text dt | f i j answer]; cbn [KanbanView.call_of].
  - destruct (KanbanApp.strip entry_text) as [|c r] eqn:Hstrip.
    + intros [= <-]. exists []; split; [cbn; lia | done].
    + cbn [run_call]. rewrite add_task_eq. cbn zeta. intros [= <-].
      exists [KanbanApp.Confirm entry_text dt]. split; [cbn; lia |].
      cbn [KanbanApp.handle_all KanbanApp.handle]. unfold and_then, KanbanApp.confirm.
      rewrite Hstrip. reflexivity.
  - destruct (KanbanView.winfo_children f app !! i) as [cd|] eqn:Hi;
      [| intros [= <-]; exists []; split; [cbn; lia | done]].
    destruct (KanbanViewFacts.shown_card app f i cd Hshows Hi) as (task & _ & _ & ->).
    destruct (KanbanView.buttons _ !! j) as [b|] eqn:Hj; [| intros [= <-]; exists []; split; [cbn; lia | done]].
    apply KanbanViewFacts.button_of_card in Hj as [(target & -> & _) | ->].
    + cbn [run_call]. rewrite update_task_status_eq. cbn zeta. intros [= <-].
      exists [KanbanApp.Move (Task.id task) target]. split; [cbn; lia |]. reflexivity.
    + destruct answer; [| intros [= <-]; exists []; split; [cbn; lia | done]].
      cbn [run_call]. rewrite delete_task_eq. cbn zeta. intros [= <-].
      exists [KanbanApp.Delete (Task.id task) true]. split; [cbn; lia |]. reflexivity.
Qed.

(** ** The store with every [str]

    What [json.dump] and [json.load] do with the strings and the ids of
    the second model. *)

Module UnicodeFacts.
Import Unicode.
Import JsonFacts.

(** *** Escapes *)

Lemma hexval_hexdigit (d : N) :
  (d < 16)%N -> Json.hexval (Json.hexdigit d) = Some d.
Proof.
  intros Hd. destruct d as [|p]; [reflexivity |].
  do 4 (try destruct p as [p|p|]); try reflexivity; lia.
Qed.

Lemma hex4_digits (n : N) :
  (n < 65536)%N ->
  hex4 (Json.hexdigit (n / 4096 mod 16)) (Json.hexdigit (n / 256 mod 16))
       (Json.hexdigit (n / 16 mod 16)) (Json.hexdigit (n mod 16)) = Some n.
Proof.
  intros Hn. unfold hex4.
  rewrite !hexval_hexdigit by (apply N.mod_upper_bound; lia).
  f_equal. 
  pose proof (N.div_mod n 16 ltac:(lia)) as H1.
  pose proof (N.div_mod (n / 16) 16 ltac:(lia)) as H2.
  pose proof (N.div_mod (n / 256) 16 ltac:(lia)) as H3.
  assert (n / 256 = n / 16 / 16)%N as E2 by (rewrite N.Div0.div_div; reflexivity).
  assert (n / 4096 = n / 256 / 16)%N as E3 by (rewrite N.Div0.div_div; reflexivity).
  assert (n / 4096 < 16)%N as Hs by (apply N.Div0.div_lt_upper_bound; lia).
  rewrite (N.mod_small (n / 4096) 16) by done.
  rewrite E3, E2 in *. lia.
Qed.

Lemma scanstring_u h1 h2 h3 h4 r2 :
  scanstring (String backslash (String "u" (String h1 (String h2 (String h3 (String h4 r2)))))) =
  match hex4 h1 h2 h3 h4 with
  | Some uni => if is_high uni then after_high uni r2 else cons_code uni (scanstring r2)
  | None => JSONDecodeError
  end.
Proof. reflexivity. Qed.

Lemma scanstring_uescape n t :
  (n < 65536)%N ->
  scanstring (Json.uescape n +:+ t) =
  if is_high n then after_high n t else cons_code n (scanstring t).
Proof.
  intros Hn. unfold Json.uescape. rewrite !append_cons, append_nil_l.
  by rewrite scanstring_u, hex4_digits.
Qed.

Lemma after_high_quote n rest :
  after_high n (String quote rest) = cons_code n (scanstring (String quote rest)).
Proof. reflexivity. Qed.

Lemma after_high_uescape n m t :
  (m < 65536)%N ->
  after_high n (Json.uescape m +:+ t) =
  if is_low m then cons_code (join_pair n m) (scanstring t)
  else cons_code n (scanstring (Json.uescape m +:+ t)).
Proof.
  intros Hm. unfold Json.uescape. rewrite !append_cons, append_nil_l.
  unfold after_high. cbn [Ascii.eqb Bool.eqb backslash].
  by rewrite hex4_digits.
Qed.

Lemma after_high_escape_char n a t :
  after_high n (Json.escape_char a +:+ t) =
  cons_code n (scanstring (Json.escape_char a +:+ t)).
Proof.
  destruct a as [[] [] [] [] [] [] [] []]; reflexivity.
Qed.

Lemma scanstring_escape_char_code a t :
  scanstring (Json.escape_char a +:+ t) = cons_code (ord a) (scanstring t).
Proof.
  destruct a as [[] [] [] [] [] [] [] []]; reflexivity.
Qed.

(** *** Surrogate pairs *)

Lemma lor_low (a b k : N) :
  (b < 2 ^ k)%N -> N.lor (a * 2 ^ k) b = (a * 2 ^ k + b)%N.
Proof.
  intros Hb.
  assert (N.land (a * 2 ^ k) b = 0%N) as Hland.
  { apply N.bits_inj_0. intros n. rewrite N.land_spec.
    destruct (N.lt_ge_cases n k) as [Hlt | Hge].
    - by rewrite N.mul_pow2_bits_low.
    - rewrite <- (N.mod_small b (2 ^ k)) by done.
      rewrite N.mod_pow2_bits_high by done. apply andb_false_r. }
  rewrite <- N.lxor_lor by done. symmetry. by apply N.add_nocarry_lxor.
Qed.

Lemma high_of_code (c : N) :
  (0x10000 <= c < 0x110000)%N ->
  N.lor 0xd800 (N.land (N.shiftr (c - 0x10000) 10) 0x3ff) =
  (0xd800 + (c - 0x10000) / 1024)%N.
Proof.
  intros Hc. rewrite N.shiftr_div_pow2.
  change 0x3ff%N with (N.ones 10). rewrite N.land_ones.
  change (2 ^ 10)%N with 1024%N.
  assert ((c - 0x10000) / 1024 < 1024)%N as Hq
    by (apply N.Div0.div_lt_upper_bound; lia).
  rewrite N.mod_small by done.
  change 0xd800%N with (54 * 2 ^ 10)%N. apply lor_low.
  by change (2 ^ 10)%N with 1024%N.
Qed.

Lemma low_of_code (c : N) :
  N.lor 0xdc00 (N.land (c - 0x10000) 0x3ff) = (0xdc00 + (c - 0x10000) mod 1024)%N.
Proof.
  change 0x3ff%N with (N.ones 10). rewrite N.land_ones.
  change 0xdc00%N with (55 * 2 ^ 10)%N. apply lor_low.
  apply N.mod_upper_bound. done.
Qed.

Lemma join_pair_of_code (c : N) :
  (0x10000 <= c < 0x110000)%N ->
  join_pair (0xd800 + (c - 0x10000) / 1024) (0xdc00 + (c - 0x10000) mod 1024) = c.
Proof.
  intros Hc. unfold join_pair.
  pose proof (N.div_mod (c - 0x10000) 1024 ltac:(done)) as Hdm.
  pose proof (N.mod_upper_bound (c - 0x10000) 1024 ltac:(done)) as Hr.
  set (q := ((c - 0x10000) / 1024)%N) in *. set (r := ((c - 0x10000) mod 1024)%N) in *.
  replace (0xd800 + q - 0xd800)%N with q by lia.
  replace (0xdc00 + r - 0xdc00)%N with r by lia.
  rewrite N.shiftl_mul_pow2, lor_low by done.
  change (2 ^ 10)%N with 1024%N. lia.
Qed.

(** The escapes of a code point from [0x10000] on, and what they stand
    for. *)
Lemma escape_code_pair (c : N) :
  (0x10000 <= c < 0x110000)%N ->
  exists s1 s2,
    escape_code c = Json.uescape s1 +:+ Json.uescape s2 /\
    (s1 < 65536)%N /\ (s2 < 65536)%N /\
    is_high s1 = true /\ is_low s1 = false /\ is_low s2 = true /\ join_pair s1 s2 = c.
Proof.
  intros Hc. exists (0xd800 + (c - 0x10000) / 1024)%N, (0xdc00 + (c - 0x10000) mod 1024)%N.
  assert ((c - 0x10000) / 1024 < 1024)%N as Hq
    by (apply N.Div0.div_lt_upper_bound; lia).
  pose proof (N.mod_upper_bound (c - 0x10000) 1024 ltac:(done)) as Hr.
  split.
  { unfold escape_code.
    destruct (c <? 256)%N eqn:H1; [apply N.ltb_lt in H1; lia |].
    destruct (c <? 0x10000)%N eqn:H2; [apply N.ltb_lt in H2; lia |].
    cbv zeta. by rewrite high_of_code, low_of_code. }
  split; [| split; [| split; [| split; [| split; [| by apply join_pair_of_code]]]]];
    set (q := ((c - 0x10000) / 1024)%N) in *; set (r := ((c - 0x10000) mod 1024)%N) in *;
    unfold is_high, is_low; try lia.
  - apply andb_true_intro. split; apply N.leb_le; lia.
  - apply andb_false_iff. left. apply N.leb_gt. lia.
  - apply andb_true_intro. split; apply N.leb_le; lia.
Qed.

(** *** A string and its escapes *)

Lemma is_high_range c : is_high c = true -> (256 <= c < 65536)%N.
Proof.
  unfold is_high. intros [H1 H2]%andb_true_iff.
  apply N.leb_le in H1, H2. lia.
Qed.

Lemma is_low_range c : is_low c = true -> (256 <= c < 65536)%N.
Proof.
  unfold is_low. intros [H1 H2]%andb_true_iff.
  apply N.leb_le in H1, H2. lia.
Qed.

Lemma is_high_not_low c : is_high c = true -> is_low c = false.
Proof.
  unfold is_high, is_low. intros [H1 H2]%andb_true_iff.
  apply N.leb_le in H1, H2. apply andb_false_iff. left. apply N.leb_gt. lia.
Qed.

Lemma join_cons2 c c2 r :
  join (c :: c2 :: r) =
  if is_high c && is_low c2 then join_pair c c2 :: join r else c :: join (c2 :: r).
Proof. reflexivity. Qed.

Lemma join_cons_lone c r :
  is_high c = false -> join (c :: r) = c :: join r.
Proof. intros Hc. destruct r as [|c2 r]; [done |]. cbn [join]. by rewrite Hc. Qed.

Lemma join_cons_not_low c c2 r :
  is_low c2 = false -> join (c :: c2 :: r) = c :: join (c2 :: r).
Proof. intros Hc. cbn [join]. rewrite Hc, andb_false_r. done. Qed.

Lemma join_cons_pair c c2 r :
  is_high c = true -> is_low c2 = true ->
  join (c :: c2 :: r) = join_pair c c2 :: join r.
Proof. intros H1 H2. cbn [join]. by rewrite H1, H2. Qed.

Lemma escape_code_cases c :
  is_code_point c ->
  ((c < 256)%N /\ escape_code c = Json.escape_char (ascii_of_N c)) \/
  ((256 <= c < 65536)%N /\ escape_code c = Json.uescape c) \/
  ((65536 <= c)%N /\ is_high c = false /\ is_low c = false /\
   exists s1 s2,
     escape_code c = Json.uescape s1 +:+ Json.uescape s2 /\
     (s1 < 65536)%N /\ (s2 < 65536)%N /\
     is_high s1 = true /\ is_low s1 = false /\ is_low s2 = true /\ join_pair s1 s2 = c).
Proof.
  intros Hc. unfold is_code_point in Hc.
  destruct (c <? 256)%N eqn:H1.
  { left. apply N.ltb_lt in H1 as H1'. split; [done |]. unfold escape_code. by rewrite H1. }
  apply N.ltb_ge in H1 as H1'.
  destruct (c <? 0x10000)%N eqn:H2.
  { right. left. apply N.ltb_lt in H2 as H2'. split; [lia |].
    unfold escape_code. by rewrite H1, H2. }
  apply N.ltb_ge in H2. right. right. split; [lia |].
  split; [| split; [| by apply escape_code_pair; lia]].
  - unfold is_high. apply andb_false_iff. right. apply N.leb_gt. lia.
  - unfold is_low. apply andb_false_iff. right. apply N.leb_gt. lia.
Qed.

(** After the escape of a high surrogate: the escapes of the next code
    point are taken with it exactly when that is a low surrogate. *)
Lemma after_high_escape_code n c t :
  is_code_point c ->
  after_high n (escape_code c +:+ t) =
  if is_low c then cons_code (join_pair n c) (scanstring t)
  else cons_code n (scanstring (escape_code c +:+ t)).
Proof.
  intros Hc.
  destruct (escape_code_cases c Hc)
    as [[Hr He] | [[Hr He] | (Hr & _ & Hl & s1 & s2 & He & Hs1 & Hs2 & _ & Hl1 & _)]];
    rewrite He.
  - rewrite after_high_escape_char.
    destruct (is_low c) eqn:Hl; [apply is_low_range in Hl; lia | done].
  - by rewrite after_high_uescape by lia.
  - rewrite Hl, append_assoc, after_high_uescape by done. by rewrite Hl1.
Qed.

Lemma scanstring_escape_code c t :
  is_code_point c -> is_high c = false ->
  scanstring (escape_code c +:+ t) = cons_code c (scanstring t).
Proof.
  intros Hc Hh.
  destruct (escape_code_cases c Hc)
    as [[Hr He] | [[Hr He] | (Hr & _ & _ & s1 & s2 & He & Hs1 & Hs2 & Hh1 & _ & Hl2 & Hj)]];
    rewrite He.
  - rewrite scanstring_escape_char_code. unfold ord. by rewrite N_ascii_embedding.
  - rewrite scanstring_uescape by lia. by rewrite Hh.
  - rewrite append_assoc, scanstring_uescape by done.
    rewrite Hh1, after_high_uescape by done. by rewrite Hl2, Hj.
Qed.

Lemma scanstring_escape_high c t :
  is_high c = true ->
  scanstring (escape_code c +:+ t) = after_high c t.
Proof.
  intros Hh. apply is_high_range in Hh as Hr. unfold escape_code.
  destruct (c <? 256)%N eqn:H1; [apply N.ltb_lt in H1; lia |].
  destruct (c <? 0x10000)%N eqn:H2; [| apply N.ltb_ge in H2; lia].
  rewrite scanstring_uescape by lia. by rewrite Hh.
Qed.

(** The decoder gives back the string with its surrogate pairs joined. *)
Lemma scanstring_escape_joins n : forall s rest,
  (length s <= n)%nat -> is_str s ->
  scanstring (escape s +:+ String quote rest) = Ok (join s, rest).
Proof.
  induction n as [|n IH]; intros s rest Hlen Hs.
  { destruct s; [reflexivity | cbn in Hlen; lia]. }
  destruct s as [|c r]; [reflexivity |].
  apply Forall_cons in Hs as [Hc Hr]. cbn [length] in Hlen.
  cbn [escape]. rewrite append_assoc.
  destruct (is_high c) eqn:Hh.
  - rewrite scanstring_escape_high by done.
    destruct r as [|c2 r'].
    + cbn [escape]. rewrite append_nil_l, after_high_quote. reflexivity.
    + apply Forall_cons in Hr as Hr2. destruct Hr2 as [Hc2 Hr'].
      cbn [escape]. rewrite append_assoc, after_high_escape_code by done.
      destruct (is_low c2) eqn:Hl.
      * rewrite IH by (cbn [length] in Hlen; done || lia).
        by rewrite join_cons_pair.
      * rewrite <- append_assoc.
        change (escape_code c2 +:+ escape r') with (escape (c2 :: r')).
        rewrite IH by (done || lia). by rewrite join_cons_not_low.
  - rewrite scanstring_escape_code, IH by (done || lia).
    by rewrite join_cons_lone.
Qed.

Lemma scanstring_escape_str s rest :
  is_str s -> scanstring (escape s +:+ String quote rest) = Ok (join s, rest).
Proof. by apply (scanstring_escape_joins (length s)). Qed.

Lemma join_without_pair s : has_pair s = false -> join s = s.
Proof.
  induction s as [|c r IH]; [done |]. cbn [has_pair].
  intros [H1 H2]%orb_false_iff. destruct r as [|c2 r']; [done |].
  rewrite join_cons2, H1. by rewrite IH.
Qed.

Lemma join_length s : (length (join s) <= length s)%nat.
Proof.
  assert (forall n s, (length s <= n)%nat -> (length (join s) <= length s)%nat) as H.
  { clear s. induction n as [|n IH]; intros s Hn.
    - destruct s; [done | cbn in Hn; lia].
    - destruct s as [|c [|c2 r']]; [done.. |]. rewrite join_cons2. cbn [length] in *.
      destruct (is_high c && is_low c2).
      + cbn [length]. pose proof (IH r' ltac:(lia)). lia.
      + cbn [length]. pose proof (IH (c2 :: r') ltac:(cbn [length]; lia)) as H.
        cbn [length] in H. lia. }
  by apply (H (length s)).
Qed.

Lemma join_with_pair s : has_pair s = true -> join s <> s.
Proof.
  induction s as [|c r IH]; [done |]. cbn [has_pair].
  destruct r as [|c2 r']; [done |].
  destruct (is_high c && is_low c2) eqn:Hp.
  - intros _ Heq. rewrite join_cons2, Hp in Heq.
    pose proof (join_length r') as Hl.
    apply (f_equal length) in Heq. cbn [length] in Heq. lia.
  - cbn [orb]. intros Hr Heq. rewrite join_cons2, Hp in Heq.
    injection Heq as Heq. by apply IH.
Qed.

(** *** Decoding what the encoder wrote *)

Lemma literal_is_str s : is_str (literal s).
Proof.
  unfold literal, is_str. induction s as [|a s IH]; [constructor |].
  cbn [list_ascii_of_string fmap list_fmap]. constructor; [| exact IH].
  unfold is_code_point, ord. pose proof (N_ascii_bounded a). lia.
Qed.

Lemma literal_has_no_pair s : has_pair (literal s) = false.
Proof.
  unfold literal. induction s as [|a s IH]; [done |].
  cbn [list_ascii_of_string fmap list_fmap has_pair]. rewrite IH, orb_false_r.
  destruct (ord <$> list_ascii_of_string s) as [|c2 r]; [done |].
  apply andb_false_iff. left.
  destruct (is_high (ord a)) eqn:Hh; [| done].
  apply is_high_range in Hh. unfold ord in Hh. pose proof (N_ascii_bounded a). lia.
Qed.

Lemma join_literal s : join (literal s) = literal s.
Proof. apply join_without_pair, literal_has_no_pair. Qed.

Lemma encode_basestring_ascii_append s rest :
  encode_basestring_ascii s +:+ rest = String quote (escape s +:+ String quote rest).
Proof.
  unfold encode_basestring_ascii. by rewrite append_cons, append_assoc.
Qed.

Lemma scan_once_string fuel s rest :
  is_str s ->
  scan_once (S fuel) (encode_basestring_ascii s +:+ rest) = Ok (JStr (join s), rest).
Proof.
  intros Hs. rewrite encode_basestring_ascii_append. cbn [scan_once].
  cbn [Ascii.eqb Bool.eqb quote]. by rewrite scanstring_escape_str.
Qed.

Lemma number_of_int_repr z rest :
  fits z = true -> Json.ends_number rest ->
  number (Json.int_repr z +:+ rest) = Some (Ok (JInt z, rest)).
Proof.
  intros Hz (Hd & Hf & He). unfold number.
  rewrite integer_int_repr by done. rewrite Hf, He. cbn [orb].
  by rewrite DecimalZ.of_to, Hz.
Qed.

Lemma scan_once_by_number fuel c r res :
  (c = "-"%char \/ Json.is_digit c = true) ->
  number (String c r) = Some res ->
  scan_once (S fuel) (String c r) = res.
Proof.
  intros Hc Hn.
  destruct c as [[] [] [] [] [] [] [] []];
    try (exfalso; destruct Hc as [Hc | Hc]; discriminate Hc);
    cbn [scan_once]; cbn [Ascii.eqb Bool.eqb quote Json.after]; by rewrite Hn.
Qed.

Lemma scan_once_integer fuel z rest :
  fits z = true -> Json.ends_number rest ->
  scan_once (S fuel) (Json.int_repr z +:+ rest) = Ok (JInt z, rest).
Proof.
  intros Hz Hrest.
  pose proof (number_of_int_repr z rest Hz Hrest) as Hn.
  destruct (int_repr_head z) as (c & r & Hr & Hc).
  rewrite Hr in *. rewrite append_cons in *.
  by apply scan_once_by_number.
Qed.

Lemma skip_ws_encoded_string k s :
  Json.skip_ws (encode_basestring_ascii k +:+ s) = encode_basestring_ascii k +:+ s.
Proof. reflexivity. Qed.

Lemma members_next fuel k vtext v level more kvs rest :
  is_str k ->
  Json.skip_ws (vtext +:+ "," +:+ Json.newline_indent level +:+ more) =
    vtext +:+ "," +:+ Json.newline_indent level +:+ more ->
  scan_once fuel (vtext +:+ "," +:+ Json.newline_indent level +:+ more) =
    Ok (v, "," +:+ Json.newline_indent level +:+ more) ->
  members fuel (Json.skip_ws more) = Ok (kvs, rest) ->
  members (S fuel)
    (encode_basestring_ascii k +:+ ": " +:+ vtext +:+ "," +:+
     Json.newline_indent level +:+ more) =
  Ok ((join k, v) :: kvs, rest).
Proof.
  intros Hk Hws Hv Hm. rewrite encode_basestring_ascii_append.
  cbn [members]. cbn [Ascii.eqb Bool.eqb quote]. rewrite scanstring_escape_str by done.
  cbn [bind]. rewrite !append_cons, !append_nil_l in *.
  cbn [Json.skip_ws Json.is_ws Ascii.eqb Bool.eqb orb chr_tab chr_nl chr_cr].
  rewrite Hws, Hv. cbn [bind].
  cbn [Json.skip_ws Json.is_ws Ascii.eqb Bool.eqb orb chr_tab chr_nl chr_cr].
  rewrite skip_ws_newline_indent, Hm. reflexivity.
Qed.

Lemma members_end fuel k vtext v level rest :
  is_str k ->
  Json.skip_ws (vtext +:+ Json.newline_indent level +:+ "}" +:+ rest) =
    vtext +:+ Json.newline_indent level +:+ "}" +:+ rest ->
  scan_once fuel (vtext +:+ Json.newline_indent level +:+ "}" +:+ rest) =
    Ok (v, Json.newline_indent level +:+ "}" +:+ rest) ->
  members (S fuel)
    (encode_basestring_ascii k +:+ ": " +:+ vtext +:+ Json.newline_indent level +:+
     "}" +:+ rest) =
  Ok ([(join k, v)], rest).
Proof.
  intros Hk Hws Hv. rewrite encode_basestring_ascii_append.
  cbn [members]. cbn [Ascii.eqb Bool.eqb quote]. rewrite scanstring_escape_str by done.
  cbn [bind]. rewrite !append_cons, !append_nil_l in *.
  cbn [Json.skip_ws Json.is_ws Ascii.eqb Bool.eqb orb chr_tab chr_nl chr_cr].
  rewrite Hws, Hv. cbn [bind]. rewrite skip_ws_newline_indent.
  reflexivity.
Qed.

Lemma members_of_task fuel level task rest :
  storable task ->
  members (S (S (S (S (S fuel)))))
    (encode_basestring_ascii (literal "id") +:+ ": " +:+ Json.int_repr (Task.id task) +:+
     "," +:+ Json.newline_indent (S level) +:+
     encode_basestring_ascii (literal "title") +:+ ": " +:+
     encode_basestring_ascii (Task.title task) +:+
     "," +:+ Json.newline_indent (S level) +:+
     encode_basestring_ascii (literal "status") +:+ ": " +:+
     encode_basestring_ascii (Task.status task) +:+
     "," +:+ Json.newline_indent (S level) +:+
     encode_basestring_ascii (literal "date") +:+ ": " +:+
     encode_basestring_ascii (Task.date task) +:+
     Json.newline_indent level +:+ "}" +:+ rest) =
  Ok ([(literal "id", JInt (Task.id task));
       (literal "title", JStr (join (Task.title task)));
       (literal "status", JStr (join (Task.status task)));
       (literal "date", JStr (join (Task.date task)))], rest).
Proof.
  intros (Hid & Hti & Hst & Hda).
  rewrite <- (join_literal "id"), <- (join_literal "title"),
    <- (join_literal "status"), <- (join_literal "date") at 2.
  apply members_next;
    [apply literal_is_str | apply skip_ws_int_repr
    | by apply scan_once_integer; [| apply ends_number_comma] |].
  rewrite skip_ws_encoded_string.
  apply members_next;
    [apply literal_is_str | apply skip_ws_encoded_string | by apply scan_once_string |].
  rewrite skip_ws_encoded_string.
  apply members_next;
    [apply literal_is_str | apply skip_ws_encoded_string | by apply scan_once_string |].
  rewrite skip_ws_encoded_string.
  apply members_end;
    [apply literal_is_str | apply skip_ws_encoded_string | by apply scan_once_string].
Qed.

Lemma scan_once_of_task fuel level task rest :
  storable task ->
  scan_once (S (S (S (S (S (S fuel)))))) (task_text level task +:+ rest) =
  Ok (Task.to_value (joined task), rest).
Proof.
  intros Htask. unfold task_text.
  rewrite !append_assoc, append_cons, append_nil_l.
  cbn [scan_once]. cbn [Ascii.eqb Bool.eqb quote].
  rewrite skip_ws_newline_indent, skip_ws_encoded_string.
  rewrite encode_basestring_ascii_append at 1.
  cbn [Ascii.eqb Bool.eqb quote]. rewrite <- encode_basestring_ascii_append.
  rewrite members_of_task by done. reflexivity.
Qed.

Lemma skip_ws_task_text level task s :
  Json.skip_ws (task_text level task +:+ s) = task_text level task +:+ s.
Proof. reflexivity. Qed.

Lemma scan_once_of_task_ge fuel level task rest :
  storable task -> (6 <= fuel)%nat ->
  scan_once fuel (task_text level task +:+ rest) =
  Ok (Task.to_value (joined task), rest).
Proof.
  intros Htask Hfuel. do 6 (destruct fuel as [|fuel]; [lia |]).
  by apply scan_once_of_task.
Qed.

Lemma items_step fuel s :
  items (S fuel) s =
  let* (v, rest) := scan_once fuel s in
  match Json.skip_ws rest with
  | String c r =>
      if Ascii.eqb c "]" then Ok ([v], r)
      else if Ascii.eqb c "," then
        let* (vs, rest') := items fuel (Json.skip_ws r) in Ok (v :: vs, rest')
      else JSONDecodeError
  | EmptyString => JSONDecodeError
  end.
Proof. reflexivity. Qed.

Lemma items_of_tasks l : forall task fuel rest,
  Forall storable (task :: l) ->
  (length l + 7 <= fuel)%nat ->
  items fuel
    (task_text 1 task +:+ more_tasks_text l +:+ Json.newline_indent 0 +:+ "]" +:+ rest) =
  Ok (map Task.to_value (joined <$> task :: l), rest).
Proof.
  induction l as [|task' l IH]; intros task fuel rest [Htask Hl]%Forall_cons Hfuel;
    cbn [length] in Hfuel; (destruct fuel as [|fuel]; [lia |]);
    rewrite items_step, scan_once_of_task_ge by (done || lia);
    cbn [bind map more_tasks_text fmap list_fmap].
  - rewrite append_nil_l, skip_ws_newline_indent. reflexivity.
  - rewrite !append_assoc, !append_cons, !append_nil_l.
    cbn [Json.skip_ws Json.is_ws Ascii.eqb Bool.eqb orb chr_tab chr_nl chr_cr].
    rewrite skip_ws_newline_indent, skip_ws_task_text.
    pose proof (IH task' fuel rest Hl) as Hi.
    rewrite !append_cons, !append_nil_l in Hi.
    rewrite Hi by lia. reflexivity.
Qed.

Lemma more_tasks_text_length l : (length l <= String.length (more_tasks_text l))%nat.
Proof.
  induction l as [|x l IH]; [done |]. cbn [more_tasks_text length].
  rewrite append_cons, append_nil_l. cbn [String.length].
  rewrite !append_length. lia.
Qed.

Lemma scan_once_list fuel r c r' :
  Json.skip_ws r = String c r' -> Ascii.eqb c "]" = false ->
  scan_once (S fuel) (String "[" r) =
  let* (vs, rest) := items fuel (String c r') in Ok (JArr vs, rest).
Proof. intros Hr Hc. cbn [scan_once Ascii.eqb Bool.eqb quote]. by rewrite Hr, Hc. Qed.

Lemma task_text_head level task s :
  exists r, task_text level task +:+ s = String "{" r.
Proof. unfold task_text. eexists. reflexivity. Qed.

(** [json.load] on the text of a list of tasks gives the tasks with the
    surrogate pairs of their strings joined. *)
Lemma loads_tasks_text l :
  Forall storable l ->
  loads (tasks_text l) = Ok (tasks_to_value (joined <$> l)).
Proof.
  intros Hl. destruct l as [|task l]; [reflexivity |].
  unfold loads, tasks_to_value, tasks_text.
  set (text := "[" +:+ _).
  assert (length l + 8 <= 2 * String.length text + 2)%nat as Hfuel.
  { subst text. rewrite !append_length. pose proof (more_tasks_text_length l).
    cbn [String.length Json.newline_indent]. lia. }
  destruct (2 * String.length text + 2)%nat as [|fuel]; [lia |].
  subst text. rewrite append_cons, append_nil_l.
  pose proof (items_of_tasks l task fuel "" Hl) as Hi.
  change ("]" +:+ "") with "]" in Hi.
  destruct (task_text_head 1 task
              (more_tasks_text l +:+ Json.newline_indent 0 +:+ "]"))
    as [r Hr].
  change (Json.skip_ws (String "[" ?x)) with (String "[" x).
  erewrite scan_once_list;
    [| rewrite skip_ws_newline_indent, skip_ws_task_text; exact Hr | reflexivity].
  rewrite <- Hr, Hi by lia. reflexivity.
Qed.

(** *** What [json.dump] writes *)

Lemma iterencode_task_text level task :
  fits (Task.id task) = true ->
  iterencode level (Task.to_value task) = Complete (task_text level task).
Proof.
  intros Hid. cbn [iterencode Task.to_value]. unfold int_str. rewrite Hid.
  cbn [and_chunks]. unfold task_text. rewrite !append_assoc. reflexivity.
Qed.

Lemma iterencode_more_tasks l :
  Forall storable l ->
  (fix rest (l : list value) : written :=
     match l with
     | [] => Complete ""
     | y :: l' =>
         and_chunks (list_item ("," +:+ Json.newline_indent 1) y (iterencode 1 y)) (rest l')
     end) (map Task.to_value l) = Complete (more_tasks_text l).
Proof.
  induction 1 as [|task l (Hid & _) _ IH]; [done |].
  cbn [map more_tasks_text]. rewrite IH, iterencode_task_text by done.
  cbn [list_item Task.to_value and_chunks]. by rewrite !append_assoc.
Qed.

Lemma dump_tasks l :
  Forall storable l ->
  dump (tasks_to_value l) = Complete (tasks_text l).
Proof.
  intros Hl. destruct l as [|task l]; [reflexivity |].
  apply Forall_cons in Hl as [(Hid & _) Hl].
  unfold dump, tasks_to_value. cbn [map iterencode].
  rewrite iterencode_more_tasks, iterencode_task_text by done.
  cbn [list_item Task.to_value and_chunks tasks_text]. by rewrite !append_assoc.
Qed.

Lemma of_value_of_task task : Task.of_value (Task.to_value task) = Some task.
Proof. by destruct task. Qed.

Lemma tasks_of_value_of_tasks l : tasks_of_value (tasks_to_value l) = Some l.
Proof.
  unfold tasks_of_value, tasks_to_value.
  induction l as [|task l IH]; [done |].
  cbn [map values_to_tasks]. by rewrite of_value_of_task, IH.
Qed.

Lemma joined_pair_free task : pair_free task -> joined task = task.
Proof.
  intros (H1 & H2 & H3). destruct task as [i ti st da]. unfold joined.
  cbn [Task.id Task.title Task.status Task.date] in *.
  by rewrite !join_without_pair.
Qed.

Lemma joined_all_pair_free l : Forall pair_free l -> joined <$> l = l.
Proof.
  induction 1 as [|task l Htask _ IH]; [done |].
  cbn [fmap list_fmap] in *. by rewrite joined_pair_free, IH.
Qed.

(** *** The store *)

Lemma save_tasks_storable w :
  Forall storable (tasks w) ->
  TaskManager.save_tasks w =
  (Returns tt, mkWorld (tasks w) (Some (tasks_text (tasks w)))).
Proof.
  intros Hw. unfold TaskManager.save_tasks, and_then, get_tasks.
  by rewrite dump_tasks.
Qed.

Lemma load_tasks_text l0 l :
  Forall storable l ->
  TaskManager.load_tasks (mkWorld l0 (Some (tasks_text l))) =
  (Returns tt, mkWorld (joined <$> l) (Some (tasks_text l))).
Proof.
  intros Hl. unfold TaskManager.load_tasks, and_then, read_data_file.
  cbn [data_file]. by rewrite loads_tasks_text, tasks_of_value_of_tasks.
Qed.

Lemma init_text l0 l :
  Forall storable l ->
  TaskManager.init (mkWorld l0 (Some (tasks_text l))) =
  (Returns tt, mkWorld (joined <$> l) (Some (tasks_text l))).
Proof.
  intros Hl. unfold TaskManager.init, and_then, set_tasks. cbn [data_file].
  by apply load_tasks_text.
Qed.

Lemma and_then_returns {A B : Type} (m : M A) (k : A -> M B) w a w' :
  m w = (Returns a, w') -> and_then m k w = k a w'.
Proof. intros H. unfold and_then. by rewrite H. Qed.

Lemma pair_free_joined task : joined task = task -> pair_free task.
Proof.
  destruct task as [i ti st da]. unfold joined, pair_free.
  cbn [Task.id Task.title Task.status Task.date]. intros [= H1 H2 H3].
  repeat split.
  - destruct (has_pair ti) eqn:Hp; [by apply join_with_pair in Hp | done].
  - destruct (has_pair st) eqn:Hp; [by apply join_with_pair in Hp | done].
  - destruct (has_pair da) eqn:Hp; [by apply join_with_pair in Hp | done].
Qed.

Lemma joined_all_iff l : joined <$> l = l <-> Forall pair_free l.
Proof.
  split; [| apply joined_all_pair_free].
  induction l as [|task l IH]; [constructor |].
  cbn [fmap list_fmap]. intros [= H1 H2]. constructor; [by apply pair_free_joined | by apply IH].
Qed.

Lemma fits_bounds z k : 0 < z <= k -> k < int_limit -> fits z = true.
Proof. intros Hz Hk. unfold fits. apply Z.ltb_lt. lia. Qed.

Lemma within_storable k w :
  k < int_limit -> within k w -> Forall storable (tasks w) /\ Forall pair_free (tasks w).
Proof.
  intros Hk (Hall & _ & _). split; eapply Forall_impl; try exact Hall; cbn beta.
  - intros task (Hid & [H1 _] & [H2 _] & [H3 _]). repeat split; try done.
    by apply (fits_bounds _ k).
  - intros task (_ & [_ H1] & [_ H2] & [_ H3]). done.
Qed.

Lemma set_first_status_keeps P task_id new_status l :
  (forall task, P task -> P (Task.set_status new_status task)) ->
  Forall P l -> Forall P (TaskManager.set_first_status task_id new_status l).
Proof.
  intros Hset. induction 1 as [|task l Htask Hl IH]; [constructor |].
  cbn [TaskManager.set_first_status].
  destruct (decide (Task.id task = task_id)); constructor; auto.
Qed.

Lemma set_first_status_same_length task_id new_status l :
  length (TaskManager.set_first_status task_id new_status l) = length l.
Proof.
  induction l as [|task l IH]; [done |]. cbn [TaskManager.set_first_status].
  destruct (decide (Task.id task = task_id)); cbn [length]; by rewrite ?IH.
Qed.

(** One call: it returns and keeps the store within the next bound. *)
Lemma run_call_within c k w :
  within k w -> call_ok c -> k + 1 < int_limit ->
  exists w', run_call c w = (Returns tt, w') /\ within (k + 1) w'.
Proof.
  intros (Hall & Hlen & Hsync) Hc Hk.
  assert (forall l,
    Forall (fun task => 0 < Task.id task <= k + 1 /\ stable (Task.title task) /\
                        stable (Task.status task) /\ stable (Task.date task)) l ->
    Z.of_nat (length l) <= k + 1 ->
    exists w', and_then (set_tasks l) (fun _ => TaskManager.save_tasks) w = (Returns tt, w') /\
               within (k + 1) w') as Hsave.
  { intros l Hl Hlen'.
    assert (within (k + 1) (mkWorld l (Some (tasks_text l)))) as Hin
      by (repeat split; try done; by right).
    eexists. split; [| exact Hin].
    unfold and_then, set_tasks. rewrite save_tasks_storable; [done |].
    cbn [tasks]. by apply (within_storable (k + 1) _ Hk Hin). }
  assert (Forall (fun task => 0 < Task.id task <= k + 1 /\ stable (Task.title task) /\
                        stable (Task.status task) /\ stable (Task.date task)) (tasks w))
    as Hall'.
  { eapply Forall_impl; [exact Hall |]. cbn beta. intros task ([? ?] & ?).
    split; [lia | done]. }
  destruct c as [title status date_str|task_id new_status|task_id]; cbn [run_call].
  - destruct Hc as (H1 & H2 & H3). apply Hsave.
    + apply Forall_app. split; [done |]. constructor; [| constructor].
      cbn [Task.id Task.title Task.status Task.date]. split; [lia | done].
    + rewrite length_app. cbn [length]. lia.
  - apply Hsave.
    + apply set_first_status_keeps; [| done].
      intros task (? & ? & ? & ?). done.
    + rewrite set_first_status_same_length. lia.
  - apply Hsave.
    + apply Forall_forall. intros task [_ Hin]%list_elem_of_filter.
      revert task Hin. by apply Forall_forall.
    + pose proof (length_filter (fun task => Task.id task <> task_id) (tasks w)). lia.
Qed.

Lemma run_calls_within cs : forall k w,
  within k w -> Forall call_ok cs -> k + Z.of_nat (length cs) < int_limit ->
  exists w', run_calls cs w = (Returns tt, w') /\ within (k + Z.of_nat (length cs)) w'.
Proof.
  induction cs as [|c cs IH]; intros k w Hw Hcs Hk.
  - exists w. split; [done |]. cbn [length]. by rewrite Z.add_0_r.
  - apply Forall_cons in Hcs as [Hc Hcs]. cbn [length] in *.
    destruct (run_call_within c k w Hw Hc ltac:(lia)) as (w1 & Hrun & Hw1).
    destruct (IH (k + 1) w1 Hw1 Hcs ltac:(lia)) as (w' & Hrun' & Hw').
    exists w'. split.
    + cbn [run_calls]. by rewrite (and_then_returns _ _ _ _ _ Hrun).
    + by replace (k + Z.of_nat (S (length cs))) with (k + 1 + Z.of_nat (length cs)) by lia.
Qed.

Lemma init_within k w l0 :
  k < int_limit -> within k w ->
  TaskManager.init (mkWorld l0 (data_file w)) = (Returns tt, w).
Proof.
  intros Hk Hw. destruct (within_storable k w Hk Hw) as [Hst Hpf].
  destruct Hw as (_ & _ & Hsync). destruct w as [l f].
  unfold file_in_sync in Hsync. cbn [tasks data_file] in *.
  destruct Hsync as [[-> ->] | ->]; [reflexivity |].
  rewrite init_text by done. by rewrite joined_all_pair_free.
Qed.

End UnicodeFacts.

(** ** Saving and loading *)

(** C5, with the two conditions it needs. For a collection whose ids are
    within the digit limit of [int], [save_tasks] returns, and a load of
    the text it wrote, by [load_tasks] on any manager or by a new
    [TaskManager()], returns the collection with every high surrogate that
    a low one follows joined with it into one code point. So the load
    gives the collection back as it was, the same tasks in the same order
    each with its id, title, status and date, exactly when no string of it
    holds such a pair. *)
Theorem save_then_load_roundtrip (w : Unicode.World) :
  Forall Unicode.storable (Unicode.tasks w) ->
  exists text loaded,
    Unicode.TaskManager.save_tasks w =
      (Unicode.Returns tt, Unicode.mkWorld (Unicode.tasks w) (Some text)) /\
    (forall l0, Unicode.TaskManager.load_tasks (Unicode.mkWorld l0 (Some text)) =
                (Unicode.Returns tt, Unicode.mkWorld loaded (Some text))) /\
    (forall l0, Unicode.TaskManager.init (Unicode.mkWorld l0 (Some text)) =
                (Unicode.Returns tt, Unicode.mkWorld loaded (Some text))) /\
    Unicode.and_then Unicode.TaskManager.save_tasks
      (fun _ => Unicode.TaskManager.load_tasks) w =
      (Unicode.Returns tt, Unicode.mkWorld loaded (Some text)) /\
    loaded = Unicode.joined <$> Unicode.tasks w /\
    (Forall Unicode.pair_free (Unicode.tasks w) -> loaded = Unicode.tasks w) /\
    (loaded = Unicode.tasks w -> Forall Unicode.pair_free (Unicode.tasks w)).
Proof.
  intros Hw. eexists _, _.
  split; [by apply UnicodeFacts.save_tasks_storable |].
  split; [intros l0; by apply UnicodeFacts.load_tasks_text |].
  split; [intros l0; by apply UnicodeFacts.init_text |].
  split.
  { erewrite UnicodeFacts.and_then_returns by (by apply UnicodeFacts.save_tasks_storable).
    by apply UnicodeFacts.load_tasks_text. }
  split; [done |]. split; apply UnicodeFacts.joined_all_iff.
Qed.

Lemma save_then_load_roundtrip_witness :
  let task :=
    Unicode.Task.mk 1 [0xd83d; 0x41; 0x1f600; 0xde00; 0xe9]%N (Unicode.literal "To do")
                    (Unicode.literal "2024-01-01") in
  exists text,
    Unicode.TaskManager.save_tasks (Unicode.mkWorld [task] None) =
      (Unicode.Returns tt, Unicode.mkWorld [task] (Some text)) /\
    Unicode.TaskManager.init (Unicode.mkWorld [] (Some text)) =
      (Unicode.Returns tt, Unicode.mkWorld [task] (Some text)).
Proof.
  intros task.
  destruct (save_then_load_roundtrip (Unicode.mkWorld [task] None))
    as (text & loaded & Hsave & _ & Hinit & _ & _ & Hsame & _).
  { repeat constructor; vm_compute; intros; discriminate. }
  exists text. split; [exact Hsave |].
  rewrite (Hinit []). by rewrite Hsame by (repeat constructor).
Defined.

(** C5 on collections where it fails. A title of the two code points
    [0xd83d] and [0xde00] is written as two escapes and loaded as the one
    code point [0x1f600]: the loaded collection differs from the saved
    one. And with the id [10 ^ 4300], the least one of 4301 digits,
    [save_tasks] raises, the file keeps what was written before the id,
    and a load of it raises in turn. *)
Theorem save_then_load_joins_surrogate_pair :
  (let saved := [Unicode.Task.mk 1 [0xd83d; 0xde00]%N (Unicode.literal "To do")
                                 (Unicode.literal "2024-01-01")] in
   let loaded := [Unicode.Task.mk 1 [0x1f600]%N (Unicode.literal "To do")
                                  (Unicode.literal "2024-01-01")] in
   exists text,
     Unicode.TaskManager.save_tasks (Unicode.mkWorld saved None) =
       (Unicode.Returns tt, Unicode.mkWorld saved (Some text)) /\
     Unicode.TaskManager.load_tasks (Unicode.mkWorld [] (Some text)) =
       (Unicode.Returns tt, Unicode.mkWorld loaded (Some text)) /\
     loaded <> saved) /\
  (let saved := [Unicode.Task.mk Unicode.int_limit (Unicode.literal "a")
                                 (Unicode.literal "To do")
                                 (Unicode.literal "2024-01-01")] in
   exists text,
     Unicode.TaskManager.save_tasks (Unicode.mkWorld saved None) =
       (Unicode.Raises Unicode.DigitsError, Unicode.mkWorld saved (Some text)) /\
     Unicode.TaskManager.load_tasks (Unicode.mkWorld [] (Some text)) =
       (Unicode.Raises Unicode.DecodeError, Unicode.mkWorld [] (Some text))).
Proof.
  split.
  - eexists. split; [vm_compute; reflexivity |]. split; [vm_compute; reflexivity | done].
  - eexists. split; [vm_compute; reflexivity | vm_compute; reflexivity].
Qed.

(** X1. Calls whose strings hold no high surrogate with a low one after
    it, fewer of them than the digit limit of [int] can count, all return
    on a store that started empty and without a file; and a new
    [TaskManager()] that finds the file as they left it loads exactly the
    collection that the old one held, whatever its own memory held
    before. *)
Theorem restart_restores_collection (cs : list Unicode.call) (l0 : list Unicode.Task.t) :
  Forall Unicode.call_ok cs ->
  Z.of_nat (length cs) < Unicode.int_limit ->
  exists w,
    Unicode.run_calls cs Unicode.fresh_world = (Unicode.Returns tt, w) /\
    Unicode.TaskManager.init (Unicode.mkWorld l0 (Unicode.data_file w)) =
      (Unicode.Returns tt, w).
Proof.
  intros Hcs Hlen.
  destruct (UnicodeFacts.run_calls_within cs 0 Unicode.fresh_world) as (w & Hrun & Hw);
    [| done | lia |].
  { split; [constructor | split; [done | by left]]. }
  exists w. split; [done |]. by apply (UnicodeFacts.init_within _ _ _ Hlen).
Qed.

Lemma restart_restores_collection_witness :
  exists w,
    Unicode.run_calls
      [Unicode.AddTask [0x1f600; 0xd83d]%N (Unicode.literal "To do")
                       (Unicode.literal "2024-01-01");
       Unicode.UpdateTaskStatus 1 (Unicode.literal "Done")] Unicode.fresh_world =
      (Unicode.Returns tt, w) /\
    Unicode.TaskManager.init (Unicode.mkWorld [] (Unicode.data_file w)) =
      (Unicode.Returns tt, w).
Proof.
  apply (restart_restores_collection
           [Unicode.AddTask [0x1f600; 0xd83d]%N (Unicode.literal "To do")
                            (Unicode.literal "2024-01-01");
            Unicode.UpdateTaskStatus 1 (Unicode.literal "Done")]).
  - repeat constructor; vm_compute; intros; discriminate.
  - vm_compute. reflexivity.
Defined.

(** ** The two models of the store agree

    On strings with code points below 256 and with fewer calls than the
    digit limit of [int] can count, the store of the first model does what
    the store of the second does: the same collections and the same
    files. *)

Lemma escape_literal s : Unicode.escape (Unicode.literal s) = Json.escape s.
Proof.
  induction s as [|a s IH]; [done |].
  change (Unicode.literal (String a s)) with (ord a :: Unicode.literal s).
  cbn [Unicode.escape Json.escape]. rewrite IH. f_equal.
  unfold Unicode.escape_code, ord. pose proof (N_ascii_bounded a) as Ha.
  apply N.ltb_lt in Ha. by rewrite Ha, ascii_N_embedding.
Qed.

Lemma encode_literal s :
  Unicode.encode_basestring_ascii (Unicode.literal s) = Json.encode_basestring_ascii s.
Proof. unfold Unicode.encode_basestring_ascii. by rewrite escape_literal. Qed.

Lemma task_text_full level task :
  Unicode.task_text level (full_task task) = Json.iterencode level (Task.to_value task).
Proof.
  rewrite JsonFacts.iterencode_task. unfold Unicode.task_text, full_task.
  cbn [Unicode.Task.id Unicode.Task.title Unicode.Task.status Unicode.Task.date].
  by rewrite !encode_literal.
Qed.

Lemma more_tasks_text_full (l : list Task.t) :
  Unicode.more_tasks_text (full_task <$> l) = Json.arr_rest 1 (map Task.to_value l).
Proof.
  induction l as [|task l IH]; [done |].
  cbn [fmap list_fmap map Unicode.more_tasks_text Json.arr_rest] in *.
  by rewrite IH, task_text_full.
Qed.

Lemma tasks_text_full (l : list Task.t) :
  Unicode.tasks_text (full_task <$> l) = Json.dump (tasks_to_value l).
Proof.
  destruct l as [|task l]; [done |].
  unfold Json.dump, tasks_to_value. cbn [map]. rewrite JsonFacts.iterencode_arr_cons.
  cbn [fmap list_fmap Unicode.tasks_text].
  by rewrite more_tasks_text_full, task_text_full.
Qed.

Lemma set_first_status_full task_id new_status (l : list Task.t) :
  Unicode.TaskManager.set_first_status task_id (Unicode.literal new_status) (full_task <$> l) =
  full_task <$> set_first_status task_id new_status l.
Proof.
  induction l as [|task l IH]; [done |].
  cbn [fmap list_fmap set_first_status Unicode.TaskManager.set_first_status] in *.
  change (Unicode.Task.id (full_task task)) with (Task.id task).
  destruct (decide (Task.id task = task_id)); [done |].
  cbn [fmap list_fmap]. by rewrite IH.
Qed.

Lemma filter_full task_id (l : list Task.t) :
  filter (fun task => Unicode.Task.id task <> task_id) (full_task <$> l) =
  full_task <$> filter (fun task => Task.id task <> task_id) l.
Proof.
  induction l as [|task l IH]; [done |].
  cbn [fmap list_fmap] in *. rewrite !filter_cons, IH.
  change (Unicode.Task.id (full_task task)) with (Task.id task).
  by destruct (decide (Task.id task <> task_id)).
Qed.

Lemma full_task_storable (l : list Task.t) :
  Forall (fun task => Unicode.fits (Task.id task) = true) l ->
  Forall Unicode.storable (full_task <$> l).
Proof.
  intros Hl. apply Forall_fmap. eapply Forall_impl; [exact Hl |]. cbn beta.
  intros task Hid. unfold Unicode.storable, full_task, compose.
  cbn [Unicode.Task.id Unicode.Task.title Unicode.Task.status Unicode.Task.date].
  repeat split; [done | apply UnicodeFacts.literal_is_str..].
Qed.

Lemma full_save (l : list Task.t) file :
  Forall (fun task => Unicode.fits (Task.id task) = true) l ->
  Unicode.TaskManager.save_tasks (Unicode.mkWorld (full_task <$> l) file) =
  (Unicode.Returns tt, full_world (mkWorld l (saved l))).
Proof.
  intros Hl. rewrite UnicodeFacts.save_tasks_storable by (by apply full_task_storable).
  unfold full_world, saved. cbn [Unicode.tasks tasks data_file].
  by rewrite tasks_text_full.
Qed.

Lemma full_run_call c w w' :
  run_call c w = inr (tt, w') ->
  Forall (fun task => Unicode.fits (Task.id task) = true) (tasks w') ->
  Unicode.run_call (full_call c) (full_world w) = (Unicode.Returns tt, full_world w').
Proof.
  destruct w as [l f].
  destruct c as [title status date_str|task_id new_status|task_id];
    cbn [run_call full_call Unicode.run_call].
  - rewrite add_task_eq. cbn zeta. intros [= <-]. cbn [tasks]. intros Hfits.
    unfold Unicode.TaskManager.add_task, Unicode.and_then, Unicode.get_tasks,
      Unicode.set_tasks. unfold full_world at 1 2 3.
    cbn [Unicode.tasks Unicode.data_file tasks data_file]. rewrite length_fmap.
    change (?l ++ [Unicode.Task.mk ?i (Unicode.literal title) (Unicode.literal status)
                                   (Unicode.literal date_str)])
      with (l ++ (full_task <$> [Task.mk i title status date_str])).
    rewrite <- fmap_app. by apply full_save.
  - rewrite update_task_status_eq. cbn zeta. intros [= <-]. cbn [tasks]. intros Hfits.
    unfold Unicode.TaskManager.update_task_status, Unicode.and_then, Unicode.get_tasks,
      Unicode.set_tasks. unfold full_world at 1 2 3.
    cbn [Unicode.tasks Unicode.data_file tasks data_file]. rewrite set_first_status_full.
    by apply full_save.
  - rewrite delete_task_eq. cbn zeta. intros [= <-]. cbn [tasks]. intros Hfits.
    unfold Unicode.TaskManager.delete_task, Unicode.and_then, Unicode.get_tasks,
      Unicode.set_tasks. unfold full_world at 1 2 3.
    cbn [Unicode.tasks Unicode.data_file tasks data_file]. rewrite filter_full.
    by apply full_save.
Qed.

Lemma full_run_calls cs : forall w w' (n : nat),
  (length (tasks w) <= n)%nat ->
  Forall (fun task => 1 <= Task.id task <= Z.of_nat n) (tasks w) ->
  run_calls cs w = inr (tt, w') ->
  Z.of_nat (n + length cs) < Unicode.int_limit ->
  Unicode.run_calls (full_call <$> cs) (full_world w) = (Unicode.Returns tt, full_world w').
Proof.
  induction cs as [|c cs IH]; intros w w' n Hlen Hall Hrun Hlim.
  - by injection Hrun as <-.
  - cbn [run_calls] in Hrun. unfold and_then in Hrun.
    destruct (run_call c w) as [e|[[] w1]] eqn:Hc; [done |].
    destruct (run_call_ids_bounded c w w1 n Hlen Hall Hc) as [Hlen1 Hall1].
    assert (additions [c] + n <= S n)%nat as Hn by (destruct c; cbn [additions]; lia).
    cbn [length] in Hlim. cbn [fmap list_fmap Unicode.run_calls].
    erewrite UnicodeFacts.and_then_returns.
    + apply (IH w1 w' (additions [c] + n)%nat); try done. lia.
    + apply full_run_call; [done |].
      eapply Forall_impl; [exact Hall1 |]. cbn beta. intros task Hid.
      apply (UnicodeFacts.fits_bounds _ (Z.of_nat (additions [c] + n))); lia.
Qed.

(** Whatever the first model says of a run of store calls holds of the
    second model's run of the same calls. *)
Lemma models_agree (cs : list call) (w : World) :
  run_calls cs fresh_world = inr (tt, w) ->
  Z.of_nat (length cs) < Unicode.int_limit ->
  Unicode.run_calls (full_call <$> cs) Unicode.fresh_world =
  (Unicode.Returns tt, full_world w).
Proof.
  intros Hrun Hlim.
  apply (full_run_calls cs fresh_world w 0); [done | constructor | done | done].
Qed.
